(** * excelify_pdf: OCR structuring pipeline

    A shallow embedding of the rule-based structuring engine
    ([cleanOcrData], [processTask]), the Textract table reconstruction
    ([textractTableFlow]), the region-of-interest geometry mapping
    ([handleMouseUp]), the language / whitelist handler
    ([handleLanguageChange]), the spreadsheet export
    ([generateAndDownloadExcel]) and the per-document run ([processFile]).

    Conventions.
    - A JavaScript string is a [string]; [split], [join] and [includes]
      are defined on it.  The primitives whose behaviour depends on the
      Unicode tables ([trim], [toLowerCase]) and on the regular-expression
      engine ([replace] with a global pattern) are the fields of the class
      [StringPrims]: every theorem holds for every implementation of them
      (where it needs a law of [trim], the law is a hypothesis), and
      [ascii_prims] is the instance on which examples are run.
      A split by the empty string cuts a JavaScript string into its
      UTF-16 code units, and is the field [code_units] of the class.
    - A [Record<string,string>] built from an object literal is a
      [gmap string string].  Property names are keys, except [__proto__]:
      assigning a string to it creates no property ([JS.set_property]).
    - A JavaScript number that may be fractional is a [Q], and the
      arithmetic of the modules [Geometry], [Pipeline] and [Previews] is
      exact, where the code computes in IEEE doubles: a quotient and a
      product are each rounded to 53 bits there, so that a value of the
      code and the value here differ by a relative error below 2^-51, and
      their roundings to an integer differ (by 1) when the exact value is
      that close to a half-integer.  The module [Doubles] evaluates the
      double computation itself.  Overflow, infinities and NaN (a division
      by zero) are outside the exact model.  [Math.round] is [js_round]. *)

From Stdlib Require Import QArith Qround Qabs Qminmax Lqa.
From Stdlib Require Import SpecFloat.
From Stdlib Require Import DecimalString.
From stdpp Require Import base gmap strings list sorting.

Local Open Scope stdpp_scope.

(** ** JavaScript strings *)

Module JS.

(** [s.startsWith(p)] *)
Fixpoint startsWith (p s : string) : bool :=
  match p, s with
  | EmptyString, _ => true
  | String _ _, EmptyString => false
  | String a p', String b s' => Ascii.eqb a b && startsWith p' s'
  end.

(** [s.includes(e)] *)
Fixpoint includes (s e : string) : bool :=
  startsWith e s ||
  match s with
  | EmptyString => false
  | String _ s' => includes s' e
  end.

(** [s.split(sep)] for a non-empty [sep]: the list starts with the chunk
    that is being read; [skip] counts the characters of a matched
    separator that are still to be passed over. *)
Fixpoint split_go (sep : string) (skip : nat) (s : string) : list string :=
  match s with
  | EmptyString => [EmptyString]
  | String c s' =>
      match skip with
      | S k => split_go sep k s'
      | O =>
          if startsWith sep s
          then EmptyString :: split_go sep (String.length sep - 1) s'
          else match split_go sep 0 s' with
               | [] => [String c EmptyString]
               | chunk :: chunks => String c chunk :: chunks
               end
      end
  end.

(** [s.split(sep)], for a separator that is not empty. *)
Definition split (sep s : string) : list string := split_go sep 0 s.

(** [l.join(sep)] *)
Fixpoint join (sep : string) (l : list string) : string :=
  match l with
  | [] => EmptyString
  | [x] => x
  | x :: rest => x +:+ sep +:+ join sep rest
  end.

(** The strings ['\n'] and ['\t']. *)
Definition LF : Ascii.ascii := Ascii.ascii_of_nat 10.
Definition newline : string := String LF EmptyString.
Definition tab : string := String (Ascii.ascii_of_nat 9) EmptyString.

(** Truthiness of a string: [Boolean(s)], [s ? .. : ..], [!s]. *)
Definition truthy (s : string) : bool :=
  match s with
  | EmptyString => false
  | String _ _ => true
  end.

(** [e] occurs in [s] as a substring. *)
Definition substring_of (e s : string) : Prop :=
  ∃ pre post, s = pre +:+ e +:+ post.

(** [s] does not contain the character [c]. *)
Fixpoint free_of (c : Ascii.ascii) (s : string) : Prop :=
  match s with
  | EmptyString => True
  | String a s' => a ≠ c ∧ free_of c s'
  end.

(** [obj[key] = value], for an object that was created by a literal and
    a value that is a string.  The name [__proto__] is the accessor
    inherited from [Object.prototype]; its setter ignores a value that is
    neither an object nor [null], and no own property is created. *)
Definition set_property (key value : string) (obj : gmap string string)
    : gmap string string :=
  if bool_decide (key = "__proto__") then obj else <[key := value]> obj.

End JS.

(** The string primitives that are not defined by the repository. *)
Class StringPrims := {
  (** [s.trim()] *)
  trim : string → string;
  (** [s.toLowerCase()] *)
  toLowerCase : string → string;
  (** [text.replace(new RegExp(escapeRegExp(find), 'g'), by)] *)
  replace_global : string → string → string → string;
  (** [s.split('')]: the UTF-16 code units of [s], one string each. *)
  code_units : string → list string;
}.

(** *** The instance on the ASCII repertoire *)

Module AsciiPrims.

Definition is_space (c : Ascii.ascii) : bool :=
  let n := Ascii.nat_of_ascii c in
  ((9 <=? n) && (n <=? 13)) || (n =? 32).

Fixpoint trim_start (s : string) : string :=
  match s with
  | EmptyString => EmptyString
  | String c s' => if is_space c then trim_start s' else s
  end.

(** Drops the trailing white space: a character is kept when it is not
    white space or when something is kept after it. *)
Fixpoint trim_end (s : string) : string :=
  match s with
  | EmptyString => EmptyString
  | String c s' =>
      match trim_end s' with
      | EmptyString => if is_space c then EmptyString else String c EmptyString
      | kept => String c kept
      end
  end.

Definition trim (s : string) : string := trim_end (trim_start s).

Definition lower_char (c : Ascii.ascii) : Ascii.ascii :=
  let n := Ascii.nat_of_ascii c in
  if (65 <=? n) && (n <=? 90) then Ascii.ascii_of_nat (n + 32) else c.

Fixpoint toLowerCase (s : string) : string :=
  match s with
  | EmptyString => EmptyString
  | String c s' => String (lower_char c) (toLowerCase s')
  end.

(** Literal global replacement, for a replacement text without [$]
    patterns. *)
Fixpoint replace_go (find by_ : string) (skip : nat) (s : string) : string :=
  match s with
  | EmptyString => EmptyString
  | String c s' =>
      match skip with
      | S k => replace_go find by_ k s'
      | O =>
          if JS.startsWith find s
          then by_ +:+ replace_go find by_ (String.length find - 1) s'
          else String c (replace_go find by_ 0 s')
      end
  end.

Definition replace_global (find by_ text : string) : string :=
  match find with
  | EmptyString => text
  | String _ _ => replace_go find by_ 0 text
  end.

(** On the ASCII repertoire a code unit is a character: one string per
    character, and no string at all for the empty string. *)
Fixpoint code_units (s : string) : list string :=
  match s with
  | EmptyString => []
  | String c s' => String c EmptyString :: code_units s'
  end.

End AsciiPrims.

Definition ascii_prims : StringPrims := {|
  trim := AsciiPrims.trim;
  toLowerCase := AsciiPrims.toLowerCase;
  replace_global := AsciiPrims.replace_global;
  code_units := AsciiPrims.code_units;
|}.

(** ** The deterministic parser: [cleanOcrData] *)

Module CleanOcr.
Section CleanOcr.
Context {prims : StringPrims}.

(** [headersString.split(',').map(h => h.trim()).filter(Boolean)] *)
Definition parse_headers (headersString : string) : list string :=
  filter (λ h, JS.truthy h = true) (map trim (JS.split "," headersString)).

(** [values[index]?.trim() || ''] *)
Definition field (values : list string) (index : nat) : string :=
  match values !! index with
  | Some v => trim v
  | None => EmptyString
  end.

(** [headers.forEach((header, index) => { rowObject[header] = .. })],
    from position [index] on. *)
Fixpoint fill_row (values : list string) (index : nat) (headers : list string)
    (rowObject : gmap string string) : gmap string string :=
  match headers with
  | [] => rowObject
  | header :: rest =>
      fill_row values (S index) rest
        (JS.set_property header (field values index) rowObject)
  end.

(** [line.split(separator)] *)
Definition fields_of (separator line : string) : list string :=
  match separator with
  | EmptyString => code_units line
  | String _ _ => JS.split separator line
  end.

Definition row_of (headers : list string) (separator line : string)
    : gmap string string :=
  fill_row (fields_of separator line) 0 headers ∅.

(** [Object.values(obj).some(v => v.length > 0)] *)
Definition has_content (obj : gmap string string) : bool :=
  existsb (λ v, 0 <? String.length v) (map_to_list obj).*2.

(** [line.trim() !== ''] *)
Definition nonblank (line : string) : bool := JS.truthy (trim line).

Definition data_lines (rawText : string) : list string :=
  filter (λ line, nonblank line = true) (JS.split JS.newline rawText).

Definition cleanOcrData (rawText headersString separator : string)
    : list (gmap string string) :=
  let headers := parse_headers headersString in
  if length headers =? 0 then []
  else
    filter (λ obj, has_content obj = true)
           (map (row_of headers separator) (data_lines rawText)).

End CleanOcr.
End CleanOcr.


(** ** The data model of [page.tsx] *)

(** A row of structured data, [Record<string, string>]. *)
Abbreviation Row := (gmap string string).

Inductive OcrEngine := tesseract | textract | google | ocrspace.

#[global] Instance OcrEngine_eq_dec : EqDecision OcrEngine.
Proof. solve_decision. Defined.

Inductive Status := pending | awaiting_selection | processing | completed | error_status.

Record ExtractionTask := {
  task_id : string;
  name : string;
  columnHeaders : string;
  columnSeparators : string;
  eliminators : string;
  findValues : string;
  replaceValues : string;
  structuredDataPreview : option (list Row);
}.

(** An entry of [extractedData]: [{ page, tsv }]. *)
Record PageData := { page : nat; tsv : string }.

(** A selection rectangle in full-resolution space. *)
Record Rect := { left : Z; top : Z; width : Z; height : Z }.

(** [{ width, height }] of a full-resolution page image. *)
Record Dimensions := { dim_width : Q; dim_height : Q }.

(** [ProcessedFile]; an optional field is an [option].  [file] is the name
    of the [File] object, [file_structuredDataPreview] the Textract output
    field [structuredDataPreview] of the file. *)
Record ProcessedFile := {
  file_id : string;
  file : string;
  status : Status;
  progress : Z;
  ocrEngine : option OcrEngine;
  languages : option (list string);
  error : option string;
  extractedData : option (list PageData);
  pageImages : option (list (option string));
  analysis : option string;
  manuallyEditedPages : option (gmap nat string);
  totalPages : option nat;
  pagePreviews : option (list (nat * string));
  selectedPages : gset nat;
  file_structuredDataPreview : option (list Row);
  selectionRectangles : option (list Rect);
  pageImageDimensions : option (list (option Dimensions));
  extractionTasks : list ExtractionTask;
}.

(** The entry [onFilesAdded] creates for a file. *)
Definition newFile (id fileName : string) : ProcessedFile :=
  {| file_id := id; file := fileName; status := pending; progress := 0;
     ocrEngine := None; languages := None; error := None;
     extractedData := None; pageImages := None; analysis := None;
     manuallyEditedPages := None; totalPages := None; pagePreviews := None;
     selectedPages := ∅; file_structuredDataPreview := None;
     selectionRectangles := None; pageImageDimensions := None;
     extractionTasks := [] |}.

(** The task [handleAddTask] and the end of a run create, with its name. *)
Definition newTask (id taskName : string) : ExtractionTask :=
  {| task_id := id; name := taskName; columnHeaders := "";
     columnSeparators := JS.tab; eliminators := ""; findValues := "";
     replaceValues := ""; structuredDataPreview := None |}.

(** ** The structuring engine: [processTask] *)

Module Structuring.
Section Structuring.
Context {prims : StringPrims}.

(** [s ? s.split(',').map(v => v.trim()) : []] *)
Definition parse_values (s : string) : list string :=
  if JS.truthy s then map trim (JS.split "," s) else [].

(** [s ? s.split(',').map(e => e.trim().toLowerCase()).filter(Boolean) : []] *)
Definition parse_eliminators (s : string) : list string :=
  if JS.truthy s
  then filter (λ e, JS.truthy e = true)
              (map (λ e, toLowerCase (trim e)) (JS.split "," s))
  else [].

(** [findValues.length > 0 && findValues.length === replaceValues.length] *)
Definition useCorrections (findList replaceList : list string) : bool :=
  (0 <? length findList) && (length findList =? length replaceList).

(** The loop [for (let i = 0; i < findValues.length; i++)], from index [i]
    on; [pending] is [findValues.slice(i)].  A missing [replaceValues[i]]
    is [undefined], which [replace] prints. *)
Fixpoint correct_from (replaceList pending : list string) (i : nat)
    (pageText : string) : string :=
  match pending with
  | [] => pageText
  | find :: rest =>
      correct_from replaceList rest (S i)
        (if JS.truthy find
         then replace_global find (default "undefined" (replaceList !! i)) pageText
         else pageText)
  end.

Definition apply_corrections (findList replaceList : list string)
    (pageText : string) : string :=
  if useCorrections findList replaceList
  then correct_from replaceList findList 0 pageText
  else pageText.

(** [eliminators.some(e => line.toLowerCase().includes(e))] *)
Definition line_eliminated (elims : list string) (line : string) : bool :=
  existsb (λ e, JS.includes (toLowerCase line) e) elims.

Definition kept_lines (elims : list string) (pageText : string) : list string :=
  filter (λ line, line_eliminated elims line = false) (JS.split JS.newline pageText).

Definition apply_eliminators (elims : list string) (pageText : string) : string :=
  if 0 <? length elims
  then JS.join JS.newline (kept_lines elims pageText)
  else pageText.

(** [sort((a, b) => a.page - b.page)]: the sort is stable. *)
Fixpoint insert_page (x : PageData) (l : list PageData) : list PageData :=
  match l with
  | [] => [x]
  | y :: l' => if page x <=? page y then x :: l else y :: insert_page x l'
  end.

Definition sort_pages (l : list PageData) : list PageData :=
  foldr insert_page [] l.

(** [file.manuallyEditedPages?.get(pageData.page) ?? pageData.tsv] *)
Definition page_text (edited : option (gmap nat string)) (pageData : PageData)
    : string :=
  match edited with
  | Some m => default (tsv pageData) (m !! page pageData)
  | None => tsv pageData
  end.

(** [task.columnSeparators || '\t'] *)
Definition separator_of (task : ExtractionTask) : string :=
  if JS.truthy (columnSeparators task) then columnSeparators task else JS.tab.

(** The body of the loop over pages: the rows one page contributes. *)
Definition page_rows (edited : option (gmap nat string)) (task : ExtractionTask)
    (findList replaceList elims : list string) (pageData : PageData)
    : list Row :=
  let pageText := page_text edited pageData in
  let pageText := apply_corrections findList replaceList pageText in
  let pageText := apply_eliminators elims pageText in
  if negb (JS.truthy (trim pageText)) then []
  else CleanOcr.cleanOcrData pageText (columnHeaders task) (separator_of task).

(** [processTask(file, task)].  The in-place sort of [file.extractedData]
    does not show in the value returned. *)
Definition processTask (f : ProcessedFile) (task : ExtractionTask) : list Row :=
  match extractedData f with
  | None => []
  | Some data =>
      if negb (JS.truthy (trim (columnHeaders task))) then []
      else
        let findList := parse_values (findValues task) in
        let replaceList := parse_values (replaceValues task) in
        let elims := parse_eliminators (eliminators task) in
        concat (map (page_rows (manuallyEditedPages f) task findList replaceList elims)
                    (sort_pages data))
  end.

(** The task with both correction lists empty. *)
Definition without_corrections (task : ExtractionTask) : ExtractionTask :=
  {| task_id := task_id task; name := name task;
     columnHeaders := columnHeaders task;
     columnSeparators := columnSeparators task;
     eliminators := eliminators task;
     findValues := ""; replaceValues := "";
     structuredDataPreview := structuredDataPreview task |}.

End Structuring.

(** A page with a footer line between two data lines, and a task that
    eliminates the footer. *)
Definition sample_text : string :=
  "John" +:+ JS.tab +:+ "25" +:+ JS.newline +:+ "PAGE NO. 3" +:+ JS.newline
  +:+ "Jane" +:+ JS.tab +:+ "30".

Definition sample_file : ProcessedFile :=
  {| file_id := "roll.pdf-0-1"; file := "roll.pdf"; status := completed;
     progress := 100; ocrEngine := Some tesseract; languages := Some ["eng"];
     error := None;
     extractedData := Some [{| page := 1; tsv := sample_text |}];
     pageImages := None; analysis := None; manuallyEditedPages := None;
     totalPages := Some 1; pagePreviews := None; selectedPages := {[ 1 ]};
     file_structuredDataPreview := None; selectionRectangles := None;
     pageImageDimensions := None; extractionTasks := [] |}.

Definition sample_task : ExtractionTask :=
  {| task_id := "task-1"; name := "Sheet 1"; columnHeaders := "Name,Age";
     columnSeparators := JS.tab; eliminators := "page no."; findValues := "";
     replaceValues := ""; structuredDataPreview := None |}.

(** The same task with two texts to find and one replacement. *)
Definition mismatched_task : ExtractionTask :=
  {| task_id := "task-1"; name := "Sheet 1"; columnHeaders := "Name,Age";
     columnSeparators := JS.tab; eliminators := "page no."; findValues := "J,2";
     replaceValues := "I"; structuredDataPreview := None |}.

End Structuring.

(** ** The table-structuring backend: [textractTableFlow] *)

Module Textract.

(** A [Relationship] of the Textract response. *)
Record Relationship := {
  Type_ : option string;
  Ids : option (list string);
}.

(** A [Block] of the Textract response, with the fields the flow reads. *)
Record Block := {
  BlockType : option string;
  Id : option string;
  Relationships : option (list Relationship);
  RowIndex : option nat;
  ColumnIndex : option nat;
  Text : option string;
}.

Definition has_type (t : string) (b : Block) : bool :=
  bool_decide (BlockType b = Some t).

Definition is_child (r : Relationship) : bool :=
  bool_decide (Type_ r = Some "CHILD").

(** [`Column ${i + 1}`] *)
Definition column_name (i : nat) : string :=
  "Column " +:+ NilZero.string_of_uint (Nat.to_uint (i + 1)).

Section Textract.
Context {prims : StringPrims}.

(** [new Set(table?.Relationships?.find(r => r.Type === 'CHILD')?.Ids)] *)
Definition tableCellIds (table : Block) : gset string :=
  match Relationships table with
  | None => ∅
  | Some rels =>
      match List.find is_child rels with
      | Some r => list_to_set (default [] (Ids r))
      | None => ∅
      end
  end.

(** [b.BlockType === 'CELL' && b.Id && tableCellIds.has(b.Id)] *)
Definition is_table_cell (ids : gset string) (b : Block) : bool :=
  has_type "CELL" b &&
  match Id b with
  | Some i => JS.truthy i && bool_decide (i ∈ ids)
  | None => false
  end.

(** The [reduce] that indexes the WORD blocks by [Id]. *)
Definition wordsById (blocks : list Block) : gmap string Block :=
  fold_left
    (λ acc word,
       match Id word with
       | Some i => if JS.truthy i then <[i := word]> acc else acc
       | None => acc
       end)
    (filter (λ b, has_type "WORD" b = true) blocks) ∅.

(** The inner loop of [getCellText] over the ids of one relationship. *)
Definition add_words (words : gmap string Block) (ids : list string)
    (text : string) : string :=
  fold_left
    (λ text i,
       match words !! i ≫= Text with
       | Some t => if JS.truthy t then text +:+ t +:+ " " else text
       | None => text
       end)
    ids text.

Definition getCellText (words : gmap string Block) (cell : Block) : string :=
  trim
    (fold_left
       (λ text rel,
          match Ids rel with
          | Some ids => if is_child rel then add_words words ids text else text
          | None => text
          end)
       (default [] (Relationships cell)) EmptyString).

(** The state of the loop over the cells. *)
Record Grid := {
  tableData : gmap nat (gmap nat string);
  maxRow : nat;
  maxCol : nat;
}.

Definition empty_grid : Grid :=
  {| tableData := ∅; maxRow := 0; maxCol := 0 |}.

(** One iteration of [for (const cell of cells)]; an index that is absent
    or 0 is falsy. *)
Definition add_cell (words : gmap string Block) (g : Grid) (cell : Block) : Grid :=
  match RowIndex cell, ColumnIndex cell with
  | Some (S r'), Some (S c') =>
      let r := S r' in
      let c := S c' in
      {| tableData :=
           <[r := <[c := getCellText words cell]> (default ∅ (tableData g !! r))]>
             (tableData g);
         maxRow := Nat.max (maxRow g) r;
         maxCol := Nat.max (maxCol g) c |}
  | _, _ => g
  end.

(** [tableData[r]?.[c] || ''] *)
Definition cell_at (g : Grid) (r c : nat) : string :=
  default EmptyString (tableData g !! r ≫= λ row, row !! c).

Definition rowsAsArrays (g : Grid) : list (list string) :=
  map (λ r, map (cell_at g r) (seq 1 (maxCol g))) (seq 1 (maxRow g)).

(** [headers.forEach((header, index) => { rowObject[header] = row[index] || '' })],
    from position [index] on. *)
Fixpoint fill_record (row : list string) (index : nat) (headers : list string)
    (rowObject : Row) : Row :=
  match headers with
  | [] => rowObject
  | header :: rest =>
      fill_record row (S index) rest
        (JS.set_property header (default EmptyString (row !! index)) rowObject)
  end.

Definition record_of (headers row : list string) : Row :=
  fill_record row 0 headers ∅.

(** From [if (rowsAsArrays.length < 1)] to the end of the flow.  [shift]
    removes the first row from [rowsAsArrays] itself: the two tests that
    follow it read the shortened array. *)
Definition structure_rows (rows : list (list string)) : list Row :=
  match rows with
  | [] => []
  | first :: others =>
      let '(headers, rows_after) :=
        if 1 <? length rows
        then (first, others)
        else (map column_name (seq 0 (length first)), rows) in
      let dataRows := if 1 <? length rows_after then rows_after else [[]] in
      if length rows_after =? 1 then []
      else map (record_of headers) dataRows
  end.

(** The rows of a table, as arrays of the texts of their cells. *)
Definition table_rows (blocks : list Block) (table : Block) : list (list string) :=
  let ids := tableCellIds table in
  let cells := filter (λ b, is_table_cell ids b = true) blocks in
  let words := wordsById blocks in
  rowsAsArrays (fold_left (add_cell words) cells empty_grid).

(** The flow on the [Blocks] of the response. *)
Definition structure_blocks (response : option (list Block)) : list Row :=
  match response with
  | None => []
  | Some blocks =>
      match filter (λ b, has_type "TABLE" b = true) blocks with
      | [] => []
      | table :: _ => structure_rows (table_rows blocks table)
      end
  end.

End Textract.

(** Blocks and responses to run the flow on. *)
Definition word (id text : string) : Block :=
  {| BlockType := Some "WORD"; Id := Some id; Relationships := None;
     RowIndex := None; ColumnIndex := None; Text := Some text |}.

Definition cell (id : string) (r c : nat) (words : list string) : Block :=
  {| BlockType := Some "CELL"; Id := Some id;
     Relationships := Some [{| Type_ := Some "CHILD"; Ids := Some words |}];
     RowIndex := Some r; ColumnIndex := Some c; Text := None |}.

Definition table (id : string) (cells : list string) : Block :=
  {| BlockType := Some "TABLE"; Id := Some id;
     Relationships := Some [{| Type_ := Some "CHILD"; Ids := Some cells |}];
     RowIndex := None; ColumnIndex := None; Text := None |}.

(** A response with one table of two rows: the header row Name, Age and
    the data row John, 25. *)
Definition two_row_response : list Block :=
  [ table "t" ["c11"; "c12"; "c21"; "c22"];
    cell "c11" 1 1 ["w1"]; cell "c12" 1 2 ["w2"];
    cell "c21" 2 1 ["w3"]; cell "c22" 2 2 ["w4"];
    word "w1" "Name"; word "w2" "Age"; word "w3" "John"; word "w4" "25" ].

(** The same table with one more data row. *)
Definition three_row_response : list Block :=
  [ table "t" ["c11"; "c12"; "c21"; "c22"; "c31"; "c32"];
    cell "c11" 1 1 ["w1"]; cell "c12" 1 2 ["w2"];
    cell "c21" 2 1 ["w3"]; cell "c22" 2 2 ["w4"];
    cell "c31" 3 1 ["w5"]; cell "c32" 3 2 ["w6"];
    word "w1" "Name"; word "w2" "Age"; word "w3" "John"; word "w4" "25";
    word "w5" "Jane"; word "w6" "30" ].

(** A table of one row. *)
Definition one_row_response : list Block :=
  [ table "t" ["c11"; "c12"];
    cell "c11" 1 1 ["w1"]; cell "c12" 1 2 ["w2"];
    word "w1" "John"; word "w2" "25" ].

End Textract.

(** ** The geometry mapper: [handleMouseUp] and the display of rectangles *)

(** [Math.round]: the nearest integer, a tie going up. *)
Definition js_round (x : Q) : Z := Qfloor (x + (1 # 2)).

(** [a < b] on numbers. *)
Definition Qltb (a b : Q) : bool := if Qlt_le_dec a b then true else false.

Module Geometry.

(** [drawingState] without the file id, and [mousePosition]. *)
Record DrawingState := { startX : Q; startY : Q }.
Record MousePosition := { x : Q; y : Q }.

(** The [img] element found in the container. *)
Record ImageEl := { clientWidth : Q; clientHeight : Q }.

(** A rectangle in display space. *)
Record DrawnRect := { d_left : Q; d_top : Q; d_width : Q; d_height : Q }.

Definition drawnRect (ds : DrawingState) (mp : MousePosition) : DrawnRect :=
  {| d_left := Qmin (startX ds) (x mp);
     d_top := Qmin (startY ds) (y mp);
     d_width := Qabs (startX ds - x mp);
     d_height := Qabs (startY ds - y mp) |}.

(** [Math.round((v / display) * original)], with the exact quotient and
    product.  The code rounds each of them to a double ([Doubles.scale]),
    which moves the result by 1 where the exact value is within the
    rounding error of a half-integer. *)
Definition scale (v display original : Q) : Z :=
  js_round ((v / display) * original).

Definition scaledRect (r : DrawnRect) (displayWidth displayHeight : Q)
    (original : Dimensions) : Rect :=
  {| left := scale (d_left r) displayWidth (dim_width original);
     top := scale (d_top r) displayHeight (dim_height original);
     width := scale (d_width r) displayWidth (dim_width original);
     height := scale (d_height r) displayHeight (dim_height original) |}.

(** [file.pageImageDimensions?.[pageNumber - 1]] *)
Definition originalDimensions (f : ProcessedFile) (pageNumber : nat)
    : option Dimensions :=
  match pageNumber with
  | O => None
  | S i => pageImageDimensions f ≫= λ dims, mjoin (dims !! i)
  end.

(** What a call of [handleMouseUp] does. *)
Inductive Outcome :=
| Ignored                       (* an early [return]: nothing changes *)
| Discarded                     (* too small: the drawing state is reset *)
| Added (rects : list Rect).    (* [onSetSelectionRectangles(file.id, rects)],
                                   and the drawing state is reset *)

(** [drawnRect.width < 5 || drawnRect.height < 5] *)
Definition too_small (r : DrawnRect) : bool :=
  Qltb (d_width r) 5 || Qltb (d_height r) 5.

Definition handleMouseUp (drawingState : option DrawingState)
    (mousePosition : option MousePosition) (imageEl : option ImageEl)
    (f : ProcessedFile) (pageNumber : nat) : Outcome :=
  match drawingState, mousePosition, imageEl with
  | Some ds, Some mp, Some img =>
      let r := drawnRect ds mp in
      if too_small r then Discarded
      else
        match originalDimensions f pageNumber with
        | None => Ignored
        | Some original =>
            let existingRects := default [] (selectionRectangles f) in
            Added (existingRects ++
                   [scaledRect r (clientWidth img) (clientHeight img) original])
        end
  | _, _, _ => Ignored
  end.

(** The rectangle shown over the page image for a stored rectangle:
    [(rect.left / originalWidth) * displayWidth] and so on. *)
Definition displayRect (r : Rect) (displayWidth displayHeight : Q)
    (original : Dimensions) : DrawnRect :=
  {| d_left := (inject_Z (left r) / dim_width original) * displayWidth;
     d_top := (inject_Z (top r) / dim_height original) * displayHeight;
     d_width := (inject_Z (width r) / dim_width original) * displayWidth;
     d_height := (inject_Z (height r) / dim_height original) * displayHeight |}.

(** A stored rectangle read as a rectangle to map. *)
Definition as_drawn (r : Rect) : DrawnRect :=
  {| d_left := inject_Z (left r); d_top := inject_Z (top r);
     d_width := inject_Z (width r); d_height := inject_Z (height r) |}.

(** The mapping of [handleMouseUp] applied in the other direction, from
    the full-resolution image to the display. *)
Definition map_back (r : Rect) (displayWidth displayHeight : Q)
    (original : Dimensions) : Rect :=
  scaledRect (as_drawn r) (dim_width original) (dim_height original)
    {| dim_width := displayWidth; dim_height := displayHeight |}.

(** A page of 1000 by 1200 shown at 500 by 600, and a drag from (10, 20)
    to (110, 70). *)
Definition sample_dimensions : Dimensions :=
  {| dim_width := 1000; dim_height := 1200 |}.


Definition sample_drag : DrawingState * MousePosition :=
  ({| startX := 10; startY := 20 |}, {| x := 110; y := 70 |}).

Definition sample_image : ImageEl := {| clientWidth := 500; clientHeight := 600 |}.

(** A page of 200 by 200 shown at 800 by 800, and a rectangle drawn at
    (14, 14) with sides of 14. *)
Definition small_page : Dimensions := {| dim_width := 200; dim_height := 200 |}.

Definition drawn_14 : DrawnRect :=
  {| d_left := 14; d_top := 14; d_width := 14; d_height := 14 |}.

End Geometry.

(** ** The double arithmetic of the mapping *)

Module Doubles.

(** The binary64 format: 53 bits of precision, exponents below 1024. *)
Definition prec : Z := 53.
Definition emax : Z := 1024.


(** [a / b] and [a * b], rounded to the nearest double, ties to even. *)
Definition div : spec_float → spec_float → spec_float := SFdiv prec emax.
Definition mul : spec_float → spec_float → spec_float := SFmul prec emax.

(** The number a finite double stands for. *)
Definition value (x : spec_float) : option Q :=
  match x with
  | S754_zero _ => Some 0%Q
  | S754_finite s m e =>
      Some ((if s then inject_Z (Z.neg m) else inject_Z (Z.pos m)) * 2 ^ e)%Q
  | S754_infinity _ | S754_nan => None
  end.

(** [Math.round((v / display) * original)] as the code computes it;
    [None] when the product is not finite. *)
Definition scale (v display original : spec_float) : option Z :=
  js_round <$> value (mul (div v display) original).

End Doubles.

(** ** Languages and the character whitelist: [handleLanguageChange] *)

Module Languages.

Definition ENG_CHARS : string :=
  "abcdefghijklmnopqrstuvwxyzABCDEFGHIJKLMNOPQRSTUVWXYZ0123456789".
Definition HINDI_CHARS : string :=
  "ँंःअआइईउऊऋएऐओऔकखगघङचछजझञटठडढणतथदधनपफबभमयरलवशषसह़ािीुूृेैोौ्०१२३४५६७८९".
Definition SYMBOLS : string := ".,-/:()# ".

(** The state the handler works on: [languages] and [charWhitelist]. *)
Record State := { langs : list string; charWhitelist : string }.

(** [useState(['eng'])] and [useState(ENG_CHARS + SYMBOLS)]. *)
Definition initial : State :=
  {| langs := ["eng"]; charWhitelist := ENG_CHARS +:+ SYMBOLS |}.

(** A [Set<string>] as the list of its elements in insertion order. *)
Fixpoint set_of (l : list string) : list string :=
  match l with
  | [] => []
  | a :: l' => a :: filter (λ b, b ≠ a) (set_of l')
  end.

Definition set_add (a : string) (s : list string) : list string :=
  if bool_decide (a ∈ s) then s else s ++ [a].

Definition set_delete (a : string) (s : list string) : list string :=
  filter (λ b, b ≠ a) s.

(** [Array.from(currentLangs)] after the additions or deletions. *)
Definition newLangs (lang : string) (checked : bool) (prev : list string)
    : list string :=
  let currentLangs := set_of prev in
  if bool_decide (lang = "hinglish") then
    if checked then set_add "hin" (set_add "eng" currentLangs)
    else set_delete "hin" (set_delete "eng" currentLangs)
  else
    if checked then set_add lang currentLangs
    else set_delete lang currentLangs.

Definition newWhitelist (l : list string) : string :=
  (if bool_decide ("eng" ∈ l) then ENG_CHARS else EmptyString) +:+
  (if bool_decide ("hin" ∈ l) then HINDI_CHARS else EmptyString) +:+
  SYMBOLS.

(** The handler; the Boolean tells whether the "Language Required" toast
    was shown. *)
Definition handleLanguageChange (lang : string) (checked : bool) (st : State)
    : State * bool :=
  let l := newLangs lang checked (langs st) in
  if length l =? 0 then (st, true)
  else ({| langs := l; charWhitelist := newWhitelist l |}, false).

(** What the user can do to the two pieces of state: tick or untick a
    language box, or type into the whitelist input
    ([setCharWhitelist(e.target.value)]). *)
Inductive Request :=
| ChangeLanguage (lang : string) (checked : bool)
| EditWhitelist (text : string).

Definition step (st : State) (r : Request) : State :=
  match r with
  | ChangeLanguage lang checked => (handleLanguageChange lang checked st).1
  | EditWhitelist text => {| langs := langs st; charWhitelist := text |}
  end.

(** The state after a sequence of requests, from [initial]. *)
Definition run (requests : list Request) : State :=
  fold_left step requests initial.

End Languages.

(** ** The spreadsheet export: [generateAndDownloadExcel] *)

Module Excel.

(** A worksheet as it is built: [json_to_sheet(rows, ..)] or
    [aoa_to_sheet(cells)].  The [header] option of [json_to_sheet] lists
    the keys of the first row and is not kept. *)
Inductive Worksheet :=
| JsonSheet (rows : list Row)
| AoaSheet (cells : list (list string)).

(** The sheets of the workbook, in the order of [SheetNames]. *)
Abbreviation Workbook := (list (string * Worksheet)).

Inductive Toast :=
| NoTasksDefined
| StructuringInProgress
| DataKeysMissing (taskName : string)
| ExportFailed
| DownloadStarted
| DownloadFailed.

(** How a call ends: an early [return], the download, or the [catch]. *)
Inductive Ending := Returned | Downloaded | Caught.

(** [workbook] is the workbook that is downloaded, and has no sheet when
    nothing is downloaded. *)
Record Outcome := {
  ending : Ending;
  workbook : Workbook;
  toasts : list Toast;
}.

Definition no_data_found : Worksheet :=
  AoaSheet [["No structured data was found."]].

Definition no_data_generated : Worksheet :=
  AoaSheet [["No structured data was generated for this task."]].

Section Excel.
Context {prims : StringPrims}.

(** The two calls into the spreadsheet library that can throw:
    [book_append_sheet] accepts or refuses a sheet name given the names
    in the workbook, and [write] accepts or refuses the workbook. *)
Context (sheet_name_ok : list string → string → bool).
Context (write_ok : Workbook → bool).

(** [XLSX.utils.book_append_sheet(workbook, worksheet, name)];
    [None] when the library throws. *)
Definition book_append_sheet (wb : Workbook) (ws : Worksheet) (sheetName : string)
    : option Workbook :=
  if sheet_name_ok wb.*1 sheetName then Some (wb ++ [(sheetName, ws)]) else None.

(** [task.structuredDataPreview], or [processTask(file, task)] when there
    is no preview. *)
Definition finalData (f : ProcessedFile) (task : ExtractionTask) : list Row :=
  match structuredDataPreview task with
  | Some rows => rows
  | None => Structuring.processTask f task
  end.

(** The body of [for (const task of file.extractionTasks)], on the
    workbook and the toasts shown so far; the workbook is [None] when the
    library throws. *)
Definition export_task (f : ProcessedFile) (task : ExtractionTask)
    (wb : Workbook) (ts : list Toast) : option Workbook * list Toast :=
  let rows := finalData f task in
  if 0 <? length rows then
    (book_append_sheet wb (JsonSheet rows) (name task), ts)
  else if JS.truthy (trim (columnHeaders task)) then
    (book_append_sheet wb no_data_generated (name task), ts)
  else (Some wb, ts ++ [DataKeysMissing (name task)]).

Fixpoint export_tasks (f : ProcessedFile) (tasks : list ExtractionTask)
    (wb : Workbook) (ts : list Toast) : option Workbook * list Toast :=
  match tasks with
  | [] => (Some wb, ts)
  | task :: rest =>
      match export_task f task wb ts with
      | (Some wb', ts') => export_tasks f rest wb' ts'
      | (None, ts') => (None, ts')
      end
  end.

(** From [XLSX.write] to the end of the [try] block. *)
Definition download (wb : Workbook) (ts : list Toast) : Outcome :=
  if write_ok wb
  then {| ending := Downloaded; workbook := wb; toasts := ts ++ [DownloadStarted] |}
  else {| ending := Caught; workbook := []; toasts := ts ++ [DownloadFailed] |}.

Definition generateAndDownloadExcel (f : ProcessedFile) : Outcome :=
  match ocrEngine f with
  | Some textract =>
      let sheet :=
        match file_structuredDataPreview f with
        | Some (row :: rows) =>
            book_append_sheet [] (JsonSheet (row :: rows)) "Extracted Data"
        | _ => book_append_sheet [] no_data_found "No Data Found"
        end in
      match sheet with
      | Some wb => download wb []
      | None => {| ending := Caught; workbook := []; toasts := [DownloadFailed] |}
      end
  | Some _ =>
      if length (extractionTasks f) =? 0
      then {| ending := Returned; workbook := []; toasts := [NoTasksDefined] |}
      else
        match export_tasks f (extractionTasks f) [] [StructuringInProgress] with
        | (None, ts) =>
            {| ending := Caught; workbook := []; toasts := ts ++ [DownloadFailed] |}
        | (Some wb, ts) =>
            if length wb =? 0
            then {| ending := Returned; workbook := []; toasts := ts ++ [ExportFailed] |}
            else download wb ts
        end
  | None => download [] []
  end.

End Excel.

(** A file recognized by Tesseract with one task without headers, as a
    run leaves it, and a spreadsheet library that accepts every sheet
    name and every workbook with a sheet. *)
Definition headerless_file : ProcessedFile :=
  {| file_id := "roll.pdf-0-1"; file := "roll.pdf"; status := completed;
     progress := 100; ocrEngine := Some tesseract; languages := Some ["eng"];
     error := None;
     extractedData := Some [{| page := 1; tsv := "John 25" |}];
     pageImages := None; analysis := None; manuallyEditedPages := None;
     totalPages := Some 1; pagePreviews := None; selectedPages := {[ 1 ]};
     file_structuredDataPreview := None; selectionRectangles := None;
     pageImageDimensions := None;
     extractionTasks := [newTask "task-1" "Sheet 1"] |}.

Definition any_name : list string → string → bool := λ _ _, true.
Definition any_sheet : Workbook → bool := λ wb, 0 <? length wb.

End Excel.

(** ** The per-document run: [processFile] *)

Module Pipeline.

(** A value that is thrown: an [Error] with its message, or anything
    else. *)
Inductive Thrown := ErrorObject (message : string) | NotAnError.

(** [error instanceof Error ? error.message : "An unknown error occurred."] *)
Definition errorMessage (e : Thrown) : string :=
  match e with
  | ErrorObject m => m
  | NotAnError => "An unknown error occurred."
  end.

(** What the run does to the outside, in order. *)
Inductive Event :=
| Toast (title : string)
| WorkerCreated (langString : string)
| WorkerConfigured (whitelist : string)
| TerminateWorker
| ConsoleError.

(** The page as rendered on the canvas: [canvas.toDataURL('image/png')]
    and the size of the canvas. *)
Record Rendered := {
  imageDataUri : string;
  canvas_width : Q;
  canvas_height : Q;
}.

(** The settings of the component that the run reads. *)
Record Settings := {
  charWhitelist : string;
  opencvApiUrl : string;
  applyBinarization : bool;
  ocrSpaceApiKey : string;
}.

(** The collaborators of the run; each call returns its value or the
    value it throws.  [render] stands for [getPage], the rendering on the
    canvas and the binarization, and returns [None] when the canvas has
    no 2d context; [preprocess] is the call of the OpenCV service and
    returns [processedImageDataUri], or [None] on any failure. *)
Record Env := {
  readFile : Thrown + string;
  getDocument : string → Thrown + unit;
  createWorker : string → Thrown + unit;
  setParameters : string → Thrown + unit;
  render : nat → bool → Thrown + option Rendered;
  preprocess : string → nat → string → option string;
  extractTableWithTextract : string → Thrown + list Row;
  ocrWithGoogleVision : string → Thrown + string;
  ocrWithOcrSpace : string → string → string → Thrown + string;
  recognize : string → option (list Rect) → Thrown + list string;
  terminate : Thrown + unit;
  now : string;
}.

(** The state the run works on: the [files] of the component and the
    events so far. *)
Record St := { files : list ProcessedFile; log : list Event }.

(** Computations that change the state and may throw. *)
Definition M (A : Type) : Type := St → (Thrown + A) * St.

Definition ret {A} (a : A) : M A := λ st, (inr a, st).

Definition bind {A B} (m : M A) (k : A → M B) : M B :=
  λ st, match m st with
        | (inr a, st') => k a st'
        | (inl e, st') => (inl e, st')
        end.

Definition call {A} (r : Thrown + A) : M A := λ st, (r, st).

Definition emit (ev : Event) : M unit :=
  λ st, (inr (), {| files := files st; log := log st ++ [ev] |}).

(** [setFiles(prev => g(prev))] *)
Definition setFiles (g : list ProcessedFile → list ProcessedFile) : M unit :=
  λ st, (inr (), {| files := g (files st); log := log st |}).

(** [try { body } catch (error) { handler(error) }] *)
Definition try_catch (body : M unit) (handler : Thrown → M unit) : M unit :=
  λ st, match body st with
        | (inr a, st') => (inr a, st')
        | (inl e, st') => handler e st'
        end.

Notation "'await' x ':=' m 'in' k" := (bind m (λ x, k))
  (at level 10, x name, m at level 100, k at level 200).
Notation "'exec' m 'in' k" := (bind m (λ _, k))
  (at level 10, m at level 100, k at level 200).

(** [arr[i] = v] on an array with holes: the array grows when [i] is
    past its end. *)
Definition array_set {A} (i : nat) (v : A) (arr : list (option A)) : list (option A) :=
  if i <? length arr then <[i := Some v]> arr
  else arr ++ replicate (i - length arr) None ++ [Some v].

(** [arr[pageNumber - 1] = v]; for page 0 the key is not an index. *)
Definition set_page {A} (pageNumber : nat) (v : A) (arr : list (option A))
    : list (option A) :=
  match pageNumber with
  | O => arr
  | S i => array_set i v arr
  end.

(** The name of the engine in the first toast. *)
Definition engine_title (engine : OcrEngine) : string :=
  match engine with
  | tesseract => "Tesseract.js"
  | textract => "Amazon Textract"
  | google => "Google Cloud Vision"
  | ocrspace => "OCR.space"
  end.

(** [`${pageNumber}`] *)
Definition page_string (pageNumber : nat) : string :=
  NilZero.string_of_uint (Nat.to_uint pageNumber).

(** [Math.min(100, Math.round(5 + (processedCount / numPages) * 95))],
    with the exact quotient and product. *)
Definition progress_of (processedCount numPages : nat) : Z :=
  Z.min 100
    (js_round (5 + (inject_Z (Z.of_nat processedCount)
                    / inject_Z (Z.of_nat numPages)) * 95)).

(** The variables the loop over the pages updates. *)
Record Acc := {
  processedCount : nat;
  allStructuredData : list Row;
  newExtractedDataForFile : list PageData;
  newPageImagesForFile : list (option string);
  newPageImageDimensionsForFile : list (option Dimensions);
}.

(** The three statements that store a recognized page. *)
Definition store_page (acc : Acc) (pageNumber : nat) (pageText : string)
    (r : Rendered) : Acc :=
  {| processedCount := processedCount acc;
     allStructuredData := allStructuredData acc;
     newExtractedDataForFile :=
       newExtractedDataForFile acc ++ [{| page := pageNumber; tsv := pageText |}];
     newPageImagesForFile :=
       set_page pageNumber (imageDataUri r) (newPageImagesForFile acc);
     newPageImageDimensionsForFile :=
       set_page pageNumber
         {| dim_width := canvas_width r; dim_height := canvas_height r |}
         (newPageImageDimensionsForFile acc) |}.

Definition count_page (acc : Acc) : Acc :=
  {| processedCount := S (processedCount acc);
     allStructuredData := allStructuredData acc;
     newExtractedDataForFile := newExtractedDataForFile acc;
     newPageImagesForFile := newPageImagesForFile acc;
     newPageImageDimensionsForFile := newPageImageDimensionsForFile acc |}.

(** [{ ...f, progress }] *)
Definition with_progress (f : ProcessedFile) (p : Z) : ProcessedFile :=
  {| file_id := file_id f; file := file f; status := status f; progress := p;
     ocrEngine := ocrEngine f; languages := languages f; error := error f;
     extractedData := extractedData f; pageImages := pageImages f;
     analysis := analysis f; manuallyEditedPages := manuallyEditedPages f;
     totalPages := totalPages f; pagePreviews := pagePreviews f;
     selectedPages := selectedPages f;
     file_structuredDataPreview := file_structuredDataPreview f;
     selectionRectangles := selectionRectangles f;
     pageImageDimensions := pageImageDimensions f;
     extractionTasks := extractionTasks f |}.

(** [{ ...task, structuredDataPreview: undefined }] *)
Definition clear_preview (task : ExtractionTask) : ExtractionTask :=
  {| task_id := task_id task; name := name task;
     columnHeaders := columnHeaders task;
     columnSeparators := columnSeparators task;
     eliminators := eliminators task; findValues := findValues task;
     replaceValues := replaceValues task; structuredDataPreview := None |}.

Section Run.
Context {prims : StringPrims}.
Context (settings : Settings) (env : Env).

(** The pre-processing of the page image by the OpenCV service, for the
    Tesseract engine and a non-blank service address: the image to
    recognize. *)
Definition image_to_recognize (engine : OcrEngine) (pageNumber : nat)
    (r : Rendered) : M string :=
  match engine with
  | tesseract =>
      if JS.truthy (trim (opencvApiUrl settings)) then
        exec emit (Toast ("Pre-processing Page " +:+ page_string pageNumber)) in
        match preprocess env (opencvApiUrl settings) pageNumber (imageDataUri r) with
        | Some processed =>
            exec emit (Toast ("Pre-processing Succeeded (Page "
                              +:+ page_string pageNumber +:+ ")")) in
            ret processed
        | None =>
            exec emit (Toast "OpenCV Pre-processing Failed") in
            ret (imageDataUri r)
        end
      else ret (imageDataUri r)
  | _ => ret (imageDataUri r)
  end.

(** The recognition of one rendered page by the chosen engine. *)
Definition recognize_page (processedFile : ProcessedFile)
    (selectedLangs : list string) (engine : OcrEngine) (pageNumber : nat)
    (r : Rendered) (imageToRecognize : string) (acc : Acc) : M Acc :=
  match engine with
  | textract =>
      await pageStructuredData := call (extractTableWithTextract env imageToRecognize) in
      ret {| processedCount := processedCount acc;
             allStructuredData := allStructuredData acc ++ pageStructuredData;
             newExtractedDataForFile := newExtractedDataForFile acc;
             newPageImagesForFile := newPageImagesForFile acc;
             newPageImageDimensionsForFile := newPageImageDimensionsForFile acc |}
  | google =>
      await text := call (ocrWithGoogleVision env imageToRecognize) in
      ret (store_page acc pageNumber (trim text) r)
  | ocrspace =>
      exec emit (Toast ("Sending Page " +:+ page_string pageNumber
                        +:+ " to OCR.space")) in
      await text := call (ocrWithOcrSpace env imageToRecognize
                            (ocrSpaceApiKey settings) (JS.join "," selectedLangs)) in
      ret (store_page acc pageNumber (trim text) r)
  | tesseract =>
      let options :=
        match selectionRectangles processedFile with
        | Some (rect :: rects) => Some (rect :: rects)
        | _ => None
        end in
      await lines := call (recognize env imageToRecognize options) in
      ret (store_page acc pageNumber (JS.join JS.newline lines) r)
  end.

(** [for (const pageNumber of pagesToProcess)] *)
Fixpoint pages_loop (processedFile : ProcessedFile) (selectedLangs : list string)
    (engine : OcrEngine) (numPages : nat) (pages : list nat) (acc : Acc) : M Acc :=
  match pages with
  | [] => ret acc
  | pageNumber :: rest =>
      await rendered :=
        call (render env pageNumber
                (bool_decide (engine = tesseract) && applyBinarization settings)) in
      match rendered with
      | None => pages_loop processedFile selectedLangs engine numPages rest acc
      | Some r =>
          await imageToRecognize := image_to_recognize engine pageNumber r in
          await acc := recognize_page processedFile selectedLangs engine pageNumber
                         r imageToRecognize acc in
          let acc := count_page acc in
          let progress := progress_of (processedCount acc) numPages in
          exec setFiles (map (λ f, if bool_decide (file_id f = file_id processedFile)
                                   then with_progress f progress else f)) in
          pages_loop processedFile selectedLangs engine numPages rest acc
      end
  end.

(** The first [setFiles] of the run, on one entry of [files]. *)
Definition start_entry (processedFile : ProcessedFile) (selectedLangs : list string)
    (engine : OcrEngine) (isReOcr : bool) (f : ProcessedFile) : ProcessedFile :=
  if bool_decide (file_id f ≠ file_id processedFile) then f
  else
    {| file_id := file_id f; file := file f;
       status := processing; progress := 5;
       ocrEngine := Some engine; languages := Some selectedLangs;
       error := error f;
       extractedData := Some [];
       pageImages := pageImages f;
       analysis := if isReOcr then analysis f else Some "Processing...";
       manuallyEditedPages := if isReOcr then manuallyEditedPages f else Some ∅;
       totalPages := totalPages f; pagePreviews := pagePreviews f;
       selectedPages := selectedPages f;
       file_structuredDataPreview := file_structuredDataPreview f;
       selectionRectangles := selectionRectangles f;
       pageImageDimensions := pageImageDimensions f;
       extractionTasks := map clear_preview (extractionTasks f) |}.

(** The last [setFiles] of the run, on one entry of [files]. *)
Definition finish_entry (processedFile : ProcessedFile) (engine : OcrEngine)
    (acc : Acc) (f : ProcessedFile) : ProcessedFile :=
  if bool_decide (file_id f ≠ file_id processedFile) then f
  else
    match engine with
    | textract =>
        {| file_id := file_id f; file := file f;
           status := completed; progress := 100;
           ocrEngine := ocrEngine f; languages := languages f; error := error f;
           extractedData := extractedData f; pageImages := pageImages f;
           analysis :=
             Some ("Extracted "
                   +:+ NilZero.string_of_uint (Nat.to_uint (length (allStructuredData acc)))
                   +:+ " rows using Amazon Textract's table analysis.");
           manuallyEditedPages := manuallyEditedPages f;
           totalPages := totalPages f; pagePreviews := pagePreviews f;
           selectedPages := selectedPages f;
           file_structuredDataPreview := Some (allStructuredData acc);
           selectionRectangles := selectionRectangles f;
           pageImageDimensions := pageImageDimensions f;
           extractionTasks := extractionTasks f |}
    | _ =>
        let defaultTask := newTask ("task-" +:+ now env) "Sheet 1" in
        let wasReOcrWithTasks := 0 <? length (extractionTasks f) in
        {| file_id := file_id f; file := file f;
           status := completed; progress := 100;
           ocrEngine := ocrEngine f; languages := languages f; error := error f;
           extractedData := Some (Structuring.sort_pages (newExtractedDataForFile acc));
           pageImages := Some (newPageImagesForFile acc);
           analysis :=
             Some "Processing complete. Review extracted text and define extraction rules.";
           manuallyEditedPages := manuallyEditedPages f;
           totalPages := totalPages f; pagePreviews := pagePreviews f;
           selectedPages := selectedPages f;
           file_structuredDataPreview := file_structuredDataPreview f;
           selectionRectangles := selectionRectangles f;
           pageImageDimensions := Some (newPageImageDimensionsForFile acc);
           extractionTasks :=
             if wasReOcrWithTasks then map clear_preview (extractionTasks f)
             else [defaultTask] |}
    end.

(** The entry the [catch] block writes:
    [{ ...processedFile, status: 'error', progress: 0, error: errorMessage }]. *)
Definition error_entry (processedFile : ProcessedFile) (message : string)
    : ProcessedFile :=
  {| file_id := file_id processedFile; file := file processedFile;
     status := error_status; progress := 0;
     ocrEngine := ocrEngine processedFile; languages := languages processedFile;
     error := Some message;
     extractedData := extractedData processedFile;
     pageImages := pageImages processedFile;
     analysis := analysis processedFile;
     manuallyEditedPages := manuallyEditedPages processedFile;
     totalPages := totalPages processedFile;
     pagePreviews := pagePreviews processedFile;
     selectedPages := selectedPages processedFile;
     file_structuredDataPreview := file_structuredDataPreview processedFile;
     selectionRectangles := selectionRectangles processedFile;
     pageImageDimensions := pageImageDimensions processedFile;
     extractionTasks := extractionTasks processedFile |}.

(** [Array.from(processedFile.selectedPages).sort((a, b) => a - b)] *)
Definition pagesToProcess (processedFile : ProcessedFile) : list nat :=
  merge_sort (≤) (elements (selectedPages processedFile)).

(** The [try] block. *)
Definition run_body (processedFile : ProcessedFile) (selectedLangs : list string)
    (engine : OcrEngine) : M unit :=
  exec emit (Toast ("Processing Started (" +:+ engine_title engine +:+ ")")) in
  await dataUri := call (readFile env) in
  exec call (getDocument env dataUri) in
  let pages := pagesToProcess processedFile in
  let numPages := length pages in
  await tesseractWorker :=
    match engine with
    | tesseract =>
        let langString := JS.join "+" selectedLangs in
        exec call (createWorker env langString) in
        exec emit (WorkerCreated langString) in
        exec call (setParameters env (charWhitelist settings)) in
        exec emit (WorkerConfigured (charWhitelist settings)) in
        ret true
    | _ => ret false
    end in
  let acc0 :=
    {| processedCount := 0; allStructuredData := [];
       newExtractedDataForFile := [];
       newPageImagesForFile := default [] (pageImages processedFile);
       newPageImageDimensionsForFile := default [] (pageImageDimensions processedFile) |} in
  await acc := pages_loop processedFile selectedLangs engine numPages pages acc0 in
  exec (if tesseractWorker : bool
        then exec emit TerminateWorker in call (terminate env)
        else ret ()) in
  exec emit (Toast "Processing Complete") in
  setFiles (map (finish_entry processedFile engine acc)).

(** The [catch] block. *)
Definition run_catch (processedFile : ProcessedFile) (e : Thrown) : M unit :=
  exec emit ConsoleError in
  exec setFiles (map (λ f, if bool_decide (file_id f = file_id processedFile)
                           then error_entry processedFile (errorMessage e)
                           else f)) in
  emit (Toast "Conversion failed").

(** The statements before the [try] block. *)
Definition run_start (processedFile : ProcessedFile) (selectedLangs : list string)
    (engine : OcrEngine) : M unit :=
  let isReOcr := 0 <? length (default [] (pageImages processedFile)) in
  setFiles (map (start_entry processedFile selectedLangs engine isReOcr)).

Definition processFile (processedFile : ProcessedFile) (selectedLangs : list string)
    (engine : OcrEngine) : M unit :=
  exec run_start processedFile selectedLangs engine in
  try_catch (run_body processedFile selectedLangs engine) (run_catch processedFile).

End Run.

(** [fs'] is [fs] with changes only to the entries of the file [id],
    which keep their id. *)
Definition only_touches (id : string) (fs fs' : list ProcessedFile) : Prop :=
  Forall2 (λ f f', file_id f' = file_id f ∧ (file_id f ≠ id → f' = f)) fs fs'.

(** A computation that changes [files] in this way only. *)
Definition local_to {A} (id : string) (m : M A) : Prop :=
  ∀ st r st', m st = (r, st') → only_touches id (files st) (files st').

(** A computation whose events do not include the termination of the
    worker, and one for which this holds when it throws. *)
Definition quiet {A} (m : M A) : Prop :=
  ∀ st r st', m st = (r, st') →
    ∃ evs, log st' = log st ++ evs ∧ TerminateWorker ∉ evs.

Definition quiet_when_thrown {A} (m : M A) : Prop :=
  ∀ st e st', m st = (inl e, st') →
    ∃ evs, log st' = log st ++ evs ∧ TerminateWorker ∉ evs.

(** A document of one page, selected and waiting to be processed, as the
    only entry of [files]; the settings of a fresh component. *)
Definition waiting_file : ProcessedFile :=
  {| file_id := "roll.pdf-0-1"; file := "roll.pdf"; status := awaiting_selection;
     progress := 0; ocrEngine := None; languages := None; error := None;
     extractedData := None; pageImages := None; analysis := None;
     manuallyEditedPages := None; totalPages := Some 1;
     pagePreviews := Some [(1, "data:image/jpeg;base64,AAAA")];
     selectedPages := {[ 1 ]}; file_structuredDataPreview := None;
     selectionRectangles := None;
     pageImageDimensions := Some [Some {| dim_width := 1000; dim_height := 1200 |}];
     extractionTasks := [] |}.

Definition waiting : St := {| files := [waiting_file]; log := [] |}.

Definition fresh_settings : Settings :=
  {| charWhitelist := Languages.ENG_CHARS +:+ Languages.SYMBOLS;
     opencvApiUrl := ""; applyBinarization := false; ocrSpaceApiKey := "" |}.

(** Collaborators that all work, the recognizer reading one line. *)
Definition working_env : Env :=
  {| readFile := inr "data:application/pdf;base64,AAAA";
     getDocument := λ _, inr ();
     createWorker := λ _, inr ();
     setParameters := λ _, inr ();
     render := λ _ _,
       inr (Some {| imageDataUri := "data:image/png;base64,AAAA";
                    canvas_width := 1000; canvas_height := 1200 |});
     preprocess := λ _ _ _, None;
     extractTableWithTextract := λ _, inr [];
     ocrWithGoogleVision := λ _, inr "";
     ocrWithOcrSpace := λ _ _ _, inr "";
     recognize := λ _ _, inr ["John 25"];
     terminate := inr ();
     now := "0" |}.

(** The same collaborators, with a recognizer that throws. *)
Definition failing_env : Env :=
  {| readFile := readFile working_env;
     getDocument := getDocument working_env;
     createWorker := createWorker working_env;
     setParameters := setParameters working_env;
     render := render working_env;
     preprocess := preprocess working_env;
     extractTableWithTextract := extractTableWithTextract working_env;
     ocrWithGoogleVision := ocrWithGoogleVision working_env;
     ocrWithOcrSpace := ocrWithOcrSpace working_env;
     recognize := λ _ _, inl (ErrorObject "recognition failed");
     terminate := terminate working_env;
     now := now working_env |}.

(** The run of the waiting document with the Tesseract engine and English,
    with the recognizer that throws and with the one that works. *)
Definition failed_run : St :=
  (processFile (prims := ascii_prims) fresh_settings failing_env
     waiting_file ["eng"] tesseract waiting).2.

Definition successful_run : St :=
  (processFile (prims := ascii_prims) fresh_settings working_env
     waiting_file ["eng"] tesseract waiting).2.

(** A document of five pages of which pages 4 and 2 were ticked. *)
Definition five_page_file : ProcessedFile :=
  {| file_id := "list.pdf-0-5"; file := "list.pdf"; status := awaiting_selection;
     progress := 0; ocrEngine := None; languages := None; error := None;
     extractedData := None; pageImages := None; analysis := None;
     manuallyEditedPages := None; totalPages := Some 5; pagePreviews := None;
     selectedPages := {[ 4; 2 ]}; file_structuredDataPreview := None;
     selectionRectangles := None; pageImageDimensions := None;
     extractionTasks := [] |}.

(** Collaborators that tell the pages apart: the image of a page names
    the page, and the table of an image has one row, with the image. *)
Definition paging_env : Env :=
  {| readFile := readFile working_env;
     getDocument := getDocument working_env;
     createWorker := createWorker working_env;
     setParameters := setParameters working_env;
     render := λ pageNumber _,
       inr (Some {| imageDataUri := "page-" +:+ page_string pageNumber;
                    canvas_width := 1000; canvas_height := 1200 |});
     preprocess := preprocess working_env;
     extractTableWithTextract := λ image, inr [{[ "Image" := image ]}];
     ocrWithGoogleVision := ocrWithGoogleVision working_env;
     ocrWithOcrSpace := ocrWithOcrSpace working_env;
     recognize := recognize working_env;
     terminate := terminate working_env;
     now := now working_env |}.

(** The [try] block of the run of the document of five pages with the
    Textract engine. *)
Definition paged_run : St :=
  (run_body (prims := ascii_prims) fresh_settings paging_env
     five_page_file ["eng"] textract {| files := [five_page_file]; log := [] |}).2.

End Pipeline.

(** ** The grid of a table: where a cell stands *)

Module TextractGrid.
Import Textract.

(** The cell gives its row and its column as [r] and [c], neither 0. *)
Definition placed_at (cell : Block) (r c : nat) : Prop :=
  RowIndex cell = Some r ∧ ColumnIndex cell = Some c ∧ r ≠ 0 ∧ c ≠ 0.

End TextractGrid.

(** ** The file list: the warning on corrections and the page shown *)

Module FileListView.

(** [s.split(',').filter(Boolean).length > 0] *)
Definition has_items (s : string) : bool :=
  0 <? length (filter (λ v, JS.truthy v = true) (JS.split "," s)).

(** [correctionMismatch]: the condition under which the warning on the
    number of 'Find' and 'Replace' items is shown for a task. *)
Definition correctionMismatch (task : ExtractionTask) : bool :=
  (has_items (findValues task) || has_items (replaceValues task))
  && negb (length (JS.split "," (findValues task))
           =? length (JS.split "," (replaceValues task))).

(** [item.extractedData ? [...item.extractedData].sort(..) : []] *)
Definition sortedExtractedData (item : ProcessedFile) : list PageData :=
  match extractedData item with
  | Some data => Structuring.sort_pages data
  | None => []
  end.

(** [currentPages[item.id] || (sorted.length > 0 ? sorted[0].page : 1)];
    a page number that is absent or 0 is falsy. *)
Definition currentPageNumber (currentPages : gmap string nat) (item : ProcessedFile)
    : nat :=
  match currentPages !! file_id item with
  | Some (S n) => S n
  | _ =>
      match sortedExtractedData item with
      | first :: _ => page first
      | [] => 1
      end
  end.

(** [l.findIndex(P)]; [None] for -1. *)
Fixpoint findIndex {A} (P : A → bool) (l : list A) : option nat :=
  match l with
  | [] => None
  | a :: l' => if P a then Some 0 else S <$> findIndex P l'
  end.

(** [pageIndex]: undefined when no page was extracted, and otherwise the
    index of the current page, 0 when it is not found. *)
Definition pageIndex (currentPages : gmap string nat) (item : ProcessedFile)
    : option nat :=
  let sorted := sortedExtractedData item in
  if 0 <? length sorted
  then Some (default 0 (findIndex (λ p, page p =? currentPageNumber currentPages item)
                          sorted))
  else None.

(** [pageData = sortedExtractedData[pageIndex]] *)
Definition pageData (currentPages : gmap string nat) (item : ProcessedFile)
    : option PageData :=
  pageIndex currentPages item ≫= λ i, sortedExtractedData item !! i.

(** The element whose page the Previous button passes to
    [handlePageChange]: [sorted[Math.max(0, (pageIndex ?? 0) - 1)]]. *)
Definition previousTarget (currentPages : gmap string nat) (item : ProcessedFile)
    : option PageData :=
  sortedExtractedData item
    !! Nat.max 0 (default 0 (pageIndex currentPages item) - 1).

(** The element of the Next button:
    [sorted[Math.min(totalPages - 1, (pageIndex ?? 0) + 1)]]. *)
Definition nextTarget (currentPages : gmap string nat) (item : ProcessedFile)
    : option PageData :=
  sortedExtractedData item
    !! Nat.min (length (sortedExtractedData item) - 1)
               (default 0 (pageIndex currentPages item) + 1).

(** [handlePageChange]: [{ ...prev, [fileId]: page }] *)
Definition handlePageChange (fileId : string) (page : nat)
    (currentPages : gmap string nat) : gmap string nat :=
  <[fileId := page]> currentPages.

(** A file with the results of pages 4 and 2, stored in this order. *)
Definition shuffled_file : ProcessedFile :=
  {| file_id := "list.pdf-0-5"; file := "list.pdf"; status := completed;
     progress := 100; ocrEngine := Some google; languages := Some ["eng"];
     error := None;
     extractedData := Some [{| page := 4; tsv := "four" |};
                            {| page := 2; tsv := "two" |}];
     pageImages := None; analysis := None; manuallyEditedPages := None;
     totalPages := Some 5; pagePreviews := None; selectedPages := {[ 4; 2 ]};
     file_structuredDataPreview := None; selectionRectangles := None;
     pageImageDimensions := None; extractionTasks := [] |}.

(** The same file with the results stored in the order of the pages. *)
Definition ordered_file : ProcessedFile :=
  {| file_id := "list.pdf-0-5"; file := "list.pdf"; status := completed;
     progress := 100; ocrEngine := Some google; languages := Some ["eng"];
     error := None;
     extractedData := Some [{| page := 2; tsv := "two" |};
                            {| page := 4; tsv := "four" |}];
     pageImages := None; analysis := None; manuallyEditedPages := None;
     totalPages := Some 5; pagePreviews := None; selectedPages := {[ 4; 2 ]};
     file_structuredDataPreview := None; selectionRectangles := None;
     pageImageDimensions := None; extractionTasks := [] |}.

End FileListView.

(** ** The handlers of the component on [files] *)

Module Handlers.
Import Pipeline.

(** [prev.map(f => f.id === fileId ? g(f) : f)] *)
Definition on_file (fileId : string) (g : ProcessedFile → ProcessedFile)
    (files : list ProcessedFile) : list ProcessedFile :=
  map (λ f, if bool_decide (file_id f = fileId) then g f else f) files.

(** [{ ...f, extractionTasks: tasks }] *)
Definition with_tasks (f : ProcessedFile) (tasks : list ExtractionTask)
    : ProcessedFile :=
  {| file_id := file_id f; file := file f; status := status f;
     progress := progress f; ocrEngine := ocrEngine f; languages := languages f;
     error := error f; extractedData := extractedData f;
     pageImages := pageImages f; analysis := analysis f;
     manuallyEditedPages := manuallyEditedPages f;
     totalPages := totalPages f; pagePreviews := pagePreviews f;
     selectedPages := selectedPages f;
     file_structuredDataPreview := file_structuredDataPreview f;
     selectionRectangles := selectionRectangles f;
     pageImageDimensions := pageImageDimensions f;
     extractionTasks := tasks |}.

(** [handleTextChange]: the text of the page is stored in a copy of
    [manuallyEditedPages] and the previews of all the tasks are cleared. *)
Definition handleTextChange (fileId : string) (page : nat) (newText : string)
    (files : list ProcessedFile) : list ProcessedFile :=
  on_file fileId
    (λ f,
       {| file_id := file_id f; file := file f; status := status f;
          progress := progress f; ocrEngine := ocrEngine f;
          languages := languages f; error := error f;
          extractedData := extractedData f; pageImages := pageImages f;
          analysis := analysis f;
          manuallyEditedPages :=
            Some (<[page := newText]> (default ∅ (manuallyEditedPages f)));
          totalPages := totalPages f; pagePreviews := pagePreviews f;
          selectedPages := selectedPages f;
          file_structuredDataPreview := file_structuredDataPreview f;
          selectionRectangles := selectionRectangles f;
          pageImageDimensions := pageImageDimensions f;
          extractionTasks := map clear_preview (extractionTasks f) |})
    files.

(** [handleAddTask]; [now] is the text of [Date.now()]. *)
Definition handleAddTask (now : string) (fileId : string)
    (files : list ProcessedFile) : list ProcessedFile :=
  on_file fileId
    (λ f,
       with_tasks f
         (extractionTasks f
          ++ [newTask ("task-" +:+ now)
                ("Sheet "
                 +:+ NilZero.string_of_uint
                       (Nat.to_uint (length (extractionTasks f) + 1)))]))
    files.

(** [handleRemoveTask] *)
Definition handleRemoveTask (fileId taskId : string)
    (files : list ProcessedFile) : list ProcessedFile :=
  on_file fileId
    (λ f, with_tasks f (filter (λ task, task_id task ≠ taskId) (extractionTasks f)))
    files.

(** A [Partial<ExtractionTask>]: the fields that are given. *)
Record TaskDelta := {
  delta_id : option string;
  delta_name : option string;
  delta_columnHeaders : option string;
  delta_columnSeparators : option string;
  delta_eliminators : option string;
  delta_findValues : option string;
  delta_replaceValues : option string;
}.

(** [{ ...task, ...delta, structuredDataPreview: undefined }] *)
Definition apply_delta (task : ExtractionTask) (delta : TaskDelta) : ExtractionTask :=
  {| task_id := default (task_id task) (delta_id delta);
     name := default (name task) (delta_name delta);
     columnHeaders := default (columnHeaders task) (delta_columnHeaders delta);
     columnSeparators := default (columnSeparators task) (delta_columnSeparators delta);
     eliminators := default (eliminators task) (delta_eliminators delta);
     findValues := default (findValues task) (delta_findValues delta);
     replaceValues := default (replaceValues task) (delta_replaceValues delta);
     structuredDataPreview := None |}.

(** [handleUpdateTask] *)
Definition handleUpdateTask (fileId taskId : string) (delta : TaskDelta)
    (files : list ProcessedFile) : list ProcessedFile :=
  on_file fileId
    (λ f,
       with_tasks f
         (map (λ task, if bool_decide (task_id task = taskId)
                       then apply_delta task delta else task)
              (extractionTasks f)))
    files.

(** [handleSetSelectionRectangles]; [rects || undefined] is [rects], an
    empty array being truthy. *)
Definition handleSetSelectionRectangles (fileId : string)
    (rects : option (list Rect)) (files : list ProcessedFile) : list ProcessedFile :=
  on_file fileId
    (λ f,
       {| file_id := file_id f; file := file f; status := status f;
          progress := progress f; ocrEngine := ocrEngine f;
          languages := languages f; error := error f;
          extractedData := extractedData f; pageImages := pageImages f;
          analysis := analysis f;
          manuallyEditedPages := manuallyEditedPages f;
          totalPages := totalPages f; pagePreviews := pagePreviews f;
          selectedPages := selectedPages f;
          file_structuredDataPreview := file_structuredDataPreview f;
          selectionRectangles := rects;
          pageImageDimensions := pageImageDimensions f;
          extractionTasks := map clear_preview (extractionTasks f) |})
    files.

(** [{ ...t, structuredDataPreview: structuredData }] *)
Definition with_preview (task : ExtractionTask) (rows : list Row) : ExtractionTask :=
  {| task_id := task_id task; name := name task;
     columnHeaders := columnHeaders task;
     columnSeparators := columnSeparators task;
     eliminators := eliminators task; findValues := findValues task;
     replaceValues := replaceValues task; structuredDataPreview := Some rows |}.

(** [{ ...f, analysis }] *)
Definition with_analysis (f : ProcessedFile) (text : string) : ProcessedFile :=
  {| file_id := file_id f; file := file f; status := status f;
     progress := progress f; ocrEngine := ocrEngine f; languages := languages f;
     error := error f; extractedData := extractedData f;
     pageImages := pageImages f; analysis := Some text;
     manuallyEditedPages := manuallyEditedPages f;
     totalPages := totalPages f; pagePreviews := pagePreviews f;
     selectedPages := selectedPages f;
     file_structuredDataPreview := file_structuredDataPreview f;
     selectionRectangles := selectionRectangles f;
     pageImageDimensions := pageImageDimensions f;
     extractionTasks := extractionTasks f |}.

(** [{ ...f, selectedPages }] *)
Definition with_selectedPages (f : ProcessedFile) (pages : gset nat) : ProcessedFile :=
  {| file_id := file_id f; file := file f; status := status f;
     progress := progress f; ocrEngine := ocrEngine f; languages := languages f;
     error := error f; extractedData := extractedData f;
     pageImages := pageImages f; analysis := analysis f;
     manuallyEditedPages := manuallyEditedPages f;
     totalPages := totalPages f; pagePreviews := pagePreviews f;
     selectedPages := pages;
     file_structuredDataPreview := file_structuredDataPreview f;
     selectionRectangles := selectionRectangles f;
     pageImageDimensions := pageImageDimensions f;
     extractionTasks := extractionTasks f |}.

(** [handlePageSelectionChange] *)
Definition handlePageSelectionChange (fileId : string) (page : nat)
    (isSelected : bool) (files : list ProcessedFile) : list ProcessedFile :=
  on_file fileId
    (λ f,
       with_selectedPages f
         (if isSelected then {[ page ]} ∪ selectedPages f
          else selectedPages f ∖ {[ page ]}))
    files.

(** The set the loop [for (let i = 1; i <= n; i++) newSelectedPages.add(i)]
    builds. *)
Fixpoint pages_up_to (n : nat) : gset nat :=
  match n with
  | O => ∅
  | S k => pages_up_to k ∪ {[ S k ]}
  end.

(** [handleSelectAllPages]; a file without [totalPages], or with 0 pages,
    is left as it is. *)
Definition handleSelectAllPages (fileId : string) (select : bool)
    (files : list ProcessedFile) : list ProcessedFile :=
  map (λ f,
         match totalPages f with
         | Some (S k) =>
             if bool_decide (file_id f = fileId)
             then with_selectedPages f (if select then pages_up_to (S k) else ∅)
             else f
         | _ => f
         end)
      files.

(** [file.extractedData.sort((a, b) => a.page - b.page)] in [processTask]:
    the array of the file is sorted in place. *)
Definition sorted_in_place (f : ProcessedFile) : ProcessedFile :=
  {| file_id := file_id f; file := file f; status := status f;
     progress := progress f; ocrEngine := ocrEngine f; languages := languages f;
     error := error f;
     extractedData := Structuring.sort_pages <$> extractedData f;
     pageImages := pageImages f; analysis := analysis f;
     manuallyEditedPages := manuallyEditedPages f;
     totalPages := totalPages f; pagePreviews := pagePreviews f;
     selectedPages := selectedPages f;
     file_structuredDataPreview := file_structuredDataPreview f;
     selectionRectangles := selectionRectangles f;
     pageImageDimensions := pageImageDimensions f;
     extractionTasks := extractionTasks f |}.

(** A change in place of the object [files.find(f => f.id === fileId)]
    gives: the first entry of this id. *)
Fixpoint on_first (fileId : string) (g : ProcessedFile → ProcessedFile)
    (files : list ProcessedFile) : list ProcessedFile :=
  match files with
  | [] => []
  | f :: rest =>
      if bool_decide (file_id f = fileId) then g f :: rest
      else f :: on_first fileId g rest
  end.

(** What [suggestCleaningRules] returns. *)
Record Suggestions := {
  suggestedHeaders : string;
  suggestedEliminators : string;
  suggestedFindValues : string;
  suggestedReplaceValues : string;
  suggestion_analysis : string;
}.

(** The notices of the handlers that show one. *)
Inductive Notice :=
| DataKeysRequired
| GeneratingPreview
| PreviewReady
| PreviewFailed
| NoTextFound
| RunningAiAnalysis
| SuggestionsApplied (taskName : string)
| SuggestionFailed
| NoPagesSelected
| ReRunningOcr
| ReOcrFailed.

Section Handlers.
Context {prims : StringPrims}.

(** [handlePreviewData]; [fails] tells whether the call of the server
    action under [processTask] throws.  [processTask] is given the entry
    of [files] itself, and sorts its pages in place before it reads
    them. *)
Definition handlePreviewData (fails : bool) (fileId taskId : string)
    (files : list ProcessedFile) : list ProcessedFile * list Notice :=
  match List.find (λ f, bool_decide (file_id f = fileId)) files with
  | None => (files, [])
  | Some f =>
      match List.find (λ t, bool_decide (task_id t = taskId)) (extractionTasks f) with
      | None => (files, [])
      | Some task =>
          if negb (JS.truthy (trim (columnHeaders task)))
          then (files, [DataKeysRequired])
          else
            let structuredData := Structuring.processTask f task in
            let files := on_first fileId sorted_in_place files in
            if fails then (files, [GeneratingPreview; PreviewFailed])
            else
            (on_file fileId
               (λ f', with_tasks f'
                        (map (λ t, if bool_decide (task_id t = taskId)
                                   then with_preview t structuredData else t)
                             (extractionTasks f')))
               files,
             [GeneratingPreview; PreviewReady])
      end
  end.

(** [handleRunAiSuggestions] with the outcome of [suggestCleaningRules]. *)
Definition handleRunAiSuggestions (outcome : Thrown + Suggestions)
    (fileId rawText taskIdToUpdate : string) (files : list ProcessedFile)
    : list ProcessedFile * list Notice :=
  if negb (JS.truthy (trim rawText)) then (files, [NoTextFound])
  else
    match outcome with
    | inr aiSuggestions =>
        (on_file fileId
           (λ f,
              with_analysis
                (with_tasks f
                   (map (λ task,
                           if bool_decide (task_id task = taskIdToUpdate)
                           then {| task_id := task_id task; name := name task;
                                   columnHeaders := suggestedHeaders aiSuggestions;
                                   columnSeparators := columnSeparators task;
                                   eliminators := suggestedEliminators aiSuggestions;
                                   findValues := suggestedFindValues aiSuggestions;
                                   replaceValues := suggestedReplaceValues aiSuggestions;
                                   structuredDataPreview := None |}
                           else task)
                        (extractionTasks f)))
                (suggestion_analysis aiSuggestions))
           files,
         RunningAiAnalysis
         :: concat (map (λ f,
                           if bool_decide (file_id f = fileId)
                           then omap (λ task,
                                        if bool_decide (task_id task = taskIdToUpdate)
                                        then Some (SuggestionsApplied (name task))
                                        else None)
                                     (extractionTasks f)
                           else [])
                        files))
    | inl e =>
        (on_file fileId
           (λ f,
              with_analysis f
                match e with
                | ErrorObject message => "AI analysis failed: " +:+ message
                | NotAnError => "An unexpected error occurred during AI analysis."
                end)
           files,
         [RunningAiAnalysis; SuggestionFailed])
    end.

(** What [generateAndDownloadExcel(file)] does to the entry it is given:
    the pages of the entry are sorted in place when the loop over the
    tasks calls [processTask] for a task without preview and [processTask]
    gets to its [sort], that is, the file has pages and the task has data
    keys.  [sheet_name_ok] tells when [book_append_sheet] accepts a name,
    and the loop ends when it does not. *)
Fixpoint export_sorts (sheet_name_ok : list string → string → bool)
    (f : ProcessedFile) (tasks : list ExtractionTask) (wb : Excel.Workbook) : bool :=
  match tasks with
  | [] => false
  | task :: rest =>
      match structuredDataPreview task with
      | None => bool_decide (is_Some (extractedData f))
                && JS.truthy (trim (columnHeaders task))
      | Some _ => false
      end
      || match (Excel.export_task sheet_name_ok f task wb []).1 with
         | Some wb' => export_sorts sheet_name_ok f rest wb'
         | None => false
         end
  end.

Definition export_effect (sheet_name_ok : list string → string → bool)
    (f : ProcessedFile) : ProcessedFile :=
  match ocrEngine f with
  | Some textract | None => f
  | Some _ =>
      if export_sorts sheet_name_ok f (extractionTasks f) []
      then sorted_in_place f else f
  end.

(** [handleStartProcessing] with the languages and the engine of the
    component: the files after the run it starts, if it starts one. *)
Definition handleStartProcessing (settings : Settings) (env : Env)
    (languages : list string) (engine : OcrEngine) (fileId : string)
    (files : list ProcessedFile) : list ProcessedFile * list Notice :=
  match List.find (λ f, bool_decide (file_id f = fileId)) files with
  | None => (files, [])
  | Some fileToProcess =>
      if size (selectedPages fileToProcess) =? 0 then (files, [NoPagesSelected])
      else
        (Pipeline.files
           (processFile settings env fileToProcess languages engine
              {| Pipeline.files := files; log := [] |}).2,
         [])
  end.

(** [handleReOcr] *)
Definition handleReOcr (settings : Settings) (env : Env) (fileId : string)
    (files : list ProcessedFile) : list ProcessedFile * list Notice :=
  match List.find (λ f, bool_decide (file_id f = fileId)) files with
  | None => (files, [])
  | Some fileToReOcr =>
      match ocrEngine fileToReOcr, languages fileToReOcr with
      | Some engine, Some langs =>
          (Pipeline.files
             (processFile settings env fileToReOcr langs engine
                {| Pipeline.files := files; log := [] |}).2,
           [ReRunningOcr])
      | _, _ => (files, [ReOcrFailed])
      end
  end.

End Handlers.
End Handlers.

(** ** Uploads and page previews *)

Module Previews.
Import Pipeline Handlers.

(** The [File] objects of an upload, with the fields that are read. *)
Record File := {
  file_name : string;
  file_type : string;
  lastModified : nat;
  file_size : nat;
}.

(** What the uploader does with the files of a drop or of the input: it
    hands the PDF files to [onFilesAdded], shows the notice on the type of
    the files, or does nothing. *)
Inductive Handed :=
| HandedOn (acceptedFiles : list File)
| InvalidFileType
| NothingHanded.

(** [files.filter(file => file.type === 'application/pdf')] *)
Definition acceptedFiles (files : list File) : list File :=
  filter (λ file, file_type file = "application/pdf") files.

(** [handleDrop] of the uploader, on the files of the drop. *)
Definition handleDrop (dropped : list File) : Handed :=
  if 0 <? length dropped then
    if 0 <? length (acceptedFiles dropped) then HandedOn (acceptedFiles dropped)
    else InvalidFileType
  else NothingHanded.

(** [handleChange] of the uploader, on the files of the input. *)
Definition handleChange (chosen : list File) : Handed :=
  if 0 <? length chosen then
    if 0 <? length (acceptedFiles chosen) then HandedOn (acceptedFiles chosen)
    else NothingHanded
  else NothingHanded.

(** [`${file.name}-${file.lastModified}-${file.size}`] *)
Definition file_key (file : File) : string :=
  file_name file +:+ "-" +:+ NilZero.string_of_uint (Nat.to_uint (lastModified file))
  +:+ "-" +:+ NilZero.string_of_uint (Nat.to_uint (file_size file)).

(** What [onFilesAdded] does: a notice and nothing else, or the new
    [files] and the entries for which previews are generated. *)
Inductive Upload :=
| NoLanguageSelected
| ApiKeyRequired
| Accepted (files : list ProcessedFile) (uniqueNewFiles : list ProcessedFile).

Section Previews.
Context {prims : StringPrims}.

(** [onFilesAdded] with the engine, the languages and the key of the
    component; [files] is both the list the handler sees and the list the
    update applies to. *)
Definition onFilesAdded (engine : OcrEngine) (languages : list string)
    (ocrSpaceApiKey : string) (addedFiles : list File)
    (files : list ProcessedFile) : Upload :=
  if (bool_decide (engine = tesseract) || bool_decide (engine = ocrspace))
     && (length languages =? 0)
  then NoLanguageSelected
  else if bool_decide (engine = ocrspace) && negb (JS.truthy (trim ocrSpaceApiKey))
  then ApiKeyRequired
  else
    let newFiles := map (λ file, newFile (file_key file) (file_name file)) addedFiles in
    let uniqueNewFiles :=
      filter (λ new, existsb (λ existing, bool_decide (file_id existing = file_id new))
                            files = false)
             newFiles in
    Accepted (files ++ uniqueNewFiles) uniqueNewFiles.

End Previews.

(** [clearAll] *)
Definition clearAll (files : list ProcessedFile) : list ProcessedFile := [].

(** The collaborators of [generatePagePreviews]: reading the file, opening
    the document, which gives the number of pages, and for a page the
    dimensions of its viewport at scale 2 and its preview image, [None]
    when the canvas has no 2d context. *)
Record PreviewEnv := {
  preview_readFile : Thrown + string;
  preview_getDocument : string → Thrown + nat;
  preview_page : nat → Thrown + (Dimensions * option string);
}.

(** [Math.round((i / numPages) * 100)], with the exact quotient and
    product. *)
Definition preview_progress (i numPages : nat) : Z :=
  js_round ((inject_Z (Z.of_nat i) / inject_Z (Z.of_nat numPages)) * 100).

(** The loop [for (let i = 1; i <= numPages; i++)] from page [i] on, with
    [remaining] pages to go. *)
Fixpoint previews_loop (penv : PreviewEnv) (fileId : string) (numPages : nat)
    (remaining i : nat) (previews : list (nat * string))
    (dimensions : list (option Dimensions))
    : M (list (nat * string) * list (option Dimensions)) :=
  match remaining with
  | O => ret (previews, dimensions)
  | S remaining' =>
      await rendered := call (preview_page penv i) in
      let dimensions := dimensions ++ [Some rendered.1] in
      let previews :=
        match rendered.2 with
        | Some imageUri => previews ++ [(i, imageUri)]
        | None => previews
        end in
      exec setFiles (on_file fileId (λ f, with_progress f (preview_progress i numPages))) in
      previews_loop penv fileId numPages remaining' (S i) previews dimensions
  end.

(** The entry the last [setFiles] of [generatePagePreviews] writes. *)
Definition previewed_entry (f : ProcessedFile) (numPages : nat)
    (previews : list (nat * string)) (dimensions : list (option Dimensions))
    : ProcessedFile :=
  {| file_id := file_id f; file := file f; status := awaiting_selection;
     progress := 0; ocrEngine := ocrEngine f; languages := languages f;
     error := error f; extractedData := extractedData f;
     pageImages := pageImages f; analysis := analysis f;
     manuallyEditedPages := manuallyEditedPages f;
     totalPages := Some numPages; pagePreviews := Some previews;
     selectedPages := selectedPages f;
     file_structuredDataPreview := file_structuredDataPreview f;
     selectionRectangles := selectionRectangles f;
     pageImageDimensions := Some dimensions;
     extractionTasks := extractionTasks f |}.

(** The entry its [catch] block writes:
    [{ ...f, status: 'error', progress: 0, error: errorMessage }]. *)
Definition preview_error_entry (f : ProcessedFile) (message : string) : ProcessedFile :=
  {| file_id := file_id f; file := file f; status := error_status;
     progress := 0; ocrEngine := ocrEngine f; languages := languages f;
     error := Some message; extractedData := extractedData f;
     pageImages := pageImages f; analysis := analysis f;
     manuallyEditedPages := manuallyEditedPages f;
     totalPages := totalPages f; pagePreviews := pagePreviews f;
     selectedPages := selectedPages f;
     file_structuredDataPreview := file_structuredDataPreview f;
     selectionRectangles := selectionRectangles f;
     pageImageDimensions := pageImageDimensions f;
     extractionTasks := extractionTasks f |}.

(** [generatePagePreviews(fileToPreview)]; only the id of the file is
    read. *)
Definition generatePagePreviews (penv : PreviewEnv) (fileId : string) : M unit :=
  try_catch
    (await dataUri := call (preview_readFile penv) in
     await numPages := call (preview_getDocument penv dataUri) in
     await result := previews_loop penv fileId numPages numPages 1 [] [] in
     setFiles (on_file fileId (λ f, previewed_entry f numPages result.1 result.2)))
    (λ e,
       exec emit ConsoleError in
       exec setFiles
              (on_file fileId
                 (λ f, preview_error_entry f
                         match e with
                         | ErrorObject message => message
                         | NotAnError => "Could not read PDF for preview."
                         end)) in
       emit (Toast "Preview Failed")).

(** The [resetFile] of [handleReprocess]. *)
Definition resetFile (fileToReprocess : ProcessedFile) : ProcessedFile :=
  {| file_id := file_id fileToReprocess; file := file fileToReprocess;
     status := pending; progress := 0; ocrEngine := None; languages := None;
     error := None; extractedData := None; pageImages := Some [];
     analysis := None; manuallyEditedPages := Some ∅;
     totalPages := None; pagePreviews := None; selectedPages := ∅;
     file_structuredDataPreview := None;
     selectionRectangles := None; pageImageDimensions := Some [];
     extractionTasks := map clear_preview (extractionTasks fileToReprocess) |}.

(** [handleReprocess].  [generatePagePreviews] catches what is thrown in
    it, so the [catch] block of [handleReprocess] is not entered. *)
Definition handleReprocess (penv : PreviewEnv) (fileId : string) : M unit :=
  λ st,
    match List.find (λ f, bool_decide (file_id f = fileId)) (files st) with
    | None => ret () st
    | Some fileToReprocess =>
        (exec setFiles (map (λ f, if bool_decide (file_id f = fileId)
                                  then resetFile fileToReprocess else f)) in
         generatePagePreviews penv (file_id fileToReprocess)) st
    end.

(** [uniqueNewFiles.forEach(generatePagePreviews)], the previews of one
    file after those of the other; [penv] gives the collaborators for the
    file of an id. *)
Fixpoint previews_of_all (penv : string → PreviewEnv)
    (uniqueNewFiles : list ProcessedFile) : M unit :=
  match uniqueNewFiles with
  | [] => ret ()
  | f :: rest =>
      exec generatePagePreviews (penv (file_id f)) (file_id f) in
      previews_of_all penv rest
  end.

End Previews.

(** ** Sessions: the handlers one after the other *)

Module Session.
Import Pipeline Handlers Previews.

(** What the user does, with what the collaborators answer.  [Download]
    is the export of the entry at an index of the list. *)
Inductive Action :=
| FilesAdded (engine : OcrEngine) (languages : list string)
    (ocrSpaceApiKey : string) (addedFiles : list File)
    (penv : string → PreviewEnv)
| ClearAll
| PageSelectionChange (fileId : string) (page : nat) (isSelected : bool)
| SelectAllPages (fileId : string) (select : bool)
| StartProcessing (settings : Settings) (env : Env) (languages : list string)
    (engine : OcrEngine) (fileId : string)
| ReOcr (settings : Settings) (env : Env) (fileId : string)
| Reprocess (penv : PreviewEnv) (fileId : string)
| TextChange (fileId : string) (page : nat) (newText : string)
| SetSelectionRectangles (fileId : string) (rects : option (list Rect))
| AddTask (now fileId : string)
| RemoveTask (fileId taskId : string)
| UpdateTask (fileId taskId : string) (delta : TaskDelta)
| PreviewData (fails : bool) (fileId taskId : string)
| Download (sheet_name_ok : list string → string → bool) (index : nat)
| RunAiSuggestions (outcome : Thrown + Suggestions)
    (fileId rawText taskIdToUpdate : string).

(** The files after a computation that starts from [files]. *)
Definition files_after (m : M unit) (files : list ProcessedFile)
    : list ProcessedFile :=
  Pipeline.files (m {| Pipeline.files := files; log := [] |}).2.

Section Session.
Context {prims : StringPrims}.

(** The files after an action. *)
Definition act (a : Action) (files : list ProcessedFile) : list ProcessedFile :=
  match a with
  | FilesAdded engine languages ocrSpaceApiKey addedFiles penv =>
      match onFilesAdded engine languages ocrSpaceApiKey addedFiles files with
      | Accepted files' uniqueNewFiles =>
          files_after (previews_of_all penv uniqueNewFiles) files'
      | _ => files
      end
  | ClearAll => clearAll files
  | PageSelectionChange fileId page isSelected =>
      handlePageSelectionChange fileId page isSelected files
  | SelectAllPages fileId select => handleSelectAllPages fileId select files
  | StartProcessing settings env languages engine fileId =>
      (handleStartProcessing settings env languages engine fileId files).1
  | ReOcr settings env fileId => (handleReOcr settings env fileId files).1
  | Reprocess penv fileId => files_after (handleReprocess penv fileId) files
  | TextChange fileId page newText => handleTextChange fileId page newText files
  | SetSelectionRectangles fileId rects =>
      handleSetSelectionRectangles fileId rects files
  | AddTask now fileId => handleAddTask now fileId files
  | RemoveTask fileId taskId => handleRemoveTask fileId taskId files
  | UpdateTask fileId taskId delta => handleUpdateTask fileId taskId delta files
  | PreviewData fails fileId taskId =>
      (handlePreviewData fails fileId taskId files).1
  | Download sheet_name_ok index =>
      match files !! index with
      | Some f => <[index := export_effect sheet_name_ok f]> files
      | None => files
      end
  | RunAiSuggestions outcome fileId rawText taskIdToUpdate =>
      (handleRunAiSuggestions outcome fileId rawText taskIdToUpdate files).1
  end.

(** What the component and its surroundings see to: the files of one
    upload differ in name, date or size, the clock has moved on since the
    last task of the file was added, and a task is not given another
    id. *)
Definition allowed (a : Action) (files : list ProcessedFile) : Prop :=
  match a with
  | FilesAdded _ _ _ addedFiles _ => NoDup (map file_key addedFiles)
  | AddTask now fileId =>
      Forall (λ f, file_id f = fileId →
                   ("task-" +:+ now) ∉ map task_id (extractionTasks f)) files
  | UpdateTask _ _ delta => delta_id delta = None
  | _ => True
  end.

(** A session from [files] on, and that each of its actions is allowed
    when it is its turn. *)
Fixpoint session (actions : list Action) (files : list ProcessedFile)
    : list ProcessedFile :=
  match actions with
  | [] => files
  | a :: rest => session rest (act a files)
  end.

Fixpoint all_allowed (actions : list Action) (files : list ProcessedFile) : Prop :=
  match actions with
  | [] => True
  | a :: rest => allowed a files ∧ all_allowed rest (act a files)
  end.

(** The ids of the tasks of a file differ, and a preview that is kept in
    a task is what [processTask] gives for the file and the task as they
    are. *)
Definition good_file (f : ProcessedFile) : Prop :=
  NoDup (map task_id (extractionTasks f))
  ∧ Forall (λ task, ∀ rows, structuredDataPreview task = Some rows →
                            rows = Structuring.processTask f task)
           (extractionTasks f).

Definition valid (files : list ProcessedFile) : Prop :=
  NoDup (map file_id files) ∧ Forall good_file files.

#[global] Instance allowed_dec (a : Action) (files : list ProcessedFile) :
  Decision (allowed a files).
Proof. destruct a; simpl; apply _. Defined.

#[global] Instance all_allowed_dec (actions : list Action)
    (files : list ProcessedFile) : Decision (all_allowed actions files).
Proof.
  revert files. induction actions as [|a rest IH]; intros files; simpl; apply _.
Defined.

(** The file without the previews kept in its tasks. *)
Definition without_previews (f : ProcessedFile) : ProcessedFile :=
  with_tasks f (map clear_preview (extractionTasks f)).

End Session.

(** A session: a document of one page is uploaded, its page is selected
    and recognized, the task the run made is given two data keys and the
    space as separator, its preview is computed, a task is added, and the
    workbook is downloaded. *)
Definition sample_upload : File :=
  {| file_name := "roll.pdf"; file_type := "application/pdf";
     lastModified := 0; file_size := 1 |}.

Definition sample_previews : PreviewEnv :=
  {| preview_readFile := inr "data:application/pdf;base64,AAAA";
     preview_getDocument := λ _, inr 1;
     preview_page := λ _,
       inr ({| dim_width := 1000; dim_height := 1200 |},
            Some "data:image/jpeg;base64,AAAA") |}.

Definition sample_delta : TaskDelta :=
  {| delta_id := None; delta_name := None;
     delta_columnHeaders := Some "Name,Age"; delta_columnSeparators := Some " ";
     delta_eliminators := None; delta_findValues := None;
     delta_replaceValues := None |}.

Definition sample_session : list Action :=
  [ FilesAdded tesseract ["eng"] "" [sample_upload] (λ _, sample_previews);
    SelectAllPages "roll.pdf-0-1" true;
    StartProcessing fresh_settings working_env ["eng"] tesseract "roll.pdf-0-1";
    UpdateTask "roll.pdf-0-1" "task-0" sample_delta;
    PreviewData false "roll.pdf-0-1" "task-0";
    AddTask "1" "roll.pdf-0-1";
    Download Excel.any_name 0 ].

(** The files at the end of this session, and the first of them. *)
Definition sample_files : list ProcessedFile :=
  session (prims := ascii_prims) sample_session [].

Definition sample_result : ProcessedFile :=
  default (newFile "" "") (head sample_files).

(** An array of a run has an entry for the page, or the page is page 0,
    which has no index. *)
Definition has_page {A} (p : nat) (arr : list (option A)) : Prop :=
  match p with
  | O => True
  | S i => ∃ a, arr !! i = Some (Some a)
  end.

(** A computation that keeps a property of [files]. *)
Definition keeps (P : list ProcessedFile → Prop) {A} (m : M A) : Prop :=
  ∀ st r st', P (files st) → m st = (r, st') → P (files st').

End Session.

(** ** The suggestion backend: [suggestCleaningRules] *)

Module Suggest.
Import Pipeline Handlers.



Section Suggest.
Context {prims : StringPrims}.



End Suggest.
End Suggest.

(** ** The OCR backends: the flows of OCR.space, Textract and Vision *)

Module Backend.

(** An [Error] object: its name, its message and the [code] of its
    [cause], and what a [catch] block may receive. *)
Record JsError := {
  error_name : string;
  error_message : string;
  cause_code : option string;
}.

(** What is thrown: an [Error]; [null] or [undefined]; or another value
    that is not an [Error], with the text of its [message] property when
    it has one. *)
Inductive Caught :=
| AnError (e : JsError)
| Nullish (is_null : bool)
| OtherValue (message : option string).

(** [new Error(message)] *)
Definition new_Error (message : string) : JsError :=
  {| error_name := "Error"; error_message := message; cause_code := None |}.

(** The [TypeError] of reading [message] from [null] or [undefined]. *)
Definition reading_message (is_null : bool) : JsError :=
  {| error_name := "TypeError";
     error_message := "Cannot read properties of "
                      +:+ (if is_null then "null" else "undefined")
                      +:+ " (reading 'message')";
     cause_code := None |}.

(** [`${prefix}${(error as Error).message}${suffix}`] in a [throw new
    Error(..)]: the error that is thrown.  Reading the message of [null]
    or [undefined] throws instead, and a value without a message prints
    [undefined]. *)
Definition error_with_message (pre : string) (error : Caught) (post : string)
    : JsError :=
  match error with
  | AnError e => new_Error (pre +:+ error_message e +:+ post)
  | Nullish is_null => reading_message is_null
  | OtherValue message => new_Error (pre +:+ default "undefined" message +:+ post)
  end.

(** What a flow does that shows outside it. *)
Inductive FlowEvent :=
| SetTimeout
| ClearTimeout
| Fetch (base64Image apikey language : string)
| Send (base64Data : string)
| ConsoleError
| ConsoleWarn.

(** A computation of a flow: its events, and its value unless it
    throws. *)
Definition Flow (A : Type) : Type := (Caught + A) * list FlowEvent.

Definition pure {A} (a : A) : Flow A := (inr a, []).

Definition throw {A} (e : JsError) : Flow A := (inl (AnError e), []).

Definition event (ev : FlowEvent) : Flow unit := (inr (), [ev]).

(** The call of a collaborator, with the event that shows it. *)
Definition request {A} (ev : FlowEvent) (answer : Caught + A) : Flow A :=
  (answer, [ev]).

Definition then_ {A B} (m : Flow A) (k : A → Flow B) : Flow B :=
  match m with
  | (inr a, evs) => let (r, evs') := k a in (r, evs ++ evs')
  | (inl e, evs) => (inl e, evs)
  end.

(** [try { body } catch (error) { handler(error) }] *)
Definition catch {A} (body : Flow A) (handler : Caught → Flow A) : Flow A :=
  match body with
  | (inr a, evs) => (inr a, evs)
  | (inl e, evs) => let (r, evs') := handler e in (r, evs ++ evs')
  end.

(** [try { body } finally { final }], for a [final] that does not
    return. *)
Definition finally {A} (body : Flow A) (final : Flow unit) : Flow A :=
  let (r, evs) := body in
  match final with
  | (inr _, evs') => (r, evs ++ evs')
  | (inl e, evs') => (inl e, evs ++ evs')
  end.

Notation "'val' x ':=' m 'in' k" := (then_ m (λ x, k))
  (at level 10, x name, m at level 100, k at level 200).
Notation "'run' m 'in' k" := (then_ m (λ _, k))
  (at level 10, m at level 100, k at level 200).

(** The character [','] . *)
Definition comma : Ascii.ascii := Ascii.ascii_of_nat 44.

(** [imageDataUri.split(',')[1]], [None] when it is falsy. *)
Definition base64Data (imageDataUri : string) : option string :=
  match JS.split "," imageDataUri !! 1 with
  | Some data => if JS.truthy data then Some data else None
  | None => None
  end.

(** *** [ocrSpaceFlow] *)

(** The JSON of the response, with the fields that are read;
    [ErrorMessage] is [None] when it is not an array, [ParsedText] when
    [ParsedResults?.[0]?.ParsedText] is undefined. *)
Record OcrSpaceResult := {
  IsErroredOnProcessing : bool;
  ErrorMessage : option (list string);
  ParsedText : option string;
}.

(** The response of [fetch]; [response_text] and [response_json] are what
    [text()] and [json()] give. *)
Record Response := {
  response_ok : bool;
  response_status : nat;
  response_text : Caught + string;
  response_json : Caught + OcrSpaceResult;
}.

Section OcrSpace.
Context {prims : StringPrims}.

(** [fetch] with the fields of the form that are not constant, and the
    [TypeError] of the call of [join] on what is not an array. *)
Context (fetch : string → string → string → Caught + Response).
Context (join_of_non_array : JsError).

(** The [try] block. *)
Definition ocrSpace_try (imageDataUri apiKey language : string) : Flow string :=
  val response := request (Fetch imageDataUri apiKey language)
                          (fetch imageDataUri apiKey language) in
  if negb (response_ok response) then
    val errorBody := (response_text response, []) in
    run event ConsoleError in
    throw (new_Error ("OCR.space API request failed with status "
                      +:+ NilZero.string_of_uint (Nat.to_uint (response_status response))
                      +:+ ": " +:+ errorBody))
  else
    val result := (response_json response, []) in
    if IsErroredOnProcessing result then
      match ErrorMessage result with
      | Some messages =>
          throw (new_Error ("OCR.space processing error: " +:+ JS.join ", " messages))
      | None => throw join_of_non_array
      end
    else
      pure (match ParsedText result with
            | Some text => if JS.truthy text then text else ""
            | None => ""
            end).

(** The [catch] block. *)
Definition ocrSpace_catch (error : Caught) : Flow string :=
  run event ConsoleError in
  match error with
  | AnError e =>
      if bool_decide (error_name e = "AbortError") then
        throw (new_Error ("The request to OCR.space timed out after 60 seconds. "
                          +:+ "This is likely due to a large image or slow network. "
                          +:+ "Please try again."))
      else if bool_decide (cause_code e = Some "UND_ERR_CONNECT_TIMEOUT") then
        throw (new_Error ("Connection to the OCR.space API timed out. "
                          +:+ "Please check your network connection and try again."))
      else
        throw (new_Error ("An error occurred while processing with OCR.space: "
                          +:+ error_message e))
  | Nullish _ | OtherValue _ =>
      throw (new_Error "An unknown error occurred while processing with OCR.space.")
  end.

(** [ocrSpaceFlow], the function given to [defineFlow]; [language] is
    what the function destructures from its input, [None] when the input
    has no language.  [formData.append('language', language)] appends
    what it is given: the default of the input schema is not applied here,
    and a language that is not given goes out as the text [undefined]. *)
Definition ocrSpaceFlow (imageDataUri apiKey : string) (language : option string)
    : Flow string :=
  if negb (JS.truthy apiKey) || bool_decide (trim apiKey = "") then
    throw (new_Error "OCR.space API key is missing. Please provide a valid API key.")
  else
    run event SetTimeout in
    finally
      (catch (ocrSpace_try imageDataUri apiKey (default "undefined" language))
             ocrSpace_catch)
      (event ClearTimeout).

End OcrSpace.

(** *** [textractTableFlow] and [googleVisionOcrFlow] *)

(** The variables of the environment that are read. *)
Record ProcessEnv := {
  AWS_ACCESS_KEY_ID : option string;
  AWS_SECRET_ACCESS_KEY : option string;
  AWS_DEFAULT_REGION : option string;
  GOOGLE_APPLICATION_CREDENTIALS : option string;
  GCP_PROJECT : option string;
}.

(** A variable that is set and not empty. *)
Definition set (v : option string) : bool :=
  match v with
  | Some s => JS.truthy s
  | None => false
  end.

(** [getTextractClient()]: [client] tells whether the client was made
    before, [construct] what [new TextractClient(..)] does; the value is
    whether the client is made afterwards. *)
Definition getTextractClient (client : bool) (env : ProcessEnv)
    (construct : Caught + unit) : Flow bool :=
  if client then pure true
  else if negb (set (AWS_ACCESS_KEY_ID env)) || negb (set (AWS_SECRET_ACCESS_KEY env))
          || negb (set (AWS_DEFAULT_REGION env))
  then throw (new_Error ("AWS credentials are not configured. Please set "
                         +:+ "AWS_ACCESS_KEY_ID, AWS_SECRET_ACCESS_KEY, and "
                         +:+ "AWS_DEFAULT_REGION in your environment variables."))
  else
    catch (run (construct, []) in pure true)
          (λ error,
             run event ConsoleError in
             throw (error_with_message "Could not initialize AWS Textract client: "
                      error "")).

Section TextractFlow.
Context {prims : StringPrims}.

(** [textractTableFlow]; [send] is the call of Textract with the image,
    and gives the [Blocks] of the response. *)
Definition textractTableFlow (client : bool) (env : ProcessEnv)
    (construct : Caught + unit) (send : string → Caught + option (list Textract.Block))
    (imageDataUri : string) : Flow (list Row) :=
  run getTextractClient client env construct in
  catch
    (match base64Data imageDataUri with
     | None => throw (new_Error "Invalid image data URI.")
     | Some data =>
         val blocks := request (Send data) (send data) in
         pure (Textract.structure_blocks blocks)
     end)
    (λ error,
       run event ConsoleError in
       match error with
       | AnError e =>
           if bool_decide (error_name e = "AccessDeniedException")
              || bool_decide (error_name e = "InvalidSignatureException")
           then throw (new_Error ("Amazon Textract authentication failed. "
                                  +:+ "Please verify your AWS credentials."))
           else throw (new_Error ("An error occurred while processing with Amazon Textract: "
                                  +:+ error_message e))
       | Nullish _ | OtherValue _ =>
           throw (error_with_message
                    "An error occurred while processing with Amazon Textract: " error "")
       end).

End TextractFlow.

(** [getVisionClient()] *)
Definition getVisionClient (client : bool) (env : ProcessEnv)
    (construct : Caught + unit) : Flow bool :=
  if client then pure true
  else
    run (if negb (set (GOOGLE_APPLICATION_CREDENTIALS env)) && negb (set (GCP_PROJECT env))
         then event ConsoleWarn else pure ()) in
    catch (run (construct, []) in pure true)
          (λ error,
             run event ConsoleError in
             throw (error_with_message "Could not initialize Google Cloud Vision client: "
                      error ". Ensure you have authenticated correctly.")).

(** [googleVisionOcrFlow]; [detect] is [documentTextDetection], and gives
    the text of [fullTextAnnotation], [None] without annotation or
    text. *)
Definition googleVisionOcrFlow (client : bool) (env : ProcessEnv)
    (construct : Caught + unit) (detect : string → Caught + option string)
    (imageDataUri : string) : Flow string :=
  run getVisionClient client env construct in
  catch
    (match base64Data imageDataUri with
     | None => throw (new_Error "Invalid image data URI.")
     | Some data =>
         val text := request (Send data) (detect data) in
         pure (match text with
               | Some text => if JS.truthy text then text else ""
               | None => ""
               end)
     end)
    (λ error,
       run event ConsoleError in
       match error with
       | AnError e =>
           if JS.includes (error_message e) "Could not load the default credentials"
              || JS.includes (error_message e) "permission_denied"
           then throw (new_Error ("Google Cloud Vision authentication failed. Please "
                                  +:+ "configure your application's default credentials."))
           else throw (new_Error ("An error occurred while processing with "
                                  +:+ "Google Cloud Vision: " +:+ error_message e))
       | Nullish _ | OtherValue _ =>
           throw (error_with_message
                    "An error occurred while processing with Google Cloud Vision: "
                    error "")
       end).

(** The message of what a flow throws. *)
Definition thrown_message {A} (m : Flow A) : option string :=
  match m.1 with
  | inl (AnError e) => Some (error_message e)
  | _ => None
  end.

(** What the caller of a server action receives: the value, or what the
    framework makes of the error; [relay] is the framework. *)
Definition received {A} (relay : Caught → Pipeline.Thrown) (m : Flow A)
    : Pipeline.Thrown + A :=
  match m.1 with
  | inr a => inr a
  | inl e => inl (relay e)
  end.

(** The image of a canvas as [toDataURL] gives it. *)
Definition png_data_uri (payload : string) : string :=
  "data:image/png;base64," +:+ payload.

(** An environment without variables, a framework that hands the message
    of an error on, a network that is down, and the collaborators of a run
    with the OCR.space flow behind this framework and this network. *)
Definition no_variables : ProcessEnv :=
  {| AWS_ACCESS_KEY_ID := None; AWS_SECRET_ACCESS_KEY := None;
     AWS_DEFAULT_REGION := None; GOOGLE_APPLICATION_CREDENTIALS := None;
     GCP_PROJECT := None |}.

Definition message_relay (thrown : Caught) : Pipeline.Thrown :=
  match thrown with
  | AnError e => Pipeline.ErrorObject (error_message e)
  | Nullish _ | OtherValue _ => Pipeline.NotAnError
  end.

Definition network_down : string → string → string → Caught + Response :=
  λ _ _ _, inl (AnError {| error_name := "TypeError"; error_message := "fetch failed";
                           cause_code := None |}).

Definition flow_env : Pipeline.Env :=
  {| Pipeline.readFile := Pipeline.readFile Pipeline.working_env;
     Pipeline.getDocument := Pipeline.getDocument Pipeline.working_env;
     Pipeline.createWorker := Pipeline.createWorker Pipeline.working_env;
     Pipeline.setParameters := Pipeline.setParameters Pipeline.working_env;
     Pipeline.render := Pipeline.render Pipeline.working_env;
     Pipeline.preprocess := Pipeline.preprocess Pipeline.working_env;
     Pipeline.extractTableWithTextract :=
       Pipeline.extractTableWithTextract Pipeline.working_env;
     Pipeline.ocrWithGoogleVision := Pipeline.ocrWithGoogleVision Pipeline.working_env;
     Pipeline.ocrWithOcrSpace := λ image key language,
       received message_relay
         (ocrSpaceFlow (prims := ascii_prims) network_down (new_Error "")
            image key (Some language));
     Pipeline.recognize := Pipeline.recognize Pipeline.working_env;
     Pipeline.terminate := Pipeline.terminate Pipeline.working_env;
     Pipeline.now := Pipeline.now Pipeline.working_env |}.

End Backend.

(** * Properties *)

(** ** Strings *)

Module JSFacts.
Import JS.

Lemma append_nil (b : string) : "" +:+ b = b.
Proof. reflexivity. Qed.

Lemma append_cons (c : Ascii.ascii) (a b : string) :
  String c a +:+ b = String c (a +:+ b).
Proof. reflexivity. Qed.

Lemma append_assoc (a b c : string) : (a +:+ b) +:+ c = a +:+ b +:+ c.
Proof.
  induction a as [|x a IH]; [done |]. by rewrite !append_cons, IH.
Qed.

Lemma append_empty_r (a : string) : a +:+ "" = a.
Proof.
  induction a as [|x a IH]; [done |]. by rewrite append_cons, IH.
Qed.

Lemma startsWith_spec (p s : string) :
  startsWith p s = true ↔ ∃ post, s = p +:+ post.
Proof.
  revert s; induction p as [|a p IH]; intros s; simpl.
  - split; [intros _; by exists s | done].
  - destruct s as [|b s].
    + split; [done | intros [post Hpost]; discriminate].
    + rewrite andb_true_iff, IH. split.
      * intros [Hab [post ->]]. apply Ascii.eqb_eq in Hab as ->. by exists post.
      * intros [post Hpost]. rewrite append_cons in Hpost.
        injection Hpost as -> ->.
        split; [apply Ascii.eqb_refl | by exists post].
Qed.

Lemma includes_spec (s e : string) :
  includes s e = true ↔ substring_of e s.
Proof.
  unfold substring_of. induction s as [|c s IH].
  - simpl. rewrite orb_false_r, startsWith_spec. split.
    + intros [post ->]. by exists "", post.
    + intros [pre [post Heq]]. destruct pre; [by exists post | discriminate].
  - cbn [includes]. rewrite orb_true_iff, IH, startsWith_spec. split.
    + intros [[post ->] | [pre [post ->]]].
      * by exists "", post.
      * by exists (String c pre), post.
    + intros [pre [post Heq]]. destruct pre as [|c' pre].
      * left. by exists post.
      * right. rewrite append_cons in Heq. injection Heq as -> ->.
        by exists pre, post.
Qed.

Lemma eqb_neq (a c : Ascii.ascii) : a ≠ c → Ascii.eqb c a = false.
Proof. intros H. apply Ascii.eqb_neq. congruence. Qed.

(** Splitting at a character: the chunks do not contain it. *)
Lemma split_char_free (c : Ascii.ascii) (s : string) :
  split_go (String c "") 0 s ≠ [] ∧
  Forall (free_of c) (split_go (String c "") 0 s).
Proof.
  induction s as [|a s [IHne IH]]; simpl.
  - split; [done | by repeat constructor].
  - destruct (Ascii.eqb c a) eqn:Hca; simpl.
    + split; [done |]. constructor; [done | exact IH].
    + destruct (split_go (String c "") 0 s) as [|chunk chunks]; [done |].
      split; [done |]. inversion IH; subst. constructor; [| done].
      simpl. split; [| done]. apply Ascii.eqb_neq in Hca. congruence.
Qed.

Lemma split_char_line (c : Ascii.ascii) (l : string) :
  free_of c l → split_go (String c "") 0 l = [l].
Proof.
  induction l as [|a l IH]; simpl; [done |].
  intros [Hac Hl]. rewrite (eqb_neq _ _ Hac). simpl. by rewrite (IH Hl).
Qed.

Lemma split_char_cons (c : Ascii.ascii) (l rest : string) :
  free_of c l →
  split_go (String c "") 0 (l +:+ String c rest)
  = l :: split_go (String c "") 0 rest.
Proof.
  induction l as [|a l IH].
  - intros _. rewrite append_nil. simpl. by rewrite Ascii.eqb_refl.
  - intros [Hac Hl]. rewrite append_cons. simpl.
    rewrite (eqb_neq _ _ Hac). simpl. by rewrite (IH Hl).
Qed.

(** Joining lines with a character and splitting at it gives the lines
    back, when there is at least one line. *)
Lemma split_join_char (c : Ascii.ascii) (ls : list string) :
  ls ≠ [] → Forall (free_of c) ls →
  split (String c "") (join (String c "") ls) = ls.
Proof.
  unfold split. induction ls as [|l ls IH]; [done |].
  intros _ Hfree. inversion Hfree as [|? ? Hl Hls]; subst.
  destruct ls as [|l' ls].
  - simpl. by apply split_char_line.
  - change (join (String c "") (l :: l' :: ls))
      with (l +:+ String c "" +:+ join (String c "") (l' :: ls)).
    change (String c "" +:+ join (String c "") (l' :: ls))
      with (String c (join (String c "") (l' :: ls))).
    rewrite split_char_cons by done. f_equal. by apply IH.
Qed.

Lemma join_nil (sep : string) : join sep [] = "".
Proof. done. Qed.

Lemma set_property_ne (key value : string) (obj : gmap string string) (k : string) :
  key ≠ k → set_property key value obj !! k = obj !! k.
Proof.
  intros Hne. unfold set_property. case_bool_decide; [done |].
  by rewrite lookup_insert_ne.
Qed.

Lemma set_property_eq (key value : string) (obj : gmap string string) :
  key ≠ "__proto__" → set_property key value obj !! key = Some value.
Proof.
  intros Hne. unfold set_property. case_bool_decide; [done |].
  by rewrite lookup_insert_eq.
Qed.

Lemma set_property_proto (value : string) (obj : gmap string string) (k : string) :
  set_property "__proto__" value obj !! k = obj !! k.
Proof. done. Qed.

Lemma set_property_keeps_proto (key value : string) (obj : gmap string string) :
  set_property key value obj !! "__proto__" = obj !! "__proto__".
Proof.
  unfold set_property. case_bool_decide; [done |]. by rewrite lookup_insert_ne.
Qed.

End JSFacts.

(** ** The parser *)

Module CleanOcrFacts.
Import CleanOcr.

Section CleanOcrFacts.
Context {prims : StringPrims}.


(** No header makes [__proto__] a key. *)
Lemma fill_row_proto (values : list string) (headers : list string)
    (index : nat) (obj : Row) :
  fill_row values index headers obj !! "__proto__" = obj !! "__proto__".
Proof.
  revert index obj. induction headers as [|h headers IH]; intros index obj.
  - done.
  - simpl. rewrite IH. apply JSFacts.set_property_keeps_proto.
Qed.


Lemma fill_row_dom (values : list string) (headers : list string)
    (index : nat) (obj : Row) (k : string) :
  is_Some (fill_row values index headers obj !! k)
  ↔ (k ∈ headers ∧ k ≠ "__proto__") ∨ is_Some (obj !! k).
Proof.
  revert index obj. induction headers as [|h headers IH]; intros index obj.
  - simpl. rewrite elem_of_nil. tauto.
  - simpl. rewrite IH, elem_of_cons.
    destruct (decide (h = k)) as [-> | Hne].
    + destruct (decide (k = "__proto__")) as [-> | Hk].
      * rewrite JSFacts.set_property_proto. split.
        -- intros [[? ?] | ?]; [done | auto].
        -- intros [[? ?] | ?]; [done | auto].
      * rewrite JSFacts.set_property_eq by done.
        split; [auto | intros _; right; by eexists].
    + rewrite JSFacts.set_property_ne by done. split.
      * intros [[? ?] | ?]; auto.
      * intros [[[-> | ?] ?] | ?]; [done | auto | auto].
Qed.

Lemma has_content_spec (obj : Row) :
  has_content obj = true ↔ ∃ h v, obj !! h = Some v ∧ v ≠ "".
Proof.
  unfold has_content. rewrite existsb_exists. split.
  - intros [v [Hin Hlen]]. apply list_elem_of_In, list_elem_of_fmap in Hin.
    destruct Hin as [[h v'] [-> Hin]]. apply elem_of_map_to_list in Hin.
    exists h, v'. split; [done |]. intros ->. simpl in Hlen. discriminate.
  - intros [h [v [Hlook Hne]]]. exists v. split.
    + apply list_elem_of_In, list_elem_of_fmap. exists (h, v).
      split; [done |]. by apply elem_of_map_to_list.
    + destruct v; [done | reflexivity].
Qed.


End CleanOcrFacts.



End CleanOcrFacts.

(** ** The structuring engine *)

Module StructuringFacts.
Import Structuring.

Section StructuringFacts.
Context {prims : StringPrims}.

Lemma apply_corrections_off (findList replaceList : list string) (pageText : string) :
  useCorrections findList replaceList = false →
  apply_corrections findList replaceList pageText = pageText.
Proof. unfold apply_corrections. by intros ->. Qed.

Lemma useCorrections_mismatch (findList replaceList : list string) :
  length findList ≠ length replaceList →
  useCorrections findList replaceList = false.
Proof.
  intros Hne. unfold useCorrections.
  apply andb_false_iff. right. by apply Nat.eqb_neq.
Qed.

Lemma page_rows_corrections_off (edited : option (gmap nat string))
    (task task' : ExtractionTask) (findList replaceList findList' replaceList' elims : list string)
    (pageData : PageData) :
  columnHeaders task' = columnHeaders task →
  columnSeparators task' = columnSeparators task →
  useCorrections findList replaceList = false →
  useCorrections findList' replaceList' = false →
  page_rows edited task findList replaceList elims pageData
  = page_rows edited task' findList' replaceList' elims pageData.
Proof.
  intros Hh Hs Hoff Hoff'. unfold page_rows, separator_of.
  rewrite !apply_corrections_off by done. by rewrite Hh, Hs.
Qed.

(** C2. When the find list and the replace list of a task have different
    lengths, [processTask] returns what it returns for the same task with
    both lists empty. *)
Theorem processTask_mismatch_disables_corrections
    (f : ProcessedFile) (task : ExtractionTask) :
  let findList := parse_values (findValues task) in
  let replaceList := parse_values (replaceValues task) in
  length findList ≠ 0 → length replaceList ≠ 0 →
  length findList ≠ length replaceList →
  processTask f task = processTask f (without_corrections task).
Proof.
  intros findList replaceList _ _ Hne. unfold processTask.
  destruct (extractedData f) as [data|]; [| done].
  change (columnHeaders (without_corrections task)) with (columnHeaders task).
  destruct (negb (JS.truthy (trim (columnHeaders task)))); [done |].
  f_equal. apply map_ext. intros pageData.
  apply page_rows_corrections_off; try done.
  by apply useCorrections_mismatch.
Qed.

(** With matching lists the corrections are applied. *)
Example corrections_applied :
  apply_corrections (prims := ascii_prims) ["O"] ["0"] "1O2" = "102".
Proof. reflexivity. Qed.

(** A line is eliminated exactly when its lowercase form contains a
    keyword of the list. *)
Lemma line_eliminated_spec (elims : list string) (line : string) :
  line_eliminated elims line = true
  ↔ ∃ e, e ∈ elims ∧ JS.substring_of e (toLowerCase line).
Proof.
  unfold line_eliminated. rewrite existsb_exists. split.
  - intros [e [Hin Hinc]]. exists e. split; [by apply list_elem_of_In |].
    by apply JSFacts.includes_spec.
  - intros [e [Hin Hsub]]. exists e. split; [by apply list_elem_of_In |].
    by apply JSFacts.includes_spec.
Qed.

Lemma kept_lines_spec (elims : list string) (pageText line : string) :
  line ∈ kept_lines elims pageText
  ↔ line ∈ JS.split JS.newline pageText
    ∧ ¬ ∃ e, e ∈ elims ∧ JS.substring_of e (toLowerCase line).
Proof.
  unfold kept_lines. rewrite list_elem_of_filter, <- line_eliminated_spec.
  destruct (line_eliminated elims line); split; intros [? ?]; split; done.
Qed.

Lemma kept_lines_nil (pageText : string) :
  kept_lines [] pageText = JS.split JS.newline pageText.
Proof.
  unfold kept_lines. induction (JS.split _ pageText) as [|l ls IH]; [done |].
  rewrite filter_cons_True by done. by rewrite IH.
Qed.

Lemma kept_lines_free (elims : list string) (pageText : string) :
  Forall (JS.free_of JS.LF) (kept_lines elims pageText).
Proof.
  unfold kept_lines. apply Forall_forall. intros line Hin.
  apply list_elem_of_filter in Hin as [_ Hin].
  destruct (JSFacts.split_char_free JS.LF pageText) as [_ Hfree].
  rewrite Forall_forall in Hfree. by apply Hfree.
Qed.

(** The lines of the text that comes out of the eliminator step are the
    lines that were kept. *)
Lemma apply_eliminators_lines (elims : list string) (pageText : string) :
  JS.split JS.newline (apply_eliminators elims pageText)
  = match kept_lines elims pageText with
    | [] => [""]
    | ls => ls
    end.
Proof.
  unfold apply_eliminators. destruct elims as [|e elims]; simpl.
  - rewrite kept_lines_nil.
    destruct (JSFacts.split_char_free JS.LF pageText) as [Hne _].
    unfold JS.split. by destruct (JS.split_go _ 0 pageText).
  - pose proof (kept_lines_free (e :: elims) pageText) as Hfree.
    destruct (kept_lines (e :: elims) pageText) as [|l ls]; [done |].
    by apply JSFacts.split_join_char.
Qed.

Lemma insert_page_perm (x : PageData) (l : list PageData) :
  insert_page x l ≡ₚ x :: l.
Proof.
  induction l as [|y l IH]; simpl; [done |].
  destruct (page x <=? page y); [done |].
  rewrite IH. apply Permutation_swap.
Qed.

Lemma sort_pages_perm (l : list PageData) : sort_pages l ≡ₚ l.
Proof.
  induction l as [|x l IH]; simpl; [done |].
  by rewrite insert_page_perm, IH.
Qed.

Lemma filter_none {A} (P : A → Prop) `{∀ x, Decision (P x)} (l : list A) :
  (∀ x, x ∈ l → ¬ P x) → filter P l = [].
Proof.
  induction l as [|a l IH]; intros Hall; [done |].
  rewrite filter_cons_False by (apply Hall; left).
  apply IH. intros x Hx. apply Hall. by right.
Qed.

Lemma no_headers_no_rows (separator : string) (lines : list string) :
  filter (λ obj, CleanOcr.has_content obj = true)
         (map (CleanOcr.row_of [] separator) lines) = [].
Proof.
  apply filter_none. intros obj Hobj.
  apply list_elem_of_fmap in Hobj as (line & -> & _). done.
Qed.

(** The rows of a page come from the lines of its corrected text that
    no keyword eliminates, for a [trim] that gives the empty string on
    the empty string and on every line of a text that it empties. *)
Lemma page_rows_of_kept_lines (edited : option (gmap nat string))
    (task : ExtractionTask) (findList replaceList elims : list string)
    (pageData : PageData) :
  trim "" = "" →
  (∀ text line, trim text = "" → line ∈ JS.split JS.newline text → trim line = "") →
  page_rows edited task findList replaceList elims pageData
  = filter (λ obj, CleanOcr.has_content obj = true)
      (map (CleanOcr.row_of (CleanOcr.parse_headers (columnHeaders task))
              (separator_of task))
         (filter (λ line, CleanOcr.nonblank line = true)
            (kept_lines elims
               (apply_corrections findList replaceList (page_text edited pageData))))).
Proof.
  intros Hempty Hlines. unfold page_rows.
  set (text := apply_corrections findList replaceList (page_text edited pageData)).
  pose proof (apply_eliminators_lines elims text) as Hsplit.
  set (out := apply_eliminators elims text) in *.
  assert (Hdata : CleanOcr.data_lines out
                  = filter (λ line, CleanOcr.nonblank line = true)
                           (kept_lines elims text)).
  { unfold CleanOcr.data_lines. rewrite Hsplit.
    destruct (kept_lines elims text) as [|l ls]; [| done].
    apply filter_none. intros line Hline.
    apply list_elem_of_singleton in Hline as ->.
    unfold CleanOcr.nonblank. by rewrite Hempty. }
  destruct (negb (JS.truthy (trim out))) eqn:Hblank.
  - assert (Hout : trim out = "").
    { destruct (trim out); [done | discriminate Hblank]. }
    rewrite <- Hdata. unfold CleanOcr.data_lines.
    rewrite (filter_none _ (JS.split JS.newline out)); [done |].
    intros line Hline. unfold CleanOcr.nonblank.
    by rewrite (Hlines out line Hout Hline).
  - unfold CleanOcr.cleanOcrData.
    destruct (CleanOcr.parse_headers (columnHeaders task)) as [|h hs] eqn:Hheaders.
    + simpl. symmetry. apply no_headers_no_rows.
    + simpl. by rewrite Hdata.
Qed.

End StructuringFacts.

Lemma processTask_mismatch_disables_corrections_witness :
  (length (parse_values (prims := ascii_prims) (findValues mismatched_task)) ≠ 0
   ∧ length (parse_values (prims := ascii_prims) (replaceValues mismatched_task)) ≠ 0
   ∧ length (parse_values (prims := ascii_prims) (findValues mismatched_task))
     ≠ length (parse_values (prims := ascii_prims) (replaceValues mismatched_task)))
  ∧ processTask (prims := ascii_prims) sample_file mismatched_task
    = processTask (prims := ascii_prims) sample_file
        (without_corrections mismatched_task).
Proof.
  assert (H1 : length (parse_values (prims := ascii_prims) (findValues mismatched_task))
               ≠ 0) by (vm_compute; lia).
  assert (H2 : length (parse_values (prims := ascii_prims) (replaceValues mismatched_task))
               ≠ 0) by (vm_compute; lia).
  assert (H3 : length (parse_values (prims := ascii_prims) (findValues mismatched_task))
               ≠ length (parse_values (prims := ascii_prims)
                           (replaceValues mismatched_task))) by (vm_compute; lia).
  split; [done |].
  exact (processTask_mismatch_disables_corrections (prims := ascii_prims)
           sample_file mismatched_task H1 H2 H3).
Defined.

End StructuringFacts.

Module EliminatorFacts.
Import Structuring.

Lemma lower_append (a b : string) :
  AsciiPrims.toLowerCase (a +:+ b)
  = AsciiPrims.toLowerCase a +:+ AsciiPrims.toLowerCase b.
Proof.
  induction a as [|c a IH]; [done |].
  rewrite JSFacts.append_cons. simpl. by rewrite IH, JSFacts.append_cons.
Qed.

(** *** [trim] on the ASCII repertoire *)

Lemma trim_end_keeps (c : Ascii.ascii) (s : string) :
  AsciiPrims.is_space c = false → AsciiPrims.trim_end (String c s) ≠ "".
Proof.
  intros Hc. simpl. rewrite Hc. by destruct (AsciiPrims.trim_end s).
Qed.

Lemma trim_start_head (s : string) :
  AsciiPrims.trim_start s = ""
  ∨ ∃ c r, AsciiPrims.trim_start s = String c r ∧ AsciiPrims.is_space c = false.
Proof.
  induction s as [|c s IH]; [by left |].
  simpl. destruct (AsciiPrims.is_space c) eqn:Hc; [done |].
  right. by exists c, s.
Qed.

Lemma trim_blank (s : string) :
  AsciiPrims.trim s = "" ↔ AsciiPrims.trim_start s = "".
Proof.
  unfold AsciiPrims.trim. split.
  - intros Hs. destruct (trim_start_head s) as [? | (c & r & Hr & Hc)]; [done |].
    rewrite Hr in Hs. by apply trim_end_keeps in Hs.
  - by intros ->.
Qed.

Lemma split_go_blank (sep : string) (skip : nat) (s : string) :
  AsciiPrims.trim_start s = "" →
  Forall (λ line, AsciiPrims.trim_start line = "") (JS.split_go sep skip s).
Proof.
  revert skip. induction s as [|c s IH]; intros skip Hs.
  - simpl. by constructor.
  - simpl in Hs. destruct (AsciiPrims.is_space c) eqn:Hc.
    2: { discriminate Hs. }
    cbn [JS.split_go]. destruct skip as [|k]; [| by apply IH].
    destruct (JS.startsWith sep (String c s)).
    + constructor; [done | by apply IH].
    + pose proof (IH 0%nat Hs) as Hrest.
      destruct (JS.split_go sep 0 s) as [|chunk chunks].
      * constructor; [| done]. simpl. by rewrite Hc.
      * inversion Hrest as [|? ? Hchunk Hchunks]; subst.
        constructor; [| done]. simpl. by rewrite Hc.
Qed.

(** A text that [trim] empties has only lines that [trim] empties. *)
Lemma trim_blank_lines (text line : string) :
  AsciiPrims.trim text = "" → line ∈ JS.split JS.newline text →
  AsciiPrims.trim line = "".
Proof.
  intros Htext Hline. apply trim_blank. apply trim_blank in Htext.
  pose proof (split_go_blank JS.newline 0 text Htext) as Hall.
  rewrite Forall_forall in Hall. by apply Hall.
Qed.

(** C8. For a [trim] that gives the empty string on the empty string
    and on every line of a text that it empties: the rows [processTask]
    returns are, page after page in the order of the page numbers, the
    rows of the lines of the page text (after the corrections) that are
    not dropped and not blank; a line is dropped if and only if its
    lowercase form contains one of the keywords of the task (trimmed, in
    lowercase, the empty ones left out) as a substring.  So a row is
    returned exactly when it is the row, with a non-empty field, of a
    line of some page that is not blank and contains no keyword.  On
    ASCII text a line that contains "PAGE NO." is dropped when
    "page no." is a keyword. *)
Theorem eliminators_drop_matching_lines {prims : StringPrims}
    (f : ProcessedFile) (task : ExtractionTask) (data : list PageData) :
  trim "" = "" →
  (∀ text line, trim text = "" → line ∈ JS.split JS.newline text → trim line = "") →
  extractedData f = Some data →
  trim (columnHeaders task) ≠ "" →
  let elims := parse_eliminators (eliminators task) in
  let headers := CleanOcr.parse_headers (columnHeaders task) in
  let text_of pageData :=
    apply_corrections (parse_values (findValues task))
      (parse_values (replaceValues task))
      (page_text (manuallyEditedPages f) pageData) in
  let dropped line := ∃ e, e ∈ elims ∧ JS.substring_of e (toLowerCase line) in
  (∀ e, e ∈ elims
        ↔ JS.truthy (eliminators task) = true ∧ e ≠ ""
          ∧ ∃ k, k ∈ JS.split "," (eliminators task) ∧ e = toLowerCase (trim k))
  ∧ (∀ line, line_eliminated elims line = true ↔ dropped line)
  ∧ processTask f task
    = concat
        (map (λ pageData,
                filter (λ obj, CleanOcr.has_content obj = true)
                  (map (CleanOcr.row_of headers (separator_of task))
                     (filter (λ line, CleanOcr.nonblank line = true)
                        (filter (λ line, line_eliminated elims line = false)
                           (JS.split JS.newline (text_of pageData))))))
             (sort_pages data))
  ∧ (∀ row, row ∈ processTask f task
            ↔ ∃ pageData line,
                pageData ∈ data
                ∧ line ∈ JS.split JS.newline (text_of pageData)
                ∧ ¬ dropped line
                ∧ trim line ≠ ""
                ∧ row = CleanOcr.row_of headers (separator_of task) line
                ∧ CleanOcr.has_content row = true)
  ∧ (∀ (keywords : list string) (pre post : string),
       "page no." ∈ keywords →
       line_eliminated (prims := ascii_prims) keywords (pre +:+ "PAGE NO." +:+ post)
       = true).
Proof.
  intros Hempty Hlines Hdata Hheaders elims headers text_of dropped.
  assert (Hrun : processTask f task
    = concat
        (map (λ pageData,
                filter (λ obj, CleanOcr.has_content obj = true)
                  (map (CleanOcr.row_of headers (separator_of task))
                     (filter (λ line, CleanOcr.nonblank line = true)
                        (filter (λ line, line_eliminated elims line = false)
                           (JS.split JS.newline (text_of pageData))))))
             (sort_pages data))).
  { unfold processTask. rewrite Hdata.
    destruct (trim (columnHeaders task)) eqn:Htrim; [done |]. simpl.
    f_equal. apply map_ext. intros pageData.
    by apply StructuringFacts.page_rows_of_kept_lines. }
  split_and!.
  - intros e. unfold elims, parse_eliminators.
    destruct (JS.truthy (eliminators task)) eqn:Htruthy.
    + rewrite list_elem_of_filter, list_elem_of_fmap. split.
      * intros [He [k [-> Hk]]]. split_and!; [done | | by exists k].
        intros Heq. rewrite Heq in He. discriminate He.
      * intros (_ & He & k & Hk & ->). split; [| by exists k].
        destruct (toLowerCase (trim k)); [done | reflexivity].
    + rewrite elem_of_nil. split; [done | intros [? _]; discriminate].
  - apply StructuringFacts.line_eliminated_spec.
  - exact Hrun.
  - intros row. rewrite Hrun. split.
    + intros Hin. apply list_elem_of_In, in_concat in Hin as (rows & Hrows & Hin).
      apply in_map_iff in Hrows as (pageData & <- & Hpage).
      apply list_elem_of_In in Hpage, Hin.
      rewrite StructuringFacts.sort_pages_perm in Hpage.
      apply list_elem_of_filter in Hin as [Hcontent Hin].
      apply list_elem_of_fmap in Hin as (line & -> & Hline).
      apply list_elem_of_filter in Hline as [Hnonblank Hline].
      apply list_elem_of_filter in Hline as [Hkept Hline].
      exists pageData, line. split_and!; try done.
      * intros Hdropped. apply StructuringFacts.line_eliminated_spec in Hdropped.
        simpl in Hkept. congruence.
      * intros Hblank. unfold CleanOcr.nonblank in Hnonblank.
        rewrite Hblank in Hnonblank. discriminate Hnonblank.
    + intros (pageData & line & Hpage & Hline & Hkept & Hnonblank & -> & Hcontent).
      apply list_elem_of_In, in_concat. eexists. split.
      * apply in_map_iff. exists pageData. split; [reflexivity |].
        apply list_elem_of_In. by rewrite StructuringFacts.sort_pages_perm.
      * apply list_elem_of_In, list_elem_of_filter. split; [done |].
        apply list_elem_of_fmap. exists line. split; [done |].
        apply list_elem_of_filter. split.
        { unfold CleanOcr.nonblank. destruct (trim line); [done | reflexivity]. }
        apply list_elem_of_filter. split; [| done].
        destruct (line_eliminated elims line) eqn:Helim; [| done].
        apply StructuringFacts.line_eliminated_spec in Helim. done.
  - intros keywords pre post Hin.
    apply StructuringFacts.line_eliminated_spec. exists "page no.".
    split; [done |]. cbn [toLowerCase ascii_prims].
    exists (AsciiPrims.toLowerCase pre), (AsciiPrims.toLowerCase post).
    by rewrite !lower_append.
Qed.

(** The page "John 25 / PAGE NO. 3 / Jane 30" gives the two rows of John
    and Jane with the keyword "page no.". *)
Lemma eliminators_drop_matching_lines_witness :
  (trim (StringPrims := ascii_prims) "" = ""
   ∧ (∀ text line, trim (StringPrims := ascii_prims) text = "" →
        line ∈ JS.split JS.newline text →
        trim (StringPrims := ascii_prims) line = "")
   ∧ extractedData sample_file = Some [{| page := 1; tsv := sample_text |}]
   ∧ trim (StringPrims := ascii_prims) (columnHeaders sample_task) ≠ "")
  ∧ processTask (prims := ascii_prims) sample_file sample_task
    = [ {[ "Name" := "John"; "Age" := "25" ]};
        {[ "Name" := "Jane"; "Age" := "30" ]} ].
Proof.
  assert (H1 : trim (StringPrims := ascii_prims) "" = "") by reflexivity.
  assert (H2 : ∀ text line, trim (StringPrims := ascii_prims) text = "" →
                 line ∈ JS.split JS.newline text →
                 trim (StringPrims := ascii_prims) line = "")
    by exact trim_blank_lines.
  assert (H3 : extractedData sample_file = Some [{| page := 1; tsv := sample_text |}])
    by reflexivity.
  assert (H4 : trim (StringPrims := ascii_prims) (columnHeaders sample_task) ≠ "")
    by (vm_compute; discriminate).
  split; [exact (conj H1 (conj H2 (conj H3 H4))) |].
  destruct (eliminators_drop_matching_lines (prims := ascii_prims)
              sample_file sample_task _ H1 H2 H3 H4) as (_ & _ & Hrun & _).
  etransitivity; [exact Hrun |]. by vm_compute.
Defined.

End EliminatorFacts.

(** ** The table-structuring backend *)

Module TextractFacts.
Import Textract.

Section TextractFacts.
Context {prims : StringPrims}.

Lemma fill_record_other (row headers : list string) (index : nat) (obj : Row)
    (k : string) :
  k ∉ headers → fill_record row index headers obj !! k = obj !! k.
Proof.
  revert index obj. induction headers as [|h headers IH]; intros index obj Hk.
  - done.
  - simpl. apply not_elem_of_cons in Hk as [Hkh Hk].
    rewrite IH by done. by apply JSFacts.set_property_ne.
Qed.

Lemma fill_record_lookup (row headers : list string) (index : nat) (obj : Row)
    (i : nat) (h : string) :
  headers !! i = Some h → h ≠ "__proto__" → h ∉ drop (S i) headers →
  fill_record row index headers obj !! h
  = Some (default "" (row !! (index + i))).
Proof.
  revert index obj i.
  induction headers as [|h' headers IH]; intros index obj i Hi Hh Hlast.
  - done.
  - destruct i as [|i]; simpl in *.
    + injection Hi as ->. rewrite drop_0 in Hlast.
      rewrite fill_record_other by done.
      by rewrite JSFacts.set_property_eq, Nat.add_0_r.
    + rewrite (IH (S index) _ i) by done. do 3 f_equal. lia.
Qed.

Lemma fill_record_dom (row headers : list string) (index : nat) (obj : Row)
    (k : string) :
  is_Some (fill_record row index headers obj !! k)
  ↔ (k ∈ headers ∧ k ≠ "__proto__") ∨ is_Some (obj !! k).
Proof.
  revert index obj. induction headers as [|h headers IH]; intros index obj.
  - simpl. rewrite elem_of_nil. tauto.
  - simpl. rewrite IH, elem_of_cons.
    destruct (decide (h = k)) as [-> | Hne].
    + destruct (decide (k = "__proto__")) as [-> | Hk].
      * rewrite JSFacts.set_property_proto. split.
        -- intros [[? ?] | ?]; [done | auto].
        -- intros [[? ?] | ?]; [done | auto].
      * rewrite JSFacts.set_property_eq by done.
        split; [auto | intros _; right; by eexists].
    + rewrite JSFacts.set_property_ne by done. split.
      * intros [[? ?] | ?]; auto.
      * intros [[[-> | ?] ?] | ?]; [done | auto | auto].
Qed.

(** A table of three rows or more gives one record for each row after
    the first, in order.  The keys of the record of a row are the cells
    of the first row other than [__proto__]; under such a cell the record
    holds the cell of the row in the same column (the last such column,
    for a header that is repeated), and the empty string when the row has
    no cell there. *)
Theorem textract_rows_after_header (header r1 r2 : list string)
    (rest : list (list string)) :
  structure_rows (header :: r1 :: r2 :: rest)
  = map (record_of header) (r1 :: r2 :: rest)
  ∧ (∀ row k, is_Some (record_of header row !! k)
              ↔ k ∈ header ∧ k ≠ "__proto__")
  ∧ (∀ row i h, header !! i = Some h → h ≠ "__proto__" →
       h ∉ drop (S i) header →
       record_of header row !! h = Some (default "" (row !! i))).
Proof.
  split_and!; [reflexivity | |].
  - intros row k. unfold record_of. rewrite fill_record_dom, lookup_empty.
    split; [intros [? | [? ?]]; done | auto].
  - intros row i h Hi Hh Hlast. unfold record_of.
    by rewrite (fill_record_lookup row header 0 ∅ i h).
Qed.

Lemma structure_rows_two (header row : list string) :
  structure_rows [header; row] = [].
Proof. reflexivity. Qed.

Lemma structure_rows_one (row : list string) : structure_rows [row] = [].
Proof. reflexivity. Qed.

(** A response without a TABLE block gives no row. *)
Theorem structure_blocks_no_table (blocks : list Block) :
  Forall (λ b, BlockType b ≠ Some "TABLE") blocks →
  structure_blocks (Some blocks) = [].
Proof.
  intros Hnone. unfold structure_blocks.
  assert (Hfilter : filter (λ b, has_type "TABLE" b = true) blocks = []).
  { induction Hnone as [|b bs Hb _ IH]; [done |].
    rewrite filter_cons_False; [done |].
    unfold has_type. rewrite bool_decide_eq_true. done. }
  by rewrite Hfilter.
Qed.

End TextractFacts.

Lemma structure_blocks_no_table_witness :
  Forall (λ b, BlockType b ≠ Some "TABLE") [word "w1" "Name"; cell "c11" 1 1 ["w1"]]
  ∧ structure_blocks (prims := ascii_prims)
      (Some [word "w1" "Name"; cell "c11" 1 1 ["w1"]]) = [].
Proof.
  assert (H : Forall (λ b, BlockType b ≠ Some "TABLE")
                [word "w1" "Name"; cell "c11" 1 1 ["w1"]])
    by (repeat constructor; discriminate).
  split; [exact H |].
  exact (structure_blocks_no_table (prims := ascii_prims) _ H).
Defined.

(** C3, on a table of two rows.  The flow reads the header row Name, Age
    and the data row John, 25 from the response and returns no record,
    where the record of John is expected; a table of one row gives no
    record either.  With a third row the two data rows are returned under
    the headers of the first row, and a response without a table gives no
    row.  No table of two rows and no table of one row gives a record. *)
Theorem textract_two_rows_give_no_record :
  table_rows (prims := ascii_prims) two_row_response (table "t" ["c11"; "c12"; "c21"; "c22"])
    = [["Name"; "Age"]; ["John"; "25"]]
  ∧ structure_blocks (prims := ascii_prims) (Some two_row_response) = []
  ∧ structure_blocks (prims := ascii_prims) (Some one_row_response) = []
  ∧ structure_blocks (prims := ascii_prims) (Some three_row_response)
    = [ {[ "Name" := "John"; "Age" := "25" ]};
        {[ "Name" := "Jane"; "Age" := "30" ]} ]
  ∧ structure_blocks (prims := ascii_prims) (Some [word "w1" "Name"]) = []
  ∧ (∀ header row : list string, structure_rows [header; row] = [])
  ∧ (∀ row : list string, structure_rows [row] = []).
Proof.
  split_and!;
    first [ apply structure_rows_two | apply structure_rows_one | by vm_compute ].
Qed.

End TextractFacts.

(** ** The geometry mapper *)

Module GeometryFacts.
Import Geometry.
Local Open Scope Q_scope.

Lemma js_round_le (x : Q) : inject_Z (js_round x) <= x + (1 # 2).
Proof. unfold js_round. apply Qfloor_le. Qed.

Lemma js_round_gt (x : Q) : x - (1 # 2) < inject_Z (js_round x).
Proof.
  unfold js_round. pose proof (Qlt_floor (x + (1 # 2))) as H.
  rewrite inject_Z_plus in H. change (inject_Z 1) with 1 in H. lra.
Qed.

Lemma js_round_proper (x y : Q) : x == y → js_round x = js_round y.
Proof. intros H. unfold js_round. apply Qfloor_comp. by rewrite H. Qed.

(** [Math.round((v / d) * o)] is [round(v * o / d)]. *)
Lemma scale_formula (v d o : Q) : scale v d o = js_round (v * o / d).
Proof. apply js_round_proper. unfold Qdiv. ring. Qed.



(** Scaling by a factor of at least 1 and back changes a coordinate by
    at most 1. *)
Lemma scale_round_trip (v d o : Q) :
  0 < d → d <= o →
  Qabs (inject_Z (scale (inject_Z (scale v d o)) o d) - v) <= 1.
Proof.
  intros Hd Hdo. unfold scale.
  set (xq := (v / d) * o).
  set (U := inject_Z (js_round xq)).
  set (yq := (U / o) * d).
  pose proof (js_round_le xq) as HU1. pose proof (js_round_gt xq) as HU2.
  pose proof (js_round_le yq) as HW1. pose proof (js_round_gt yq) as HW2.
  fold U in HU1, HU2. set (W := inject_Z (js_round yq)) in *.
  assert (Ho : 0 < o) by lra.
  set (k := d / o).
  assert (Hk0 : 0 < k).
  { unfold k. apply Qlt_shift_div_l; lra. }
  assert (Hk1 : k <= 1).
  { unfold k. apply Qle_shift_div_r; lra. }
  assert (Hy : yq == U * k).
  { unfold yq, k. field. lra. }
  assert (Hv : v == xq * k).
  { unfold xq, k. field. lra. }
  apply Qabs_Qle_condition. split; nra.
Qed.

(** The rectangle shown for a mapped rectangle is within 1 of the
    rectangle drawn, on each coordinate. *)
Lemma display_round_trip (v d o : Q) :
  0 < d → d <= o →
  Qabs ((inject_Z (scale v d o) / o) * d - v) <= 1.
Proof.
  intros Hd Hdo. unfold scale.
  set (xq := (v / d) * o).
  pose proof (js_round_le xq) as HU1. pose proof (js_round_gt xq) as HU2.
  set (U := inject_Z (js_round xq)) in *.
  assert (Ho : 0 < o) by lra.
  set (k := d / o).
  assert (Hk0 : 0 < k).
  { unfold k. apply Qlt_shift_div_l; lra. }
  assert (Hk1 : k <= 1).
  { unfold k. apply Qle_shift_div_r; lra. }
  assert (Hy : (U / o) * d == U * k).
  { unfold k. field. lra. }
  assert (Hv : v == xq * k).
  { unfold xq, k. field. lra. }
  apply Qabs_Qle_condition. split; nra.
Qed.


(** C7, as amended.  When the display extents are positive and not
    larger than the full-resolution extents, mapping a drawn rectangle
    to full resolution and back gives each of left, top, width and
    height back with an error of at most 1; the same holds for the
    rectangle that is displayed over the page for the mapped one. *)
Theorem round_trip_within_one (r : DrawnRect) (displayWidth displayHeight : Q)
    (original : Dimensions) :
  0 < displayWidth → 0 < displayHeight →
  displayWidth <= dim_width original → displayHeight <= dim_height original →
  let mapped := scaledRect r displayWidth displayHeight original in
  let back := map_back mapped displayWidth displayHeight original in
  let shown := displayRect mapped displayWidth displayHeight original in
  (Qabs (inject_Z (left back) - d_left r) <= 1
   ∧ Qabs (inject_Z (top back) - d_top r) <= 1
   ∧ Qabs (inject_Z (width back) - d_width r) <= 1
   ∧ Qabs (inject_Z (height back) - d_height r) <= 1)
  ∧ (Qabs (d_left shown - d_left r) <= 1
     ∧ Qabs (d_top shown - d_top r) <= 1
     ∧ Qabs (d_width shown - d_width r) <= 1
     ∧ Qabs (d_height shown - d_height r) <= 1).
Proof.
  intros Hw Hh Hwo Hho mapped back shown.
  split; split_and!.
  all: unfold back, shown, mapped, map_back, displayRect, scaledRect, as_drawn.
  all: cbn [left top width height d_left d_top d_width d_height dim_width dim_height].
  all: first [by apply scale_round_trip | by apply display_round_trip].
Qed.



(** C7, as stated, fails when the display is larger than the page image:
    the rectangle is not too small to be mapped, its left edge 14 maps
    to 4 and comes back as 16. *)
Lemma round_trip_off_by_two :
  too_small drawn_14 = false
  ∧ left (scaledRect drawn_14 800 800 small_page) = 4%Z
  ∧ left (map_back (scaledRect drawn_14 800 800 small_page) 800 800 small_page)
    = 16%Z
  ∧ ¬ Qabs (inject_Z (left (map_back (scaledRect drawn_14 800 800 small_page)
                              800 800 small_page))
            - d_left drawn_14) <= 1.
Proof.
  split_and!; by vm_compute.
Qed.

Lemma round_trip_within_one_witness :
  (0 < 500 ∧ 0 < 600 ∧ 500 <= dim_width sample_dimensions
   ∧ 600 <= dim_height sample_dimensions)
  ∧ Qabs (inject_Z (left (map_back (scaledRect drawn_14 500 600 sample_dimensions)
                            500 600 sample_dimensions))
          - d_left drawn_14) <= 1.
Proof.
  assert (H1 : 0 < 500) by (vm_compute; reflexivity).
  assert (H2 : 0 < 600) by (vm_compute; reflexivity).
  assert (H3 : 500 <= dim_width sample_dimensions) by (vm_compute; discriminate).
  assert (H4 : 600 <= dim_height sample_dimensions) by (vm_compute; discriminate).
  split; [done |].
  exact (proj1 (proj1 (round_trip_within_one drawn_14 500 600 sample_dimensions
                         H1 H2 H3 H4))).
Defined.

End GeometryFacts.

(** ** Languages and whitelist *)

Module LanguagesFacts.
Import Languages.

Lemma handleLanguageChange_rejected (lang : string) (checked : bool) (st : State) :
  newLangs lang checked (langs st) = [] →
  handleLanguageChange lang checked st = (st, true).
Proof. unfold handleLanguageChange. by intros ->. Qed.

Lemma handleLanguageChange_accepted (lang : string) (checked : bool) (st : State) :
  newLangs lang checked (langs st) ≠ [] →
  handleLanguageChange lang checked st
  = ({| langs := newLangs lang checked (langs st);
        charWhitelist := newWhitelist (newLangs lang checked (langs st)) |}, false).
Proof.
  unfold handleLanguageChange. intros Hne.
  by destruct (newLangs lang checked (langs st)).
Qed.

Lemma step_nonempty (st : State) (r : Request) :
  langs st ≠ [] → langs (step st r) ≠ [].
Proof.
  intros Hst. destruct r as [lang checked | text]; [| done].
  simpl. destruct (decide (newLangs lang checked (langs st) = [])) as [Hnil | Hne].
  - by rewrite handleLanguageChange_rejected.
  - by rewrite handleLanguageChange_accepted.
Qed.

Lemma fold_step_nonempty (requests : list Request) (st : State) :
  langs st ≠ [] → langs (fold_left step requests st) ≠ [].
Proof.
  revert st. induction requests as [|r requests IH]; intros st Hst; [done |].
  simpl. apply IH. by apply step_nonempty.
Qed.

Lemma newWhitelist_cases (l : list string) :
  ("eng" ∈ l → "hin" ∈ l → newWhitelist l = ENG_CHARS +:+ HINDI_CHARS +:+ SYMBOLS)
  ∧ ("eng" ∈ l → "hin" ∉ l → newWhitelist l = ENG_CHARS +:+ SYMBOLS)
  ∧ ("eng" ∉ l → "hin" ∈ l → newWhitelist l = HINDI_CHARS +:+ SYMBOLS)
  ∧ ("eng" ∉ l → "hin" ∉ l → newWhitelist l = SYMBOLS).
Proof.
  unfold newWhitelist. split_and!; intros Heng Hhin.
  - by rewrite !bool_decide_eq_true_2.
  - by rewrite bool_decide_eq_true_2, bool_decide_eq_false_2.
  - by rewrite bool_decide_eq_false_2, bool_decide_eq_true_2.
  - by rewrite !bool_decide_eq_false_2.
Qed.

(** C10. The list of selected languages is never empty, whatever the
    user ticks, unticks or types.  A change that would leave no language
    is rejected: languages and whitelist stay as they are and the toast
    is shown.  A change that leaves a language is accepted: the
    languages are the new ones and the whitelist is the English block if
    "eng" is among them, then the Hindi block if "hin" is among them,
    then the symbols. *)
Theorem languages_never_empty :
  (∀ requests, langs (run requests) ≠ [])
  ∧ (∀ lang checked st,
       newLangs lang checked (langs st) = [] →
       handleLanguageChange lang checked st = (st, true))
  ∧ (∀ lang checked st,
       let l := newLangs lang checked (langs st) in
       l ≠ [] →
       ∃ whitelist,
         handleLanguageChange lang checked st
         = ({| langs := l; charWhitelist := whitelist |}, false)
         ∧ ("eng" ∈ l → "hin" ∈ l →
            whitelist = ENG_CHARS +:+ HINDI_CHARS +:+ SYMBOLS)
         ∧ ("eng" ∈ l → "hin" ∉ l → whitelist = ENG_CHARS +:+ SYMBOLS)
         ∧ ("eng" ∉ l → "hin" ∈ l → whitelist = HINDI_CHARS +:+ SYMBOLS)
         ∧ ("eng" ∉ l → "hin" ∉ l → whitelist = SYMBOLS)).
Proof.
  split_and!.
  - intros requests. by apply fold_step_nonempty.
  - apply handleLanguageChange_rejected.
  - intros lang checked st l Hne. exists (newWhitelist l).
    split; [by apply handleLanguageChange_accepted |].
    apply newWhitelist_cases.
Qed.

(** Unticking the only language is rejected; ticking "hinglish" selects
    English and Hindi. *)
Example untick_only_language :
  handleLanguageChange "eng" false initial = (initial, true)
  ∧ langs (handleLanguageChange "hinglish" true initial).1 = ["eng"; "hin"].
Proof. split; reflexivity. Qed.

End LanguagesFacts.

(** ** The export *)

Module ExcelFacts.
Import Excel.

Section ExcelFacts.
Context {prims : StringPrims}.
Context (sheet_name_ok : list string → string → bool).
Context (write_ok : Workbook → bool).

Lemma processTask_no_headers (f : ProcessedFile) (task : ExtractionTask) :
  trim (columnHeaders task) = "" → Structuring.processTask f task = [].
Proof.
  intros Hblank. unfold Structuring.processTask.
  destruct (extractedData f); [| done]. by rewrite Hblank.
Qed.

Lemma processTask_no_header_list (f : ProcessedFile) (task : ExtractionTask) :
  CleanOcr.parse_headers (columnHeaders task) = [] →
  Structuring.processTask f task = [].
Proof.
  intros Hnone. unfold Structuring.processTask.
  destruct (extractedData f) as [data |]; [| done].
  destruct (negb _); [done |].
  induction (Structuring.sort_pages data) as [|pageData pages IH]; [done |].
  simpl. rewrite IH, app_nil_r. unfold Structuring.page_rows.
  destruct (negb _); [done |]. unfold CleanOcr.cleanOcrData. by rewrite Hnone.
Qed.

(** C5, as amended.  A task without headers (a blank header text, or a
    header text that lists no header) gives no structured data.  In the
    export a task with a blank header text, unless a preview with rows is
    attached to it, adds no sheet and no placeholder row: the workbook is
    left as it is and the notice that the data keys are missing is shown.
    A task with a header text that is not blank and with no resulting row
    (a header text such as "," that lists no header is one) adds, under
    its name, a sheet with the single row "No structured data was
    generated for this task." when the library accepts the name, and
    makes the library throw when it refuses the name. *)
Theorem export_task_without_data (f : ProcessedFile) (task : ExtractionTask)
    (wb : Workbook) (ts : list Toast) :
  (trim (columnHeaders task) = "" →
     Structuring.processTask f task = []
     ∧ (structuredDataPreview task = None ∨ structuredDataPreview task = Some [] →
        export_task sheet_name_ok f task wb ts
        = (Some wb, ts ++ [DataKeysMissing (name task)])))
  ∧ (CleanOcr.parse_headers (columnHeaders task) = [] →
     Structuring.processTask f task = [])
  ∧ (trim (columnHeaders task) ≠ "" → finalData f task = [] →
     sheet_name_ok wb.*1 (name task) = true →
     export_task sheet_name_ok f task wb ts
     = (Some (wb ++ [(name task,
                      AoaSheet [["No structured data was generated for this task."]])]),
        ts))
  ∧ (trim (columnHeaders task) ≠ "" → finalData f task = [] →
     sheet_name_ok wb.*1 (name task) = false →
     export_task sheet_name_ok f task wb ts = (None, ts))
  ∧ (trim (columnHeaders task) ≠ "" →
     CleanOcr.parse_headers (columnHeaders task) = [] →
     structuredDataPreview task = None ∨ structuredDataPreview task = Some [] →
     sheet_name_ok wb.*1 (name task) = true →
     export_task sheet_name_ok f task wb ts
     = (Some (wb ++ [(name task,
                      AoaSheet [["No structured data was generated for this task."]])]),
        ts)).
Proof.
  split_and!.
  - intros Hblank. split; [by apply processTask_no_headers |].
    intros Hpreview. unfold export_task.
    assert (Hrows : finalData f task = []).
    { unfold finalData. destruct Hpreview as [-> | ->]; [| done].
      by apply processTask_no_headers. }
    by rewrite Hrows, Hblank.
  - apply processTask_no_header_list.
  - intros Hheaders Hrows Hname. unfold export_task, book_append_sheet.
    rewrite Hrows, Hname. simpl.
    destruct (trim (columnHeaders task)); [done | reflexivity].
  - intros Hheaders Hrows Hname. unfold export_task, book_append_sheet.
    rewrite Hrows, Hname. simpl.
    destruct (trim (columnHeaders task)); [done | reflexivity].
  - intros Hheaders Hnone Hpreview Hname.
    assert (Hrows : finalData f task = []).
    { unfold finalData. destruct Hpreview as [-> | ->]; [| done].
      by apply processTask_no_header_list. }
    unfold export_task, book_append_sheet.
    rewrite Hrows, Hname. simpl.
    destruct (trim (columnHeaders task)); [done | reflexivity].
Qed.

End ExcelFacts.

(** C5, as stated, fails for a task without headers: the export of
    [headerless_file] ends with the notices "Data Keys Missing" and
    "Export Failed", and the workbook has no sheet, hence no placeholder
    row for the task. *)
Lemma export_without_headers_has_no_placeholder :
  AsciiPrims.trim (columnHeaders (newTask "task-1" "Sheet 1")) = ""
  ∧ generateAndDownloadExcel (prims := ascii_prims) any_name any_sheet headerless_file
    = {| ending := Returned; workbook := [];
         toasts := [StructuringInProgress; DataKeysMissing "Sheet 1"; ExportFailed] |}
  ∧ (∀ sheet,
       ("Sheet 1", sheet)
       ∉ workbook (generateAndDownloadExcel (prims := ascii_prims)
                     any_name any_sheet headerless_file)).
Proof.
  split_and!; [reflexivity | reflexivity |].
  intros sheet. apply not_elem_of_nil.
Qed.

Lemma export_task_without_data_witness :
  (trim (StringPrims := ascii_prims) (columnHeaders (newTask "task-1" "Sheet 1")) = "")
  ∧ export_task (prims := ascii_prims) any_name headerless_file
      (newTask "task-1" "Sheet 1") [] []
    = (Some [], [DataKeysMissing "Sheet 1"]).
Proof.
  assert (H : trim (StringPrims := ascii_prims)
                (columnHeaders (newTask "task-1" "Sheet 1")) = "") by reflexivity.
  split; [exact H |].
  destruct (export_task_without_data (prims := ascii_prims) any_name headerless_file
              (newTask "task-1" "Sheet 1") [] []) as [Hnone _].
  destruct (Hnone H) as [_ Hskip]. apply Hskip. by left.
Defined.

(** With the headers Name and Age and the tab as separator, the line
    "John 25" has no second field, and a page without text gives the
    placeholder sheet. *)
Example export_placeholder_sheet :
  let task :=
    {| task_id := "task-1"; name := "Sheet 1"; columnHeaders := "Name,Age";
       columnSeparators := JS.tab; eliminators := "john"; findValues := "";
       replaceValues := ""; structuredDataPreview := None |} in
  export_task (prims := ascii_prims) any_name headerless_file task [] []
  = (Some [("Sheet 1",
            AoaSheet [["No structured data was generated for this task."]])], []).
Proof. by vm_compute. Qed.

(** The header text "," lists no header and is not blank: the task gets
    the placeholder sheet. *)
Example export_comma_headers :
  let task :=
    {| task_id := "task-1"; name := "Sheet 1"; columnHeaders := ",";
       columnSeparators := JS.tab; eliminators := ""; findValues := "";
       replaceValues := ""; structuredDataPreview := None |} in
  CleanOcr.parse_headers (prims := ascii_prims) (columnHeaders task) = []
  ∧ export_task (prims := ascii_prims) any_name headerless_file task [] []
    = (Some [("Sheet 1",
              AoaSheet [["No structured data was generated for this task."]])], []).
Proof. split; by vm_compute. Qed.

End ExcelFacts.

(** ** The run *)

Module PipelineFacts.
Import Pipeline.

Lemma only_touches_refl (id : string) (fs : list ProcessedFile) :
  only_touches id fs fs.
Proof. apply Forall_Forall2_diag, Forall_forall. by intros f _. Qed.

Lemma only_touches_trans (id : string) (fs1 fs2 fs3 : list ProcessedFile) :
  only_touches id fs1 fs2 → only_touches id fs2 fs3 → only_touches id fs1 fs3.
Proof.
  unfold only_touches. intros H12 H23.
  eapply Forall2_trans; [| exact H12 | exact H23].
  intros f1 f2 f3 [Hid12 H12'] [Hid23 H23']. split; [congruence |].
  intros Hne. rewrite H23' by congruence. by apply H12'.
Qed.

Lemma only_touches_map (id : string) (g : ProcessedFile → ProcessedFile)
    (fs : list ProcessedFile) :
  (∀ f, file_id (g f) = file_id f) → (∀ f, file_id f ≠ id → g f = f) →
  only_touches id fs (map g fs).
Proof.
  intros Hid Hoff. unfold only_touches.
  induction fs as [|f fs IH]; simpl; constructor; [| exact IH].
  split; [apply Hid | apply Hoff].
Qed.

Lemma local_ret {A} (id : string) (a : A) : local_to id (ret a).
Proof. intros st r st' [= <- <-]. apply only_touches_refl. Qed.

Lemma local_call {A} (id : string) (r : Thrown + A) : local_to id (call r).
Proof. intros st r' st' [= <- <-]. apply only_touches_refl. Qed.

Lemma local_emit (id : string) (ev : Event) : local_to id (emit ev).
Proof. intros st r st' [= <- <-]. apply only_touches_refl. Qed.

Lemma local_bind {A B} (id : string) (m : M A) (k : A → M B) :
  local_to id m → (∀ a, local_to id (k a)) → local_to id (bind m k).
Proof.
  intros Hm Hk st r st' Hrun. unfold bind in Hrun.
  destruct (m st) as [[e | a] st1] eqn:Hm1.
  - injection Hrun as <- <-. by eapply Hm.
  - eapply only_touches_trans; [by eapply Hm | by eapply Hk].
Qed.

Lemma local_setFiles (id : string) (g : ProcessedFile → ProcessedFile) :
  (∀ f, file_id (g f) = file_id f) → (∀ f, file_id f ≠ id → g f = f) →
  local_to id (setFiles (map g)).
Proof. intros Hid Hoff st r st' [= <- <-]. simpl. by apply only_touches_map. Qed.

Ltac local_steps :=
  repeat first
    [ apply local_ret | apply local_call | apply local_emit
    | apply local_bind; [| intros ?] ].

Section RunFacts.
Context {prims : StringPrims}.
Context (settings : Settings) (env : Env).

Lemma local_image_to_recognize (id : string) (engine : OcrEngine)
    (pageNumber : nat) (r : Rendered) :
  local_to id (image_to_recognize settings env engine pageNumber r).
Proof.
  unfold image_to_recognize. destruct engine; try apply local_ret.
  destruct (JS.truthy _); [| apply local_ret].
  apply local_bind; [apply local_emit | intros _].
  destruct (preprocess env _ _ _); local_steps.
Qed.

Lemma local_recognize_page (id : string) (processedFile : ProcessedFile)
    (selectedLangs : list string) (engine : OcrEngine) (pageNumber : nat)
    (r : Rendered) (imageToRecognize : string) (acc : Acc) :
  local_to id (recognize_page settings env processedFile selectedLangs engine
                 pageNumber r imageToRecognize acc).
Proof. unfold recognize_page. destruct engine; local_steps. Qed.

Lemma with_progress_local (id : string) (p : Z) :
  let g := λ f, if bool_decide (file_id f = id) then with_progress f p else f in
  (∀ f, file_id (g f) = file_id f) ∧ (∀ f, file_id f ≠ id → g f = f).
Proof.
  split; intros f.
  - by destruct (bool_decide (file_id f = id)).
  - intros Hne. by rewrite bool_decide_eq_false_2.
Qed.

Lemma local_pages_loop (processedFile : ProcessedFile) (selectedLangs : list string)
    (engine : OcrEngine) (numPages : nat) (pages : list nat) (acc : Acc) :
  local_to (file_id processedFile)
    (pages_loop settings env processedFile selectedLangs engine numPages pages acc).
Proof.
  revert acc. induction pages as [|pageNumber rest IH]; intros acc; simpl.
  - apply local_ret.
  - apply local_bind; [apply local_call | intros [r |]]; [| apply IH].
    apply local_bind; [apply local_image_to_recognize | intros imageToRecognize].
    apply local_bind; [apply local_recognize_page | intros acc'].
    apply local_bind; [| intros _; apply IH].
    apply local_setFiles; apply with_progress_local.
Qed.

Lemma finish_entry_local (processedFile : ProcessedFile) (engine : OcrEngine)
    (acc : Acc) :
  (∀ f, file_id (finish_entry env processedFile engine acc f) = file_id f)
  ∧ (∀ f, file_id f ≠ file_id processedFile →
          finish_entry env processedFile engine acc f = f).
Proof.
  split; intros f; unfold finish_entry.
  - destruct (bool_decide _); [done |]. by destruct engine.
  - intros Hne. by rewrite bool_decide_eq_true_2.
Qed.

Lemma start_entry_local (processedFile : ProcessedFile) (selectedLangs : list string)
    (engine : OcrEngine) (isReOcr : bool) :
  (∀ f, file_id (start_entry processedFile selectedLangs engine isReOcr f) = file_id f)
  ∧ (∀ f, file_id f ≠ file_id processedFile →
          start_entry processedFile selectedLangs engine isReOcr f = f).
Proof.
  split; intros f; unfold start_entry.
  - by destruct (bool_decide _).
  - intros Hne. by rewrite bool_decide_eq_true_2.
Qed.

Lemma local_run_body (processedFile : ProcessedFile) (selectedLangs : list string)
    (engine : OcrEngine) :
  local_to (file_id processedFile)
    (run_body settings env processedFile selectedLangs engine).
Proof.
  unfold run_body.
  apply local_bind; [apply local_emit | intros _].
  apply local_bind; [apply local_call | intros dataUri].
  apply local_bind; [apply local_call | intros _].
  apply local_bind; [destruct engine; local_steps | intros worker].
  apply local_bind; [apply local_pages_loop | intros acc].
  apply local_bind; [destruct worker; local_steps | intros _].
  apply local_bind; [apply local_emit | intros _].
  apply local_setFiles; apply finish_entry_local.
Qed.

Lemma local_run_start (processedFile : ProcessedFile) (selectedLangs : list string)
    (engine : OcrEngine) :
  local_to (file_id processedFile) (run_start processedFile selectedLangs engine).
Proof. unfold run_start. apply local_setFiles; apply start_entry_local. Qed.

(** Writing the same entry over the file [id] wipes what was done to the
    entries of that file. *)
Lemma overwrite_touched (id : string) (entry : ProcessedFile)
    (fs fs' : list ProcessedFile) :
  only_touches id fs fs' →
  map (λ f, if bool_decide (file_id f = id) then entry else f) fs'
  = map (λ f, if bool_decide (file_id f = id) then entry else f) fs.
Proof.
  induction 1 as [|f f' fs fs' [Hid Hoff] _ IH]; [done |].
  simpl. rewrite IH, Hid. f_equal.
  destruct (decide (file_id f = id)) as [Heq | Hne].
  - by rewrite !bool_decide_eq_true_2.
  - rewrite !bool_decide_eq_false_2 by done. by apply Hoff.
Qed.

(** C9. When the [try] block of a run throws, wherever it does, the
    run leaves [files] as it was when the run started, except that every
    entry of the file is the snapshot the run was called with, its
    status set to error, its progress to 0 and its error to the message
    of the exception.  The entry therefore holds the recognition
    results, the tasks, the page images and the edited pages of the
    snapshot, and nothing the failed run produced. *)
Theorem failed_run_writes_snapshot (processedFile : ProcessedFile)
    (selectedLangs : list string) (engine : OcrEngine) (st st_thrown : St)
    (e : Thrown) :
  run_body settings env processedFile selectedLangs engine
    (run_start processedFile selectedLangs engine st).2 = (inl e, st_thrown) →
  let after := (processFile settings env processedFile selectedLangs engine st).2 in
  files after
  = map (λ f, if bool_decide (file_id f = file_id processedFile)
              then error_entry processedFile (errorMessage e) else f)
        (files st)
  ∧ (∀ f, f ∈ files after → file_id f = file_id processedFile →
       status f = error_status ∧ progress f = 0%Z
       ∧ error f = Some (errorMessage e)
       ∧ extractedData f = extractedData processedFile
       ∧ extractionTasks f = extractionTasks processedFile
       ∧ pageImages f = pageImages processedFile
       ∧ pageImageDimensions f = pageImageDimensions processedFile
       ∧ manuallyEditedPages f = manuallyEditedPages processedFile
       ∧ selectionRectangles f = selectionRectangles processedFile
       ∧ file_structuredDataPreview f = file_structuredDataPreview processedFile).
Proof.
  intros Hthrow after.
  assert (Hfiles : files after
            = map (λ f, if bool_decide (file_id f = file_id processedFile)
                        then error_entry processedFile (errorMessage e) else f)
                  (files st)).
  { unfold after, processFile, bind, try_catch.
    destruct (run_start processedFile selectedLangs engine st)
      as [[e0 | []] st1] eqn:Hstart; [discriminate Hstart |].
    simpl in Hthrow. rewrite Hthrow. cbn.
    apply overwrite_touched.
    eapply only_touches_trans.
    - eapply local_run_start. exact Hstart.
    - eapply local_run_body. exact Hthrow. }
  split; [exact Hfiles |].
  intros f Hin Hid. rewrite Hfiles in Hin.
  apply list_elem_of_fmap in Hin as [f0 [-> Hin]].
  destruct (bool_decide (file_id f0 = file_id processedFile)) eqn:Hdec.
  - by split_and!.
  - apply bool_decide_eq_false in Hdec. done.
Qed.

Lemma quiet_nil {A} (m : M A) :
  (∀ st r st', m st = (r, st') → log st' = log st) → quiet m.
Proof.
  intros Hm st r st' Hrun. exists []. rewrite app_nil_r.
  split; [by eapply Hm | apply not_elem_of_nil].
Qed.

Lemma quiet_ret {A} (a : A) : quiet (ret a).
Proof. apply quiet_nil. by intros st r st' [= <- <-]. Qed.

Lemma quiet_call {A} (r : Thrown + A) : quiet (call r).
Proof. apply quiet_nil. by intros st r' st' [= <- <-]. Qed.

Lemma quiet_setFiles (g : list ProcessedFile → list ProcessedFile) :
  quiet (setFiles g).
Proof. apply quiet_nil. by intros st r st' [= <- <-]. Qed.

Lemma quiet_emit (ev : Event) : ev ≠ TerminateWorker → quiet (emit ev).
Proof.
  intros Hev st r st' [= <- <-]. exists [ev]. split; [done |].
  rewrite list_elem_of_singleton. congruence.
Qed.

Lemma quiet_bind {A B} (m : M A) (k : A → M B) :
  quiet m → (∀ a, quiet (k a)) → quiet (bind m k).
Proof.
  intros Hm Hk st r st' Hrun. unfold bind in Hrun.
  destruct (m st) as [[e | a] st1] eqn:Hm1.
  - injection Hrun as <- <-. by eapply Hm.
  - destruct (Hm _ _ _ Hm1) as (evs1 & Hlog1 & Hnot1).
    destruct (Hk _ _ _ _ Hrun) as (evs2 & Hlog2 & Hnot2).
    exists (evs1 ++ evs2). rewrite Hlog2, Hlog1, app_assoc. split; [done |].
    rewrite elem_of_app. tauto.
Qed.

Lemma quiet_bind_thrown {A B} (m : M A) (k : A → M B) :
  quiet m → (∀ a, quiet_when_thrown (k a)) → quiet_when_thrown (bind m k).
Proof.
  intros Hm Hk st e st' Hrun. unfold bind in Hrun.
  destruct (m st) as [[e1 | a] st1] eqn:Hm1.
  - injection Hrun as <- <-. by eapply Hm.
  - destruct (Hm _ _ _ Hm1) as (evs1 & Hlog1 & Hnot1).
    destruct (Hk _ _ _ _ Hrun) as (evs2 & Hlog2 & Hnot2).
    exists (evs1 ++ evs2). rewrite Hlog2, Hlog1, app_assoc. split; [done |].
    rewrite elem_of_app. tauto.
Qed.

Ltac quiet_steps :=
  repeat first
    [ apply quiet_ret | apply quiet_call | apply quiet_setFiles
    | apply quiet_emit; discriminate
    | apply quiet_bind; [| intros ?] ].

Lemma quiet_pages_loop (processedFile : ProcessedFile) (selectedLangs : list string)
    (engine : OcrEngine) (numPages : nat) (pages : list nat) (acc : Acc) :
  quiet (pages_loop settings env processedFile selectedLangs engine numPages pages acc).
Proof.
  revert acc. induction pages as [|pageNumber rest IH]; intros acc; simpl.
  - apply quiet_ret.
  - apply quiet_bind; [apply quiet_call | intros [r |]]; [| apply IH].
    apply quiet_bind; [| intros imageToRecognize].
    { unfold image_to_recognize. destruct engine; try apply quiet_ret.
      destruct (JS.truthy _); [| apply quiet_ret].
      apply quiet_bind; [apply quiet_emit; discriminate | intros _].
      destruct (preprocess env _ _ _); quiet_steps. }
    apply quiet_bind; [| intros acc'].
    { unfold recognize_page. destruct engine; quiet_steps. }
    apply quiet_bind; [apply quiet_setFiles | intros _; apply IH].
Qed.

(** When the call of [terminate] does not throw, a [try] block that throws
    has not called it. *)
Lemma thrown_body_is_quiet (processedFile : ProcessedFile)
    (selectedLangs : list string) (engine : OcrEngine) :
  terminate env = inr () →
  quiet_when_thrown (run_body settings env processedFile selectedLangs engine).
Proof.
  intros Hterminate. unfold run_body.
  apply quiet_bind_thrown; [apply quiet_emit; discriminate | intros _].
  apply quiet_bind_thrown; [apply quiet_call | intros dataUri].
  apply quiet_bind_thrown; [apply quiet_call | intros _].
  apply quiet_bind_thrown; [destruct engine; quiet_steps | intros worker].
  apply quiet_bind_thrown; [apply quiet_pages_loop | intros acc].
  intros st e st' Hrun. exfalso.
  unfold bind, emit, call, ret, setFiles in Hrun.
  destruct worker; rewrite ?Hterminate in Hrun; discriminate Hrun.
Qed.

(** A run whose [try] block throws, anywhere but in the call of
    [terminate] itself, ends without a call of [terminate]: the events of
    the run do not include the termination of the worker. *)
Theorem failed_run_never_terminates (processedFile : ProcessedFile)
    (selectedLangs : list string) (engine : OcrEngine) (st st_thrown : St)
    (e : Thrown) :
  terminate env = inr () →
  run_body settings env processedFile selectedLangs engine
    (run_start processedFile selectedLangs engine st).2 = (inl e, st_thrown) →
  ∃ evs,
    log (processFile settings env processedFile selectedLangs engine st).2
    = log st ++ evs
    ∧ TerminateWorker ∉ evs.
Proof.
  intros Hterminate Hthrow.
  destruct (thrown_body_is_quiet processedFile selectedLangs engine Hterminate
              _ _ _ Hthrow) as (evs & Hlog & Hnot).
  exists (evs ++ [ConsoleError; Toast "Conversion failed"]).
  unfold processFile, bind, try_catch.
  destruct (run_start processedFile selectedLangs engine st)
    as [[e0 | []] st1] eqn:Hstart; [discriminate Hstart |].
  simpl in Hthrow. rewrite Hthrow. cbn. simpl in Hlog.
  injection Hstart as <-. simpl in Hlog. split.
  - rewrite Hlog, <- !app_assoc. reflexivity.
  - rewrite elem_of_app, !elem_of_cons, elem_of_nil.
    intros [? | [? | [? | ?]]]; done.
Qed.

End RunFacts.

(** C4, on a run with the Tesseract engine whose recognizer throws on
    the first page.  The worker is created and configured, the exception
    is caught and the document is set to the error state, and the worker
    is never terminated, where its termination is expected before the
    error state; the same run with a recognizer that works terminates
    the worker. *)
Theorem failed_run_leaves_worker_running :
  log failed_run
  = [ Toast "Processing Started (Tesseract.js)";
      WorkerCreated "eng";
      WorkerConfigured (Languages.ENG_CHARS +:+ Languages.SYMBOLS);
      ConsoleError;
      Toast "Conversion failed" ]
  ∧ (TerminateWorker ∉ log failed_run)
  ∧ map status (files failed_run) = [error_status]
  ∧ log successful_run
    = [ Toast "Processing Started (Tesseract.js)";
        WorkerCreated "eng";
        WorkerConfigured (Languages.ENG_CHARS +:+ Languages.SYMBOLS);
        TerminateWorker;
        Toast "Processing Complete" ]
  ∧ map status (files successful_run) = [completed].
Proof.
  assert (Hlog : log failed_run
                 = [ Toast "Processing Started (Tesseract.js)";
                     WorkerCreated "eng";
                     WorkerConfigured (Languages.ENG_CHARS +:+ Languages.SYMBOLS);
                     ConsoleError;
                     Toast "Conversion failed" ]) by (by vm_compute).
  split_and!.
  - exact Hlog.
  - rewrite Hlog, !elem_of_cons, elem_of_nil.
    intros [? | [? | [? | [? | [? | ?]]]]]; done.
  - by vm_compute.
  - by vm_compute.
  - by vm_compute.
Qed.

Lemma failed_run_never_terminates_witness :
  (terminate failing_env = inr ()
   ∧ run_body (prims := ascii_prims) fresh_settings failing_env waiting_file ["eng"]
       tesseract (run_start waiting_file ["eng"] tesseract waiting).2
     = (inl (ErrorObject "recognition failed"),
        {| files := files (run_start waiting_file ["eng"] tesseract waiting).2;
           log := [ Toast "Processing Started (Tesseract.js)";
                    WorkerCreated "eng";
                    WorkerConfigured (Languages.ENG_CHARS +:+ Languages.SYMBOLS) ] |}))
  ∧ ∃ evs, log failed_run = log waiting ++ evs ∧ TerminateWorker ∉ evs.
Proof.
  assert (H1 : terminate failing_env = inr ()) by reflexivity.
  pose (thrown :=
    {| files := files (run_start waiting_file ["eng"] tesseract waiting).2;
       log := [ Toast "Processing Started (Tesseract.js)";
                WorkerCreated "eng";
                WorkerConfigured (Languages.ENG_CHARS +:+ Languages.SYMBOLS) ] |}).
  assert (H2 : run_body (prims := ascii_prims) fresh_settings failing_env
                 waiting_file ["eng"] tesseract
                 (run_start waiting_file ["eng"] tesseract waiting).2
               = (inl (ErrorObject "recognition failed"), thrown))
    by (by vm_compute).
  split; [done |].
  exact (failed_run_never_terminates (prims := ascii_prims) fresh_settings
           failing_env waiting_file ["eng"] tesseract waiting thrown
           (ErrorObject "recognition failed") H1 H2).
Defined.

Lemma failed_run_writes_snapshot_witness :
  run_body (prims := ascii_prims) fresh_settings failing_env waiting_file ["eng"]
    tesseract (run_start waiting_file ["eng"] tesseract waiting).2
  = (inl (ErrorObject "recognition failed"),
     {| files := files (run_start waiting_file ["eng"] tesseract waiting).2;
        log := [ Toast "Processing Started (Tesseract.js)";
                 WorkerCreated "eng";
                 WorkerConfigured (Languages.ENG_CHARS +:+ Languages.SYMBOLS) ] |})
  ∧ files (processFile (prims := ascii_prims) fresh_settings failing_env
             waiting_file ["eng"] tesseract waiting).2
    = [error_entry waiting_file "recognition failed"].
Proof.
  pose (thrown :=
    {| files := files (run_start waiting_file ["eng"] tesseract waiting).2;
       log := [ Toast "Processing Started (Tesseract.js)";
                WorkerCreated "eng";
                WorkerConfigured (Languages.ENG_CHARS +:+ Languages.SYMBOLS) ] |}).
  assert (H : run_body (prims := ascii_prims) fresh_settings failing_env
                waiting_file ["eng"] tesseract
                (run_start waiting_file ["eng"] tesseract waiting).2
              = (inl (ErrorObject "recognition failed"), thrown))
    by (by vm_compute).
  split; [exact H |].
  exact (proj1 (failed_run_writes_snapshot (prims := ascii_prims) fresh_settings
                  failing_env waiting_file ["eng"] tesseract waiting thrown
                  (ErrorObject "recognition failed") H)).
Defined.

End PipelineFacts.

(** ** The file list *)

Module FileListFacts.
Import Structuring FileListView.

Lemma split_go_nonempty (sep : string) (skip : nat) (s : string) :
  JS.split_go sep skip s ≠ [].
Proof.
  revert skip. induction s as [|c s IH]; intros skip; simpl; [done |].
  destruct skip as [|k]; [| apply IH].
  destruct (JS.startsWith sep (String c s)); [done |].
  by destruct (JS.split_go sep 0 s).
Qed.

Lemma split_comma_length (s : string) : 1 ≤ length (JS.split "," s).
Proof.
  unfold JS.split. pose proof (split_go_nonempty "," 0 s) as Hne.
  destruct (JS.split_go "," 0 s); [done | simpl; lia].
Qed.

Lemma parse_values_length {prims : StringPrims} (s : string) :
  length (parse_values s)
  = if JS.truthy s then length (JS.split "," s) else 0.
Proof.
  unfold parse_values. destruct (JS.truthy s); [| done]. by rewrite length_map.
Qed.

Lemma processTask_corrections_off {prims : StringPrims} (f : ProcessedFile)
    (task : ExtractionTask) :
  useCorrections (parse_values (findValues task)) (parse_values (replaceValues task))
  = false →
  processTask f task = processTask f (without_corrections task).
Proof.
  intros Hoff. unfold processTask.
  destruct (extractedData f) as [data|]; [| done].
  change (columnHeaders (without_corrections task)) with (columnHeaders task).
  destruct (negb (JS.truthy (trim (columnHeaders task)))); [done |].
  f_equal. apply map_ext. intros pageData.
  by apply StructuringFacts.page_rows_corrections_off.
Qed.

(** Whenever the file list shows the warning that the numbers of 'Find'
    and 'Replace' items differ, [processTask] applies no correction: it
    returns what it returns for the task with both lists empty. *)
Theorem mismatch_warning_means_no_corrections {prims : StringPrims}
    (task : ExtractionTask) :
  correctionMismatch task = true →
  useCorrections (parse_values (findValues task)) (parse_values (replaceValues task))
  = false
  ∧ ∀ f, processTask f task = processTask f (without_corrections task).
Proof.
  intros Hwarn.
  assert (Hoff : useCorrections (parse_values (findValues task))
                   (parse_values (replaceValues task)) = false).
  { unfold correctionMismatch in Hwarn. apply andb_true_iff in Hwarn as [_ Hlen].
    apply negb_true_iff, Nat.eqb_neq in Hlen.
    unfold useCorrections. rewrite !parse_values_length.
    pose proof (split_comma_length (findValues task)) as Hf.
    pose proof (split_comma_length (replaceValues task)) as Hr.
    destruct (JS.truthy (findValues task)); [| done].
    apply andb_false_iff. right. apply Nat.eqb_neq.
    destruct (JS.truthy (replaceValues task)); lia. }
  split; [exact Hoff |]. intros f. by apply processTask_corrections_off.
Qed.

Lemma mismatch_warning_means_no_corrections_witness :
  correctionMismatch mismatched_task = true
  ∧ useCorrections (parse_values (prims := ascii_prims) (findValues mismatched_task))
      (parse_values (prims := ascii_prims) (replaceValues mismatched_task))
    = false.
Proof.
  assert (H : correctionMismatch mismatched_task = true) by reflexivity.
  split; [exact H |].
  exact (proj1 (mismatch_warning_means_no_corrections (prims := ascii_prims)
                  mismatched_task H)).
Defined.

(** *** The page shown *)

Lemma findIndex_Some {A} (P : A → bool) (l : list A) (i : nat) :
  findIndex P l = Some i → ∃ a, l !! i = Some a ∧ P a = true.
Proof.
  revert i. induction l as [|a l IH]; intros i; simpl; [done |].
  destruct (P a) eqn:HP.
  - intros [= <-]. by exists a.
  - destruct (findIndex P l) as [j|]; [| done].
    intros [= <-]. by apply IH.
Qed.

Lemma findIndex_unique (l : list PageData) (j : nat) (q : PageData) :
  NoDup (map page l) → l !! j = Some q →
  findIndex (λ p, page p =? page q) l = Some j.
Proof.
  revert j. induction l as [|a l IH]; intros j Hnd Hj; [done |].
  simpl in Hnd. apply NoDup_cons in Hnd as [Hnotin Hnd].
  destruct j as [|j]; simpl in *.
  - injection Hj as ->. by rewrite Nat.eqb_refl.
  - destruct (page a =? page q) eqn:Heq.
    + apply Nat.eqb_eq in Heq. exfalso. apply Hnotin. rewrite Heq.
      apply list_elem_of_fmap. exists q. split; [done |].
      by eapply list_elem_of_lookup_2.
    + by rewrite (IH j).
Qed.

Lemma pageIndex_in_range (currentPages : gmap string nat) (item : ProcessedFile)
    (i : nat) :
  pageIndex currentPages item = Some i → i < length (sortedExtractedData item).
Proof.
  unfold pageIndex. destruct (0 <? length _) eqn:Hlen; [| done].
  apply Nat.ltb_lt in Hlen. intros [= <-].
  destruct (findIndex _ _) as [j|] eqn:Hfind; simpl; [| done].
  apply findIndex_Some in Hfind as (a & Ha & _). by eapply lookup_lt_Some.
Qed.

(** When pages were extracted, the page shown is one of them, and so are
    the pages the Previous and the Next button lead to: none of the three
    is read outside the list. *)
Theorem page_shown_is_extracted (currentPages : gmap string nat)
    (item : ProcessedFile) (data : list PageData) :
  extractedData item = Some data → data ≠ [] →
  (∃ p, pageData currentPages item = Some p ∧ p ∈ data)
  ∧ (∃ p, previousTarget currentPages item = Some p ∧ p ∈ data)
  ∧ (∃ p, nextTarget currentPages item = Some p ∧ p ∈ data).
Proof.
  intros Hdata Hne.
  assert (Hsorted : sortedExtractedData item ≡ₚ data).
  { unfold sortedExtractedData. rewrite Hdata. apply StructuringFacts.sort_pages_perm. }
  assert (Hlen : 0 < length (sortedExtractedData item)).
  { rewrite Hsorted. destruct data; [done | simpl; lia]. }
  assert (Hin : ∀ i, i < length (sortedExtractedData item) →
            ∃ p, sortedExtractedData item !! i = Some p ∧ p ∈ data).
  { intros i Hi. destruct (lookup_lt_is_Some_2 _ _ Hi) as [p Hp].
    exists p. split; [done |]. rewrite <- Hsorted. by eapply list_elem_of_lookup_2. }
  destruct (pageIndex currentPages item) as [i|] eqn:Hindex.
  2: { unfold pageIndex in Hindex. apply Nat.ltb_lt in Hlen.
       by rewrite Hlen in Hindex. }
  pose proof (pageIndex_in_range _ _ _ Hindex) as Hi.
  split_and!.
  - unfold pageData. rewrite Hindex. simpl. by apply Hin.
  - unfold previousTarget. rewrite Hindex. simpl. apply Hin. lia.
  - unfold nextTarget. rewrite Hindex. simpl. apply Hin. lia.
Qed.

(** With distinct page numbers, none of them 0, choosing the page at a
    position of the sorted list shows the page at that position. *)
Theorem page_change_shows_chosen_page (currentPages : gmap string nat)
    (item : ProcessedFile) (data : list PageData) (j : nat) (q : PageData) :
  extractedData item = Some data → NoDup (map page data) →
  sortedExtractedData item !! j = Some q → page q ≠ 0 →
  pageIndex (handlePageChange (file_id item) (page q) currentPages) item = Some j
  ∧ pageData (handlePageChange (file_id item) (page q) currentPages) item = Some q.
Proof.
  intros Hdata Hnd Hj Hq.
  assert (Hsorted : sortedExtractedData item ≡ₚ data).
  { unfold sortedExtractedData. rewrite Hdata. apply StructuringFacts.sort_pages_perm. }
  assert (Hnd' : NoDup (map page (sortedExtractedData item))).
  { by rewrite Hsorted. }
  assert (Hcur : currentPageNumber (handlePageChange (file_id item) (page q) currentPages)
                   item = page q).
  { unfold currentPageNumber, handlePageChange. rewrite lookup_insert_eq.
    by destruct (page q). }
  assert (Hindex : pageIndex (handlePageChange (file_id item) (page q) currentPages)
                     item = Some j).
  { unfold pageIndex. rewrite Hcur.
    assert (Hlen : (0 <? length (sortedExtractedData item)) = true).
    { apply Nat.ltb_lt. apply lookup_lt_Some in Hj. lia. }
    rewrite Hlen. by rewrite (findIndex_unique _ j q). }
  split; [exact Hindex |]. unfold pageData. by rewrite Hindex.
Qed.

Lemma page_shown_is_extracted_witness :
  extractedData shuffled_file
  = Some [{| page := 4; tsv := "four" |}; {| page := 2; tsv := "two" |}]
  ∧ (∃ p, pageData ∅ shuffled_file = Some p
          ∧ p ∈ [{| page := 4; tsv := "four" |}; {| page := 2; tsv := "two" |}]).
Proof.
  split; [reflexivity |].
  apply (page_shown_is_extracted ∅ shuffled_file
           [{| page := 4; tsv := "four" |}; {| page := 2; tsv := "two" |}]);
    [reflexivity | discriminate].
Defined.

Lemma page_change_shows_chosen_page_witness :
  sortedExtractedData shuffled_file !! 1 = Some {| page := 4; tsv := "four" |}
  ∧ pageData (handlePageChange "list.pdf-0-5" 4 ∅) shuffled_file
    = Some {| page := 4; tsv := "four" |}.
Proof.
  split; [reflexivity |].
  apply (page_change_shows_chosen_page ∅ shuffled_file
           [{| page := 4; tsv := "four" |}; {| page := 2; tsv := "two" |}]
           1 {| page := 4; tsv := "four" |});
    [reflexivity | | reflexivity | discriminate].
  apply (bool_decide_unpack _). reflexivity.
Defined.

End FileListFacts.

(** ** Progress of a run *)

Module ProgressFacts.
Import Pipeline.
Local Open Scope Q_scope.

Lemma js_round_mono (a b : Q) : a <= b → (js_round a ≤ js_round b)%Z.
Proof. intros Hab. unfold js_round. apply Qfloor_resp_le. lra. Qed.

Lemma js_round_integer (z : Z) : js_round (inject_Z z) = z.
Proof.
  unfold js_round.
  pose proof (Qfloor_le (inject_Z z + (1 # 2))) as Hle.
  pose proof (Qlt_floor (inject_Z z + (1 # 2))) as Hlt.
  rewrite inject_Z_plus in Hlt. change (inject_Z 1) with 1 in Hlt.
  set (F := Qfloor (inject_Z z + (1 # 2))) in *.
  assert (H1 : inject_Z F < inject_Z (z + 1)).
  { rewrite inject_Z_plus. change (inject_Z 1) with 1. lra. }
  assert (H2 : inject_Z z < inject_Z (F + 1)).
  { rewrite inject_Z_plus. change (inject_Z 1) with 1. lra. }
  rewrite <- Zlt_Qlt in H1, H2. lia.
Qed.

(** The number [5 + (processedCount / numPages) * 95]. *)
Lemma progress_value_mono (c c' n : nat) :
  (0 < n)%nat → (c ≤ c')%nat →
  5 + (inject_Z (Z.of_nat c) / inject_Z (Z.of_nat n)) * 95
  <= 5 + (inject_Z (Z.of_nat c') / inject_Z (Z.of_nat n)) * 95.
Proof.
  intros Hn Hc.
  assert (Hn' : 0 < inject_Z (Z.of_nat n)).
  { change 0 with (inject_Z 0). rewrite <- Zlt_Qlt. lia. }
  assert (Hc' : inject_Z (Z.of_nat c) <= inject_Z (Z.of_nat c')).
  { rewrite <- Zle_Qle. lia. }
  assert (Hdiv : inject_Z (Z.of_nat c) / inject_Z (Z.of_nat n)
                 <= inject_Z (Z.of_nat c') / inject_Z (Z.of_nat n)).
  { unfold Qdiv. apply Qmult_le_compat_r; [done |].
    apply Qlt_le_weak, Qinv_lt_0_compat, Hn'. }
  lra.
Qed.

(** The progress written after each page of a run of [numPages] pages
    lies between 5 and 100, does not decrease as pages are processed, and
    is 100 when all the pages are processed. *)
Theorem progress_between_5_and_100 (c c' n : nat) :
  (0 < n)%nat → (c ≤ c')%nat → (c' ≤ n)%nat →
  (5 ≤ progress_of c n)%Z
  ∧ (progress_of c n ≤ progress_of c' n)%Z
  ∧ (progress_of c' n ≤ 100)%Z
  ∧ progress_of n n = 100%Z.
Proof.
  intros Hn Hc Hc'. unfold progress_of. split_and!.
  - apply Z.min_glb; [lia |].
    rewrite <- (js_round_integer 5) at 1. apply js_round_mono.
    pose proof (progress_value_mono 0 c n Hn (Nat.le_0_l c)) as Hzero.
    assert (Heq : 5 + (inject_Z (Z.of_nat 0) / inject_Z (Z.of_nat n)) * 95 == inject_Z 5).
    { change (inject_Z (Z.of_nat 0)) with 0. change (inject_Z 5) with 5.
      unfold Qdiv. ring. }
    rewrite Heq in Hzero. exact Hzero.
  - apply Z.min_le_compat_l, js_round_mono, progress_value_mono; done.
  - apply Z.le_min_l.
  - assert (Hn' : 0 < inject_Z (Z.of_nat n)).
    { change 0 with (inject_Z 0). rewrite <- Zlt_Qlt. lia. }
    assert (Heq : 5 + (inject_Z (Z.of_nat n) / inject_Z (Z.of_nat n)) * 95
                  == inject_Z 100).
    { change (inject_Z 100) with 100. field. lra. }
    rewrite (GeometryFacts.js_round_proper _ _ Heq), js_round_integer. done.
Qed.

Lemma progress_between_5_and_100_witness :
  ((0 < 3)%nat ∧ (1 ≤ 2)%nat ∧ (2 ≤ 3)%nat)
  ∧ (progress_of 1 3 ≤ progress_of 2 3)%Z.
Proof.
  assert (H1 : (0 < 3)%nat) by lia.
  assert (H2 : (1 ≤ 2)%nat) by lia.
  assert (H3 : (2 ≤ 3)%nat) by lia.
  split; [done |].
  exact (proj1 (proj2 (progress_between_5_and_100 1 2 3 H1 H2 H3))).
Defined.

End ProgressFacts.

(** ** More on the geometry mapper *)

Module DragFacts.
Import Geometry.
Local Open Scope Q_scope.

Lemma Qltb_proper (a a' b : Q) : a == a' → Qltb a b = Qltb a' b.
Proof.
  intros Heq. unfold Qltb.
  destruct (Qlt_le_dec a b), (Qlt_le_dec a' b); try done; lra.
Qed.

Lemma scale_proper (v v' d o : Q) : v == v' → scale v d o = scale v' d o.
Proof.
  intros Heq. unfold scale. apply GeometryFacts.js_round_proper. by rewrite Heq.
Qed.

(** The drag with its two ends exchanged. *)
Lemma drawnRect_swap (ds : DrawingState) (mp : MousePosition) :
  let r := drawnRect ds mp in
  let r' := drawnRect {| startX := x mp; startY := y mp |}
                      {| x := startX ds; y := startY ds |} in
  d_left r == d_left r' ∧ d_top r == d_top r'
  ∧ d_width r == d_width r' ∧ d_height r == d_height r'.
Proof.
  unfold drawnRect. cbn [d_left d_top d_width d_height startX startY x y].
  split_and!.
  - apply Q.min_comm.
  - apply Q.min_comm.
  - transitivity (Qabs (- (startX ds - x mp)));
      [symmetry; apply Qabs_opp | apply Qabs_wd; ring].
  - transitivity (Qabs (- (startY ds - y mp)));
      [symmetry; apply Qabs_opp | apply Qabs_wd; ring].
Qed.

(** The rectangle a drag adds does not depend on its direction: a drag
    from one corner to the opposite one and the drag back give the same
    outcome.  The rectangle drawn has its left and top at the smaller
    coordinates and a width and a height that are not negative. *)
Theorem drag_direction_does_not_matter (ds : DrawingState) (mp : MousePosition)
    (img : option ImageEl) (f : ProcessedFile) (pageNumber : nat) :
  handleMouseUp (Some ds) (Some mp) img f pageNumber
  = handleMouseUp (Some {| startX := x mp; startY := y mp |})
      (Some {| x := startX ds; y := startY ds |}) img f pageNumber
  ∧ 0 <= d_width (drawnRect ds mp) ∧ 0 <= d_height (drawnRect ds mp)
  ∧ d_left (drawnRect ds mp) <= startX ds ∧ d_left (drawnRect ds mp) <= x mp
  ∧ d_top (drawnRect ds mp) <= startY ds ∧ d_top (drawnRect ds mp) <= y mp.
Proof.
  split_and!; try apply Qabs_nonneg;
    try apply Q.le_min_l; try apply Q.le_min_r.
  pose proof (drawnRect_swap ds mp) as Hswap. cbv zeta in Hswap.
  destruct Hswap as (Hl & Ht & Hw & Hh).
  unfold handleMouseUp. destruct img as [img |]; [| done].
  set (r := drawnRect ds mp) in *.
  set (r' := drawnRect {| startX := x mp; startY := y mp |}
                      {| x := startX ds; y := startY ds |}) in *.
  assert (Hsmall : too_small r = too_small r').
  { unfold too_small. by rewrite (Qltb_proper _ _ 5 Hw), (Qltb_proper _ _ 5 Hh). }
  rewrite Hsmall. destruct (too_small r'); [done |].
  destruct (originalDimensions f pageNumber) as [original |]; [| done].
  do 2 f_equal. unfold scaledRect.
  by rewrite (scale_proper _ _ _ _ Hl), (scale_proper _ _ _ _ Ht),
       (scale_proper _ _ _ _ Hw), (scale_proper _ _ _ _ Hh).
Qed.

(** The scaled value of a coordinate grows with the coordinate. *)
Lemma scale_mono (v v' d o : Q) :
  0 < d → 0 <= o → v <= v' → (scale v d o ≤ scale v' d o)%Z.
Proof.
  intros Hd Ho Hv. unfold scale. apply ProgressFacts.js_round_mono.
  apply Qmult_le_compat_r; [| done].
  unfold Qdiv. apply Qmult_le_compat_r; [done |].
  apply Qlt_le_weak, Qinv_lt_0_compat, Hd.
Qed.

(** A rectangle drawn inside an image of positive display size maps to a
    rectangle with a left edge, a top edge, a width and a height that are
    not negative, and whose right and bottom edges pass the
    full-resolution image by at most one unit. *)
Theorem rectangle_inside_maps_inside (r : DrawnRect) (displayWidth displayHeight : Q)
    (original : Dimensions) :
  0 < displayWidth → 0 < displayHeight →
  0 <= dim_width original → 0 <= dim_height original →
  0 <= d_left r → 0 <= d_width r → d_left r + d_width r <= displayWidth →
  0 <= d_top r → 0 <= d_height r → d_top r + d_height r <= displayHeight →
  let mapped := scaledRect r displayWidth displayHeight original in
  (0 ≤ left mapped)%Z ∧ (0 ≤ top mapped)%Z
  ∧ (0 ≤ width mapped)%Z ∧ (0 ≤ height mapped)%Z
  ∧ inject_Z (left mapped + width mapped) <= dim_width original + 1
  ∧ inject_Z (top mapped + height mapped) <= dim_height original + 1.
Proof.
  intros Hdw Hdh How Hoh Hl Hw Hlw Ht Hh Hth mapped.
  assert (Hzero : ∀ d o, scale 0 d o = 0%Z).
  { intros d o. unfold scale.
    rewrite (GeometryFacts.js_round_proper _ (inject_Z 0)).
    - apply ProgressFacts.js_round_integer.
    - change (inject_Z 0) with 0. unfold Qdiv. ring. }
  assert (Hsum : ∀ a b d o, 0 < d → 0 <= o → a + b <= d →
            inject_Z (scale a d o + scale b d o) <= o + 1).
  { intros a b d o Hd Ho Hab. rewrite inject_Z_plus.
    pose proof (GeometryFacts.js_round_le ((a / d) * o)) as Ha.
    pose proof (GeometryFacts.js_round_le ((b / d) * o)) as Hb.
    unfold scale.
    assert (Hk : (a / d) * o + (b / d) * o <= o).
    { assert (Heq : (a / d) * o + (b / d) * o == ((a + b) / d) * o)
        by (field; lra).
      rewrite Heq.
      assert (Hq : (a + b) / d <= 1).
      { apply Qle_shift_div_r; lra. }
      nra. }
    lra. }
  unfold mapped, scaledRect.
  cbn [left top width height]. split_and!.
  - rewrite <- (Hzero displayWidth (dim_width original)). by apply scale_mono.
  - rewrite <- (Hzero displayHeight (dim_height original)). by apply scale_mono.
  - rewrite <- (Hzero displayWidth (dim_width original)). by apply scale_mono.
  - rewrite <- (Hzero displayHeight (dim_height original)). by apply scale_mono.
  - by apply Hsum.
  - by apply Hsum.
Qed.

Lemma rectangle_inside_maps_inside_witness :
  (d_left (drawnRect sample_drag.1 sample_drag.2)
   + d_width (drawnRect sample_drag.1 sample_drag.2) <= 500
   ∧ d_top (drawnRect sample_drag.1 sample_drag.2)
     + d_height (drawnRect sample_drag.1 sample_drag.2) <= 600)
  ∧ inject_Z (left (scaledRect (drawnRect sample_drag.1 sample_drag.2)
                      500 600 sample_dimensions)
              + width (scaledRect (drawnRect sample_drag.1 sample_drag.2)
                         500 600 sample_dimensions))
    <= dim_width sample_dimensions + 1.
Proof.
  assert (H1 : 0 < 500) by reflexivity.
  assert (H2 : 0 < 600) by reflexivity.
  assert (H3 : 0 <= dim_width sample_dimensions) by (cbv; discriminate).
  assert (H4 : 0 <= dim_height sample_dimensions) by (cbv; discriminate).
  assert (H5 : 0 <= d_left (drawnRect sample_drag.1 sample_drag.2))
    by (cbv; discriminate).
  assert (H6 : 0 <= d_width (drawnRect sample_drag.1 sample_drag.2))
    by (cbv; discriminate).
  assert (H7 : d_left (drawnRect sample_drag.1 sample_drag.2)
               + d_width (drawnRect sample_drag.1 sample_drag.2) <= 500)
    by (cbv; discriminate).
  assert (H8 : 0 <= d_top (drawnRect sample_drag.1 sample_drag.2))
    by (cbv; discriminate).
  assert (H9 : 0 <= d_height (drawnRect sample_drag.1 sample_drag.2))
    by (cbv; discriminate).
  assert (H10 : d_top (drawnRect sample_drag.1 sample_drag.2)
                + d_height (drawnRect sample_drag.1 sample_drag.2) <= 600)
    by (cbv; discriminate).
  split; [done |].
  exact (proj1 (proj2 (proj2 (proj2 (proj2
           (rectangle_inside_maps_inside (drawnRect sample_drag.1 sample_drag.2)
              500 600 sample_dimensions H1 H2 H3 H4 H5 H6 H7 H8 H9 H10)))))).
Defined.

End DragFacts.

(** ** More on the structuring engine *)

Module RowsFacts.
Import CleanOcr Structuring.

Section RowsFacts.
Context {prims : StringPrims}.

Lemma elem_of_concat_map {A B} (g : A → list B) (l : list A) (b : B) :
  b ∈ concat (map g l) ↔ ∃ a, a ∈ l ∧ b ∈ g a.
Proof.
  induction l as [|a l IH]; simpl.
  - rewrite elem_of_nil. split; [done | intros (a & Ha & _)]. by apply elem_of_nil in Ha.
  - rewrite elem_of_app, IH. split.
    + intros [Hb | (a' & Ha' & Hb)].
      * exists a. split; [left | done].
      * exists a'. split; [by right | done].
    + intros (a' & Ha' & Hb). apply elem_of_cons in Ha' as [-> | Ha'].
      * by left.
      * right. by exists a'.
Qed.

(** Every row [processTask] returns has the headers of the task other
    than [__proto__] as its keys, no other key, and a value that is not
    empty; and a row is only returned when the task has a header. *)
Theorem processTask_rows_have_the_headers (f : ProcessedFile)
    (task : ExtractionTask) (row : Row) :
  row ∈ processTask f task →
  parse_headers (columnHeaders task) ≠ []
  ∧ (∀ k, is_Some (row !! k)
          ↔ k ∈ parse_headers (columnHeaders task) ∧ k ≠ "__proto__")
  ∧ (∃ h v, row !! h = Some v ∧ v ≠ "").
Proof.
  unfold processTask. destruct (extractedData f) as [data |].
  2: { intros Hin. by apply elem_of_nil in Hin. }
  destruct (negb _).
  { intros Hin. by apply elem_of_nil in Hin. }
  rewrite elem_of_concat_map. intros (pageData & _ & Hin).
  unfold page_rows in Hin. destruct (negb _).
  { by apply elem_of_nil in Hin. }
  unfold cleanOcrData in Hin.
  destruct (parse_headers (columnHeaders task)) as [|h hs] eqn:Hheaders.
  { by apply elem_of_nil in Hin. }
  simpl in Hin.
  apply list_elem_of_filter in Hin as [Hcontent Hin].
  apply list_elem_of_fmap in Hin as (line & -> & _).
  split_and!.
  - done.
  - intros k. unfold row_of.
    rewrite CleanOcrFacts.fill_row_dom, lookup_empty.
    split; [intros [? | [? ?]]; done | auto].
  - by apply CleanOcrFacts.has_content_spec.
Qed.

(** *** The order of the pages *)

Lemma insert_page_sorted (x : PageData) (l : list PageData) :
  StronglySorted (λ a b, page a ≤ page b) l →
  StronglySorted (λ a b, page a ≤ page b) (insert_page x l).
Proof.
  induction 1 as [|y l Hl IH Hy]; simpl.
  - repeat constructor.
  - destruct (page x <=? page y) eqn:Hxy.
    + apply Nat.leb_le in Hxy. constructor; [by constructor |].
      constructor; [done |]. eapply Forall_impl; [exact Hy |].
      simpl. intros z Hz. lia.
    + apply Nat.leb_gt in Hxy. constructor; [exact IH |].
      rewrite StructuringFacts.insert_page_perm. constructor; [lia | done].
Qed.

Lemma sort_pages_sorted (l : list PageData) :
  StronglySorted (λ a b, page a ≤ page b) (sort_pages l).
Proof.
  induction l as [|x l IH]; simpl; [constructor |].
  by apply insert_page_sorted.
Qed.

Lemma same_page_same_entry (l : list PageData) (a b : PageData) :
  NoDup (map page l) → a ∈ l → b ∈ l → page a = page b → a = b.
Proof.
  induction l as [|c l IH]; simpl; intros Hnd Ha Hb Hab.
  - by apply elem_of_nil in Ha.
  - apply NoDup_cons in Hnd as [Hc Hnd].
    apply elem_of_cons in Ha as [-> | Ha]; apply elem_of_cons in Hb as [-> | Hb].
    + done.
    + exfalso. apply Hc. rewrite Hab. apply list_elem_of_fmap. by exists b.
    + exfalso. apply Hc. rewrite <- Hab. apply list_elem_of_fmap. by exists a.
    + by apply IH.
Qed.

Lemma sort_pages_of_permutation (d d' : list PageData) :
  d ≡ₚ d' → NoDup (map page d) → sort_pages d = sort_pages d'.
Proof.
  intros Hperm Hnd.
  apply (StronglySorted_unique_strong (λ a b, page a ≤ page b)).
  - intros a b Ha Hb Hab Hba.
    rewrite StructuringFacts.sort_pages_perm in Ha.
    rewrite StructuringFacts.sort_pages_perm, <- Hperm in Hb.
    apply (same_page_same_entry d); [done | done | done | lia].
  - apply sort_pages_sorted.
  - apply sort_pages_sorted.
  - by rewrite !StructuringFacts.sort_pages_perm.
Qed.

(** The rows of a task are the rows of the pages in ascending page order,
    whatever the order in which the results of the pages are stored: two
    files with the same edited pages and the same results, one result for
    a page, stored in different orders give the same rows. *)
Theorem processTask_ignores_stored_order (f f' : ProcessedFile)
    (task : ExtractionTask) (d d' : list PageData) :
  extractedData f = Some d → extractedData f' = Some d' →
  manuallyEditedPages f = manuallyEditedPages f' →
  d ≡ₚ d' → NoDup (map page d) →
  processTask f task = processTask f' task
  ∧ StronglySorted (λ a b, page a ≤ page b) (sort_pages d).
Proof.
  intros Hd Hd' Hedited Hperm Hnd. split; [| apply sort_pages_sorted].
  unfold processTask. rewrite Hd, Hd', Hedited.
  by rewrite (sort_pages_of_permutation d d').
Qed.

End RowsFacts.
Lemma processTask_rows_have_the_headers_witness :
  processTask (prims := ascii_prims) sample_file sample_task !! 0
  = Some (row_of (prims := ascii_prims) ["Name"; "Age"] JS.tab
            ("John" +:+ JS.tab +:+ "25"))
  ∧ ∃ h v, row_of (prims := ascii_prims) ["Name"; "Age"] JS.tab
             ("John" +:+ JS.tab +:+ "25") !! h = Some v
           ∧ v ≠ "".
Proof.
  assert (H : processTask (prims := ascii_prims) sample_file sample_task !! 0
              = Some (row_of (prims := ascii_prims) ["Name"; "Age"] JS.tab
                        ("John" +:+ JS.tab +:+ "25")))
    by (vm_compute; reflexivity).
  split; [exact H |].
  exact (proj2 (proj2 (processTask_rows_have_the_headers (prims := ascii_prims)
                         sample_file sample_task _ (list_elem_of_lookup_2 _ _ _ H)))).
Defined.

Lemma processTask_ignores_stored_order_witness :
  ([{| page := 4; tsv := "four" |}; {| page := 2; tsv := "two" |}]
   ≡ₚ [{| page := 2; tsv := "two" |}; {| page := 4; tsv := "four" |}])
  ∧ processTask (prims := ascii_prims) FileListView.shuffled_file sample_task
    = processTask (prims := ascii_prims) FileListView.ordered_file sample_task.
Proof.
  assert (H : [{| page := 4; tsv := "four" |}; {| page := 2; tsv := "two" |}]
              ≡ₚ [{| page := 2; tsv := "two" |}; {| page := 4; tsv := "four" |}])
    by apply perm_swap.
  split; [exact H |].
  refine (proj1 (processTask_ignores_stored_order (prims := ascii_prims)
                   FileListView.shuffled_file FileListView.ordered_file sample_task
                   _ _ eq_refl eq_refl eq_refl H _)).
  apply (bool_decide_unpack _). reflexivity.
Defined.

End RowsFacts.

(** ** The grid of a table *)

Module GridFacts.
Import Textract TextractGrid.

Section GridFacts.
Context {prims : StringPrims}.

Lemma cell_at_add_cell_here (words : gmap string Block) (g : Grid) (cell : Block)
    (r c : nat) :
  placed_at cell r c →
  cell_at (add_cell words g cell) r c = getCellText words cell.
Proof.
  intros (Hr & Hc & Hr0 & Hc0). unfold add_cell. rewrite Hr, Hc.
  destruct r as [|r]; [done |]. destruct c as [|c]; [done |].
  unfold cell_at. cbn [tableData]. rewrite lookup_insert_eq. simpl.
  by rewrite lookup_insert_eq.
Qed.

Lemma cell_at_add_cell_other (words : gmap string Block) (g : Grid) (cell : Block)
    (r c : nat) :
  ¬ placed_at cell r c →
  cell_at (add_cell words g cell) r c = cell_at g r c.
Proof.
  intros Hnot. unfold add_cell.
  destruct (RowIndex cell) as [[|r']|] eqn:Hr; try done.
  destruct (ColumnIndex cell) as [[|c']|] eqn:Hc; try done.
  unfold cell_at. cbn [tableData].
  destruct (decide (S r' = r)) as [<- | Hrne].
  - rewrite lookup_insert_eq. simpl.
    destruct (decide (S c' = c)) as [<- | Hcne].
    + exfalso. apply Hnot. by split_and!.
    + rewrite lookup_insert_ne by done.
      by destruct (tableData g !! S r').
  - by rewrite lookup_insert_ne.
Qed.

Lemma add_cell_max (words : gmap string Block) (g : Grid) (cell : Block) :
  maxRow g ≤ maxRow (add_cell words g cell)
  ∧ maxCol g ≤ maxCol (add_cell words g cell)
  ∧ ∀ r c, placed_at cell r c →
      r ≤ maxRow (add_cell words g cell) ∧ c ≤ maxCol (add_cell words g cell).
Proof.
  unfold add_cell.
  destruct (RowIndex cell) as [[|r']|] eqn:Hr;
    destruct (ColumnIndex cell) as [[|c']|] eqn:Hc; simpl;
    (split_and!; [lia | lia |]);
    intros r c (Hr' & Hc' & Hr0 & Hc0); simplify_eq; lia.
Qed.

Lemma fold_cells_max (words : gmap string Block) (cells : list Block) (g : Grid) :
  maxRow g ≤ maxRow (fold_left (add_cell words) cells g)
  ∧ maxCol g ≤ maxCol (fold_left (add_cell words) cells g)
  ∧ ∀ cell r c, cell ∈ cells → placed_at cell r c →
      r ≤ maxRow (fold_left (add_cell words) cells g)
      ∧ c ≤ maxCol (fold_left (add_cell words) cells g).
Proof.
  revert g. induction cells as [|cell cells IH]; intros g; simpl.
  - split_and!; [lia | lia |]. intros cell r c Hin. by apply elem_of_nil in Hin.
  - destruct (IH (add_cell words g cell)) as (Hrow & Hcol & Hplaced).
    destruct (add_cell_max words g cell) as (Hrow1 & Hcol1 & Hplaced1).
    split_and!; [lia | lia |].
    intros cell' r c Hin Hat. apply elem_of_cons in Hin as [-> | Hin].
    + destruct (Hplaced1 r c Hat). lia.
    + by eapply Hplaced.
Qed.

Lemma fold_cells_other (words : gmap string Block) (cells : list Block) (g : Grid)
    (r c : nat) :
  (∀ cell, cell ∈ cells → ¬ placed_at cell r c) →
  cell_at (fold_left (add_cell words) cells g) r c = cell_at g r c.
Proof.
  revert g. induction cells as [|cell cells IH]; intros g Hnone; simpl; [done |].
  rewrite IH.
  - apply cell_at_add_cell_other. apply Hnone. by left.
  - intros cell' Hin. apply Hnone. by right.
Qed.

Lemma fold_cells_here (words : gmap string Block) (pre post : list Block)
    (cell : Block) (g : Grid) (r c : nat) :
  placed_at cell r c → (∀ cell', cell' ∈ post → ¬ placed_at cell' r c) →
  cell_at (fold_left (add_cell words) (pre ++ cell :: post) g) r c
  = getCellText words cell.
Proof.
  intros Hat Hlast. rewrite fold_left_app. simpl.
  rewrite fold_cells_other by done. by apply cell_at_add_cell_here.
Qed.

Lemma rowsAsArrays_lookup (g : Grid) (r c : nat) :
  r < maxRow g → c < maxCol g →
  rowsAsArrays g !! r ≫= (.!! c) = Some (cell_at g (S r) (S c)).
Proof.
  intros Hr Hc. unfold rowsAsArrays.
  rewrite list_lookup_fmap, lookup_seq_lt by done. simpl.
  by rewrite list_lookup_fmap, lookup_seq_lt.
Qed.

(** The rows of a table are a grid: they all have the same length.  The
    text of a cell of the table stands in the row and the column the cell
    names (counted from 1), unless a later cell names the same place; a
    place of the grid that no cell names holds the empty string. *)
Theorem table_rows_place_cells (blocks : list Block) (table : Block)
    (pre post : list Block) (cell : Block) (r c : nat) :
  filter (λ b, is_table_cell (tableCellIds table) b = true) blocks
  = pre ++ cell :: post →
  RowIndex cell = Some (S r) → ColumnIndex cell = Some (S c) →
  (∀ cell', cell' ∈ post →
     ¬ (RowIndex cell' = Some (S r) ∧ ColumnIndex cell' = Some (S c))) →
  table_rows blocks table !! r ≫= (.!! c)
  = Some (getCellText (wordsById blocks) cell)
  ∧ (∃ n, Forall (λ row, length row = n) (table_rows blocks table))
  ∧ (∀ r' c' row,
       table_rows blocks table !! r' = Some row → c' < length row →
       (∀ cell', cell' ∈ pre ++ cell :: post →
          ¬ (RowIndex cell' = Some (S r') ∧ ColumnIndex cell' = Some (S c'))) →
       row !! c' = Some "").
Proof.
  intros Hcells Hr Hc Hlast. unfold table_rows. rewrite Hcells.
  set (words := wordsById blocks).
  set (g := fold_left (add_cell words) (pre ++ cell :: post) empty_grid).
  assert (Hat : placed_at cell (S r) (S c)) by (by split_and!).
  destruct (fold_cells_max words (pre ++ cell :: post) empty_grid)
    as (_ & _ & Hmax).
  destruct (Hmax cell (S r) (S c)) as [Hrmax Hcmax]; [| done |].
  { apply elem_of_app. right. by left. }
  fold g in Hrmax, Hcmax. split_and!.
  - rewrite rowsAsArrays_lookup by lia. f_equal.
    apply fold_cells_here; [done |].
    intros cell' Hin (Hr' & Hc' & _). by apply (Hlast cell' Hin).
  - exists (maxCol g). unfold rowsAsArrays. apply Forall_forall.
    intros row Hrow. apply list_elem_of_fmap in Hrow as (i & -> & _).
    by rewrite length_map, length_seq.
  - intros r' c' row Hrow Hc' Hnone. unfold rowsAsArrays in Hrow.
    rewrite list_lookup_fmap in Hrow.
    destruct (seq 1 (maxRow g) !! r') as [i |] eqn:Hi; [| done].
    apply lookup_seq in Hi as [-> Hr']. simpl in Hrow. injection Hrow as <-.
    rewrite length_map, length_seq in Hc'.
    rewrite list_lookup_fmap, lookup_seq_lt by done. simpl. f_equal.
    unfold g. rewrite fold_cells_other.
    + unfold cell_at, empty_grid. simpl. by rewrite lookup_empty.
    + intros cell' Hin (Hr'' & Hc'' & _). by apply (Hnone cell' Hin).
Qed.

End GridFacts.

Lemma table_rows_place_cells_witness :
  (filter (λ b, is_table_cell (tableCellIds (table "t" ["c11"; "c12"; "c21"; "c22"])) b
               = true) two_row_response
   = [cell "c11" 1 1 ["w1"]; cell "c12" 1 2 ["w2"]; cell "c21" 2 1 ["w3"]]
     ++ cell "c22" 2 2 ["w4"] :: []
   ∧ RowIndex (cell "c22" 2 2 ["w4"]) = Some 2
   ∧ ColumnIndex (cell "c22" 2 2 ["w4"]) = Some 2)
  ∧ table_rows (prims := ascii_prims) two_row_response
      (table "t" ["c11"; "c12"; "c21"; "c22"]) !! 1 ≫= (.!! 1)
    = Some (getCellText (prims := ascii_prims) (wordsById two_row_response)
              (cell "c22" 2 2 ["w4"])).
Proof.
  assert (H1 : filter (λ b, is_table_cell
                              (tableCellIds (table "t" ["c11"; "c12"; "c21"; "c22"])) b
                            = true) two_row_response
               = [cell "c11" 1 1 ["w1"]; cell "c12" 1 2 ["w2"]; cell "c21" 2 1 ["w3"]]
                 ++ cell "c22" 2 2 ["w4"] :: []) by (by vm_compute).
  assert (H2 : RowIndex (cell "c22" 2 2 ["w4"]) = Some 2) by reflexivity.
  assert (H3 : ColumnIndex (cell "c22" 2 2 ["w4"]) = Some 2) by reflexivity.
  assert (H4 : ∀ cell', cell' ∈ @nil Block →
                 ¬ (RowIndex cell' = Some 2 ∧ ColumnIndex cell' = Some 2)).
  { intros cell' Hin. by apply elem_of_nil in Hin. }
  split; [done |].
  exact (proj1 (table_rows_place_cells (prims := ascii_prims) two_row_response
                  (table "t" ["c11"; "c12"; "c21"; "c22"]) _ [] _ 1 1 H1 H2 H3 H4)).
Defined.

End GridFacts.

(** ** The workbook of an export *)

Module WorkbookFacts.
Import Excel.

Section WorkbookFacts.
Context {prims : StringPrims}.
Context (sheet_name_ok : list string → string → bool).
Context (write_ok : Workbook → bool).




End WorkbookFacts.
End WorkbookFacts.

Module SessionFacts.
Import Pipeline Handlers Previews Session.

Lemma keeps_ret P {A} (a : A) : keeps P (ret a).
Proof. intros st r st' HP [= <- <-]. done. Qed.

Lemma keeps_call P {A} (r : Thrown + A) : keeps P (call r).
Proof. intros st r' st' HP [= <- <-]. done. Qed.

Lemma keeps_emit P (ev : Event) : keeps P (emit ev).
Proof. intros st r st' HP [= <- <-]. done. Qed.

Lemma keeps_setFiles (P : list ProcessedFile → Prop) g :
  (∀ fs, P fs → P (g fs)) → keeps P (setFiles g).
Proof. intros Hg st r st' HP [= <- <-]. by apply Hg. Qed.

Lemma keeps_bind P {A B} (m : M A) (k : A → M B) :
  keeps P m → (∀ a, keeps P (k a)) → keeps P (bind m k).
Proof.
  intros Hm Hk st r st' HP. unfold bind.
  destruct (m st) as [[e | a] st1] eqn:Em; intros Heq.
  - injection Heq as <- <-. eapply Hm; eauto.
  - eapply Hk; [| exact Heq]. eapply Hm; eauto.
Qed.

Lemma keeps_try_catch P (body : M unit) (handler : Thrown → M unit) :
  keeps P body → (∀ e, keeps P (handler e)) → keeps P (try_catch body handler).
Proof.
  intros Hm Hk st r st' HP. unfold try_catch.
  destruct (body st) as [[e | a] st1] eqn:Em; intros Heq.
  - eapply Hk; [| exact Heq]. eapply Hm; eauto.
  - injection Heq as <- <-. eapply Hm; eauto.
Qed.

Lemma keeps_files_after P (m : M unit) (files : list ProcessedFile) :
  keeps P m → P files → P (files_after m files).
Proof.
  intros Hm HP. unfold files_after.
  destruct (m _) as [r st'] eqn:Em. eapply Hm; [| exact Em]. done.
Qed.

Ltac keeps_steps :=
  repeat first
    [ apply keeps_ret | apply keeps_call | apply keeps_emit
    | apply keeps_bind; [| intros ?] | apply keeps_try_catch; [| intros ?] ].

Section SessionFacts.
Context {prims : StringPrims}.

(** What [processTask] reads of the file and of the task. *)
Lemma processTask_reads (f f' : ProcessedFile) (t t' : ExtractionTask) :
  extractedData f' = extractedData f →
  manuallyEditedPages f' = manuallyEditedPages f →
  columnHeaders t' = columnHeaders t →
  columnSeparators t' = columnSeparators t →
  eliminators t' = eliminators t →
  findValues t' = findValues t →
  replaceValues t' = replaceValues t →
  Structuring.processTask f' t' = Structuring.processTask f t.
Proof.
  intros Hd Hm Hh Hs He Hf Hr.
  unfold Structuring.processTask, Structuring.page_rows, Structuring.separator_of.
  by rewrite Hd, Hm, Hh, Hs, He, Hf, Hr.
Qed.

Lemma processTask_clear_preview (f : ProcessedFile) (t : ExtractionTask) :
  Structuring.processTask f (clear_preview t) = Structuring.processTask f t.
Proof. by apply processTask_reads. Qed.

(** A file stays good when its tasks are changed one by one, with their
    ids and the data [processTask] reads as they were, if the previews of
    the changed tasks are right. *)
Lemma good_file_map_tasks (g : ExtractionTask → ExtractionTask)
    (f f' : ProcessedFile) :
  good_file f →
  extractedData f' = extractedData f →
  manuallyEditedPages f' = manuallyEditedPages f →
  extractionTasks f' = map g (extractionTasks f) →
  (∀ t, t ∈ extractionTasks f → task_id (g t) = task_id t) →
  (∀ t rows, t ∈ extractionTasks f →
     (∀ rows', structuredDataPreview t = Some rows' →
               rows' = Structuring.processTask f t) →
     structuredDataPreview (g t) = Some rows →
     rows = Structuring.processTask f (g t)) →
  good_file f'.
Proof.
  intros [Hnd Hpre] Hd Hm Ht Hid Hg. split; rewrite Ht.
  - rewrite <- list_fmap_compose.
    erewrite (list_fmap_ext (task_id ∘ g) task_id); [done |].
    intros i t Hi. simpl. apply Hid. by eapply list_elem_of_lookup_2.
  - apply Forall_fmap, Forall_forall. intros t Hin rows Hrows. simpl in *.
    rewrite (processTask_reads f f' (g t) (g t)) by done.
    apply Hg; [done | | done].
    rewrite Forall_forall in Hpre. by apply Hpre.
Qed.

Lemma good_file_same (f f' : ProcessedFile) :
  good_file f →
  extractedData f' = extractedData f →
  manuallyEditedPages f' = manuallyEditedPages f →
  extractionTasks f' = extractionTasks f →
  good_file f'.
Proof.
  intros Hgood Hd Hm Ht.
  apply (good_file_map_tasks id f f'); try done.
  - by rewrite list_fmap_id.
  - intros t rows _ Hold Hrows. by apply Hold.
Qed.

Lemma good_file_cleared (f f' : ProcessedFile) :
  NoDup (map task_id (extractionTasks f)) →
  extractionTasks f' = map clear_preview (extractionTasks f) →
  good_file f'.
Proof.
  intros Hnd Ht. split; rewrite Ht.
  - rewrite <- list_fmap_compose.
    by erewrite (list_fmap_ext (task_id ∘ clear_preview) task_id).
  - apply Forall_fmap, Forall_forall. by intros t Hin rows Hrows.
Qed.

Lemma valid_map (h : ProcessedFile → ProcessedFile) (files : list ProcessedFile) :
  (∀ f, f ∈ files → file_id (h f) = file_id f ∧ (good_file f → good_file (h f))) →
  valid files → valid (map h files).
Proof.
  intros Hh [Hnd Hgood]. split.
  - rewrite <- list_fmap_compose.
    erewrite (list_fmap_ext (file_id ∘ h) file_id); [done |].
    intros i f Hi. simpl. apply Hh. by eapply list_elem_of_lookup_2.
  - apply Forall_fmap, Forall_forall. intros f Hin. simpl.
    apply Hh; [done |]. rewrite Forall_forall in Hgood. by apply Hgood.
Qed.

Lemma valid_on_file (fileId : string) (g : ProcessedFile → ProcessedFile)
    (files : list ProcessedFile) :
  (∀ f, f ∈ files → file_id f = fileId →
        file_id (g f) = file_id f ∧ (good_file f → good_file (g f))) →
  valid files → valid (on_file fileId g files).
Proof.
  intros Hg. apply valid_map. intros f Hin.
  case_bool_decide; [by apply Hg | done].
Qed.

Lemma find_id_elem (fileId : string) (files : list ProcessedFile) f :
  List.find (λ f, bool_decide (file_id f = fileId)) files = Some f →
  f ∈ files ∧ file_id f = fileId.
Proof.
  intros Hfind. apply find_some in Hfind as [Hin Hid].
  split; [by apply list_elem_of_In | by apply bool_decide_eq_true in Hid].
Qed.

Lemma valid_good (files : list ProcessedFile) f :
  valid files → f ∈ files → good_file f.
Proof. intros [_ Hgood] Hin. rewrite Forall_forall in Hgood. by apply Hgood. Qed.

(** Entries of the same id are the same entry. *)
Lemma NoDup_fmap_elem_eq {A B} (key : A → B) (l : list A) (x y : A) :
  NoDup (map key l) → x ∈ l → y ∈ l → key x = key y → x = y.
Proof.
  induction l as [|z l IH]; intros Hnd Hx Hy Hk; [by apply elem_of_nil in Hx |].
  simpl in Hnd. apply NoDup_cons in Hnd as [Hz Hnd].
  apply elem_of_cons in Hx as [-> | Hx]; apply elem_of_cons in Hy as [-> | Hy].
  - done.
  - exfalso. apply Hz. rewrite Hk. by apply list_elem_of_fmap_2.
  - exfalso. apply Hz. rewrite <- Hk. by apply list_elem_of_fmap_2.
  - by apply IH.
Qed.

(** Sorting the pages in place does not change what [processTask]
    gives: it sorts them again, and the sort is stable. *)
Lemma sort_pages_of_sorted (l : list PageData) :
  StronglySorted (λ a b, page a ≤ page b) l → Structuring.sort_pages l = l.
Proof.
  induction 1 as [|x l Hl IH Hx]; [done |].
  simpl. rewrite IH. destruct l as [|y l']; [done |]. simpl.
  apply Forall_cons in Hx as [Hxy _].
  by apply Nat.leb_le in Hxy as ->.
Qed.

Lemma sort_pages_idem (l : list PageData) :
  Structuring.sort_pages (Structuring.sort_pages l) = Structuring.sort_pages l.
Proof.
  apply sort_pages_of_sorted, RowsFacts.sort_pages_sorted.
Qed.

Lemma processTask_sorted_in_place (f : ProcessedFile) (task : ExtractionTask) :
  Structuring.processTask (sorted_in_place f) task = Structuring.processTask f task.
Proof.
  unfold Structuring.processTask. simpl.
  destruct (extractedData f) as [data |]; [| done]. simpl.
  by rewrite sort_pages_idem.
Qed.

Lemma good_file_sorted_in_place (f : ProcessedFile) :
  good_file f → good_file (sorted_in_place f).
Proof.
  intros [Hnd Hright]. split; [done |]. simpl.
  eapply Forall_impl; [exact Hright |]. intros task Htask rows Hrows.
  rewrite processTask_sorted_in_place. by apply Htask.
Qed.

Lemma on_first_spec (fileId : string) (g : ProcessedFile → ProcessedFile)
    (files : list ProcessedFile) :
  match List.find (λ f, bool_decide (file_id f = fileId)) files with
  | None => on_first fileId g files = files
  | Some pf =>
      ∃ i, files !! i = Some pf ∧ on_first fileId g files = <[i := g pf]> files
  end.
Proof.
  induction files as [|f rest IH]; [done |]. simpl.
  case_bool_decide as Hid.
  - by exists 0.
  - destruct (List.find _ rest) as [pf |].
    + destruct IH as (i & Hi & ->). by exists (S i).
    + by rewrite IH.
Qed.

Lemma valid_insert (i : nat) (f f' : ProcessedFile) (files : list ProcessedFile) :
  files !! i = Some f → file_id f' = file_id f → good_file f' →
  valid files → valid (<[i := f']> files).
Proof.
  intros Hi Hid Hgood [Hnd Hall]. split.
  - rewrite list_fmap_insert, Hid.
    rewrite list_insert_id; [done |]. by rewrite list_lookup_fmap, Hi.
  - by apply Forall_insert.
Qed.

Lemma valid_on_first_sorted (fileId : string) (files : list ProcessedFile) :
  valid files → valid (on_first fileId sorted_in_place files).
Proof.
  intros Hvalid. pose proof (on_first_spec fileId sorted_in_place files) as Hspec.
  destruct (List.find _ files) as [pf |]; [| by rewrite Hspec].
  destruct Hspec as (i & Hi & ->).
  apply (valid_insert i pf); try done.
  apply good_file_sorted_in_place. eapply valid_good; [done |].
  by eapply list_elem_of_lookup_2.
Qed.

Lemma on_first_elem (fileId : string) (files : list ProcessedFile)
    (pf f : ProcessedFile) :
  NoDup (map file_id files) →
  List.find (λ f, bool_decide (file_id f = fileId)) files = Some pf →
  f ∈ on_first fileId sorted_in_place files → file_id f = fileId →
  f = sorted_in_place pf.
Proof.
  intros Hnd Hfind Hf Hid.
  pose proof (on_first_spec fileId sorted_in_place files) as Hspec.
  rewrite Hfind in Hspec. destruct Hspec as (i & Hi & Heq). rewrite Heq in Hf.
  apply find_id_elem in Hfind as [Hpf Hpfid].
  apply list_elem_of_lookup in Hf as [j Hj].
  destruct (decide (j = i)) as [-> | Hne].
  - rewrite list_lookup_insert_eq in Hj by (by eapply lookup_lt_Some). congruence.
  - rewrite list_lookup_insert_ne in Hj by done.
    assert (f = pf) as ->.
    { eapply (NoDup_fmap_elem_eq file_id); eauto; [| congruence].
      by eapply list_elem_of_lookup_2. }
    exfalso. apply Hne. eapply NoDup_lookup; [exact Hnd | |].
    + by rewrite list_lookup_fmap, Hj.
    + by rewrite list_lookup_fmap, Hi.
Qed.



(** *** The runs *)

Lemma image_to_recognize_keeps P settings env engine pageNumber r :
  keeps P (image_to_recognize settings env engine pageNumber r).
Proof.
  unfold image_to_recognize.
  destruct engine; try apply keeps_ret.
  destruct (JS.truthy _); [| apply keeps_ret].
  keeps_steps. destruct (preprocess _ _ _ _); keeps_steps.
Qed.

Lemma recognize_page_keeps P settings env pf langs engine pageNumber r image acc :
  keeps P (recognize_page settings env pf langs engine pageNumber r image acc).
Proof. unfold recognize_page. destruct engine; keeps_steps. Qed.

Lemma with_progress_valid (fileId : string) (p : Z) (files : list ProcessedFile) :
  valid files →
  valid (map (λ f, if bool_decide (file_id f = fileId)
                   then with_progress f p else f) files).
Proof.
  apply valid_map. intros f _. case_bool_decide; [| done].
  split; [done |]. intros Hgood. by apply (good_file_same f).
Qed.

Lemma pages_loop_keeps settings env pf langs engine numPages pages acc :
  keeps valid (pages_loop settings env pf langs engine numPages pages acc).
Proof.
  revert acc. induction pages as [|pageNumber rest IH]; intros acc; simpl.
  - apply keeps_ret.
  - keeps_steps.
    match goal with |- keeps _ (match ?x with _ => _ end) => destruct x as [r |] end;
      [| apply IH].
    keeps_steps; [apply image_to_recognize_keeps | apply recognize_page_keeps | | apply IH].
    apply keeps_setFiles. apply with_progress_valid.
Qed.

Lemma start_entry_valid pf langs engine isReOcr (files : list ProcessedFile) :
  valid files → valid (map (start_entry pf langs engine isReOcr) files).
Proof.
  apply valid_map. intros f _. unfold start_entry.
  case_bool_decide; [done |]. split; [done |].
  intros [Hnd _]. by apply (good_file_cleared f).
Qed.

Lemma finish_entry_valid env pf engine acc (files : list ProcessedFile) :
  valid files → valid (map (finish_entry env pf engine acc) files).
Proof.
  apply valid_map. intros f _. unfold finish_entry.
  case_bool_decide; [done |].
  assert (∀ f', extractionTasks f'
                = (if 0 <? length (extractionTasks f)
                   then map clear_preview (extractionTasks f)
                   else [newTask ("task-" +:+ now env) "Sheet 1"]) →
                good_file f → good_file f') as Hother.
  { intros f' Ht [Hnd _]. destruct (0 <? _).
    - by apply (good_file_cleared f).
    - split; rewrite Ht; simpl.
      + apply NoDup_singleton.
      + by repeat constructor. }
  destruct engine; split; try done; by apply Hother.
Qed.

Lemma error_entry_valid pf message (files : list ProcessedFile) :
  good_file pf →
  valid files →
  valid (map (λ f, if bool_decide (file_id f = file_id pf)
                   then error_entry pf message else f) files).
Proof.
  intros Hpf. apply valid_map. intros f _.
  case_bool_decide as Hid; [| done]. split; [done |].
  intros _. by apply (good_file_same pf).
Qed.

Lemma processFile_keeps settings env pf langs engine :
  good_file pf → keeps valid (processFile settings env pf langs engine).
Proof.
  intros Hpf. unfold processFile, run_start, run_body, run_catch.
  keeps_steps.
  - apply keeps_setFiles, start_entry_valid.
  - destruct engine; keeps_steps.
  - apply pages_loop_keeps.
  - match goal with |- keeps _ (if ?b then _ else _) => destruct b end; keeps_steps.
  - apply keeps_setFiles, finish_entry_valid.
  - apply keeps_setFiles. intros fs. by apply error_entry_valid.
Qed.

Lemma previews_loop_keeps penv fileId numPages remaining i previews dimensions :
  keeps valid (previews_loop penv fileId numPages remaining i previews dimensions).
Proof.
  revert i previews dimensions.
  induction remaining as [|remaining IH]; intros i previews dimensions; simpl.
  - apply keeps_ret.
  - keeps_steps; [| apply IH].
    apply keeps_setFiles. apply with_progress_valid.
Qed.

Lemma generatePagePreviews_keeps penv fileId :
  keeps valid (generatePagePreviews penv fileId).
Proof.
  unfold generatePagePreviews. keeps_steps.
  - apply previews_loop_keeps.
  - apply keeps_setFiles. intros fs. apply valid_on_file. intros f _ _.
    split; [done |]. intros Hgood. by apply (good_file_same f).
  - apply keeps_setFiles. intros fs. apply valid_on_file. intros f _ _.
    split; [done |]. intros Hgood. by apply (good_file_same f).
Qed.

Lemma previews_of_all_keeps penv new : keeps valid (previews_of_all penv new).
Proof.
  induction new as [|f rest IH]; simpl; [apply keeps_ret |].
  apply keeps_bind; [apply generatePagePreviews_keeps | intros _; apply IH].
Qed.

Lemma handleReprocess_keeps penv fileId : keeps valid (handleReprocess penv fileId).
Proof.
  intros st r st' Hvalid. unfold handleReprocess.
  destruct (List.find _ _) as [pf |] eqn:Hfind; [| by intros [= <- <-]].
  apply find_id_elem in Hfind as [Hin Hid].
  pose proof (valid_good _ _ Hvalid Hin) as [Hnd _].
  assert (keeps valid
            (exec setFiles (map (λ f, if bool_decide (file_id f = fileId)
                                      then resetFile pf else f)) in
             generatePagePreviews penv (file_id pf))) as Hkeeps.
  { apply keeps_bind; [| intros _; apply generatePagePreviews_keeps].
    apply keeps_setFiles. intros fs. apply valid_map. intros f _.
    case_bool_decide as Hf; [| done]. split; [simpl; congruence |].
    intros _. by apply (good_file_cleared pf). }
  by apply Hkeeps.
Qed.

(** *** The uploads *)

Lemma onFilesAdded_valid engine languages key addedFiles files files' new :
  NoDup (map file_key addedFiles) →
  valid files →
  onFilesAdded engine languages key addedFiles files = Accepted files' new →
  valid files'.
Proof.
  intros Hkeys [Hnd Hgood]. unfold onFilesAdded.
  destruct (_ && _); [done |]. destruct (_ && _); [done |].
  intros [= <- <-]. split.
  - rewrite fmap_app. apply NoDup_app. split_and!; [done | |].
    + intros id Hold Hnew.
      apply list_elem_of_fmap in Hnew as (new & -> & Hnew).
      apply list_elem_of_filter in Hnew as [Hfresh _].
      apply list_elem_of_fmap in Hold as (old & Hid & Hold).
      assert (existsb (λ existing, bool_decide (file_id existing = file_id new))
                      files = true) as Hex; [| congruence].
      apply existsb_exists. exists old.
      split; [by apply list_elem_of_In | by apply bool_decide_eq_true].
    + induction addedFiles as [|file rest IH]; simpl; [constructor |].
      simpl in Hkeys. apply NoDup_cons in Hkeys as [Hkey Hkeys].
      rewrite filter_cons. case_decide; [| by apply IH].
      simpl. apply NoDup_cons. split; [| by apply IH].
      intros Hin. apply Hkey.
      apply list_elem_of_fmap in Hin as (new & Hid & Hin).
      apply list_elem_of_filter in Hin as [_ Hin].
      apply list_elem_of_fmap in Hin as (file' & -> & Hin).
      simpl in Hid. rewrite Hid. by apply list_elem_of_fmap_2.
  - apply Forall_app. split; [done |].
    apply Forall_forall. intros new Hnew.
    apply list_elem_of_filter in Hnew as [_ Hnew].
    apply list_elem_of_fmap in Hnew as (file & -> & _).
    split; simpl; constructor.
Qed.

(** *** Every action *)

Lemma act_valid (a : Action) (files : list ProcessedFile) :
  valid files → allowed a files → valid (act a files).
Proof.
  intros Hvalid Hallowed. destruct a; simpl in *.
  - (* FilesAdded *)
    destruct (onFilesAdded _ _ _ _ _) as [| | files' new] eqn:Hadd; try done.
    apply keeps_files_after; [apply previews_of_all_keeps |].
    by eapply onFilesAdded_valid.
  - (* ClearAll *)
    split; constructor.
  - (* PageSelectionChange *)
    revert Hvalid. apply valid_on_file. intros f _ _. split; [done |].
    intros Hgood. by apply (good_file_same f).
  - (* SelectAllPages *)
    revert Hvalid. apply valid_map. intros f _.
    destruct (totalPages f) as [[|k] |]; try done.
    case_bool_decide; [| done]. split; [done |].
    intros Hgood. by apply (good_file_same f).
  - (* StartProcessing *)
    unfold handleStartProcessing.
    destruct (List.find _ _) as [pf |] eqn:Hfind; [| done].
    destruct (_ =? _); [done |]. simpl.
    apply find_id_elem in Hfind as [Hin _].
    apply (keeps_files_after valid); [| done].
    apply processFile_keeps. by eapply valid_good.
  - (* ReOcr *)
    unfold handleReOcr.
    destruct (List.find _ _) as [pf |] eqn:Hfind; [| done].
    destruct (ocrEngine pf) as [engine |]; [| done].
    destruct (languages pf) as [langs |]; [| done]. simpl.
    apply find_id_elem in Hfind as [Hin _].
    apply (keeps_files_after valid); [| done].
    apply processFile_keeps. by eapply valid_good.
  - (* Reprocess *)
    apply keeps_files_after; [apply handleReprocess_keeps | done].
  - (* TextChange *)
    revert Hvalid. apply valid_on_file. intros f _ _. split; [done |].
    intros [Hnd _]. by apply (good_file_cleared f).
  - (* SetSelectionRectangles *)
    revert Hvalid. apply valid_on_file. intros f _ _. split; [done |].
    intros [Hnd _]. by apply (good_file_cleared f).
  - (* AddTask *)
    revert Hvalid. apply valid_on_file. intros f Hin Hid. split; [done |].
    intros [Hnd Hpre]. rewrite Forall_forall in Hallowed.
    split; simpl.
    + rewrite fmap_app. apply NoDup_app. split_and!; [done | | apply NoDup_singleton].
      intros id Hold Hnew. apply list_elem_of_singleton in Hnew as ->.
      by apply (Hallowed f Hin Hid).
    + apply Forall_app. split; [| by repeat constructor].
      eapply Forall_impl; [exact Hpre |]. intros t Ht rows Hrows.
      rewrite (Ht rows Hrows). by apply processTask_reads.
  - (* RemoveTask *)
    revert Hvalid. apply valid_on_file. intros f _ _. split; [done |].
    intros [Hnd Hpre]. split; simpl.
    + eapply sublist_NoDup; [exact Hnd |].
      apply fmap_sublist, sublist_filter.
    + apply Forall_forall. intros t Ht rows Hrows.
      apply list_elem_of_filter in Ht as [_ Ht].
      rewrite Forall_forall in Hpre. rewrite (Hpre t Ht rows Hrows).
      by apply processTask_reads.
  - (* UpdateTask *)
    revert Hvalid. apply valid_on_file. intros f _ _. split; [done |].
    intros Hgood.
    eapply (good_file_map_tasks _ f); [done | done | done | reflexivity | |].
    + intros t _. simpl. case_bool_decide; [| done].
      simpl. by rewrite Hallowed.
    + intros t rows _ Hold. simpl. case_bool_decide; [done |]. apply Hold.
  - (* PreviewData *)
    unfold handlePreviewData.
    destruct (List.find _ files) as [pf |] eqn:Hfind; [| done].
    destruct (List.find _ (extractionTasks pf)) as [task |] eqn:Htask; [| done].
    destruct (negb _); [done |].
    pose proof (valid_on_first_sorted fileId files Hvalid) as Hsorted.
    destruct fails; [done |]. simpl.
    apply find_some in Htask as [Htin Htid].
    apply list_elem_of_In in Htin. apply bool_decide_eq_true in Htid.
    pose proof Hvalid as [Hnd _].
    revert Hsorted. apply valid_on_file. intros f Hfin Hfid. split; [done |].
    assert (f = sorted_in_place pf) as -> by (by eapply on_first_elem).
    intros Hgood.
    eapply (good_file_map_tasks _ (sorted_in_place pf));
      [done | done | done | reflexivity | |].
    + intros t _. simpl. by case_bool_decide.
    + intros t rows Ht Hold. simpl. case_bool_decide as Ht_id; [| apply Hold].
      simpl. intros [= <-].
      assert (t = task) as ->.
      { destruct Hgood as [Hndt _].
        eapply (NoDup_fmap_elem_eq task_id); eauto. congruence. }
      rewrite processTask_sorted_in_place. symmetry. by apply processTask_reads.
  - (* Download *)
    destruct (files !! index) as [f |] eqn:Hindex; [| done].
    + apply (valid_insert index f); try done.
      * unfold export_effect. by repeat case_match.
      * assert (good_file f) as Hgood.
        { eapply valid_good; [done |]. by eapply list_elem_of_lookup_2. }
        unfold export_effect. repeat case_match; try done;
          by apply good_file_sorted_in_place.
  - (* RunAiSuggestions *)
    unfold handleRunAiSuggestions.
    destruct (negb _); [done |].
    destruct outcome as [e | aiSuggestions]; simpl.
    + revert Hvalid. apply valid_on_file. intros f _ _. split; [done |].
      intros Hgood. by apply (good_file_same f).
    + revert Hvalid. apply valid_on_file. intros f _ _. split; [done |].
      intros Hgood.
      eapply (good_file_map_tasks _ f); [done | done | done | reflexivity | |].
      * intros t _. simpl. by case_bool_decide.
      * intros t rows _ Hold. simpl. case_bool_decide; [done |]. apply Hold.
Qed.

Lemma session_valid (actions : list Action) (files : list ProcessedFile) :
  valid files → all_allowed actions files → valid (session actions files).
Proof.
  revert files. induction actions as [|a rest IH]; intros files Hvalid; simpl.
  - done.
  - intros [Ha Hrest]. apply IH; [by apply act_valid | done].
Qed.

(** *** The export *)

Context (sheet_name_ok : list string → string → bool).
Context (write_ok : Excel.Workbook → bool).

Lemma finalData_without_previews (f : ProcessedFile) (task : ExtractionTask) :
  (∀ rows, structuredDataPreview task = Some rows →
           rows = Structuring.processTask f task) →
  Excel.finalData (without_previews f) (clear_preview task) = Excel.finalData f task.
Proof.
  intros Hright. unfold Excel.finalData. simpl.
  rewrite (processTask_reads f (without_previews f) task (clear_preview task))
    by done.
  destruct (structuredDataPreview task) as [rows |]; [| done].
  symmetry. by apply Hright.
Qed.

Lemma export_tasks_without_previews (f : ProcessedFile)
    (tasks : list ExtractionTask) (wb : Excel.Workbook) (ts : list Excel.Toast) :
  Forall (λ task, ∀ rows, structuredDataPreview task = Some rows →
                          rows = Structuring.processTask f task) tasks →
  Excel.export_tasks sheet_name_ok (without_previews f) (map clear_preview tasks) wb ts
  = Excel.export_tasks sheet_name_ok f tasks wb ts.
Proof.
  intros Hright. revert wb ts.
  induction Hright as [|task tasks Htask Htasks IH]; intros wb ts; [done |].
  simpl. unfold Excel.export_task.
  rewrite (finalData_without_previews f task Htask). simpl.
  destruct (0 <? length _); [destruct (Excel.book_append_sheet _ _ _ _); by rewrite ?IH |].
  destruct (JS.truthy _); [destruct (Excel.book_append_sheet _ _ _ _) |]; by rewrite ?IH.
Qed.

Lemma export_without_previews (f : ProcessedFile) :
  good_file f →
  Excel.generateAndDownloadExcel sheet_name_ok write_ok (without_previews f)
  = Excel.generateAndDownloadExcel sheet_name_ok write_ok f.
Proof.
  intros [_ Hright]. unfold Excel.generateAndDownloadExcel.
  change (ocrEngine (without_previews f)) with (ocrEngine f).
  change (file_structuredDataPreview (without_previews f))
    with (file_structuredDataPreview f).
  change (extractionTasks (without_previews f))
    with (map clear_preview (extractionTasks f)).
  rewrite length_map.
  by rewrite (export_tasks_without_previews f (extractionTasks f) _ _ Hright).
Qed.

(** In a session that starts without files, in which the files of an
    upload differ, new tasks get new ids and tasks keep their ids: the ids
    of the files differ, the ids of the tasks of a file differ, and every
    preview kept in a task is what [processTask] gives for the file and
    the task as they are now. *)
Theorem previews_are_never_stale (actions : list Action) :
  all_allowed actions [] →
  NoDup (map file_id (session actions []))
  ∧ ∀ f, f ∈ session actions [] →
      NoDup (map task_id (extractionTasks f))
      ∧ ∀ task rows, task ∈ extractionTasks f →
          structuredDataPreview task = Some rows →
          rows = Structuring.processTask f task.
Proof.
  intros Hallowed.
  destruct (session_valid actions []) as [Hids Hgood]; [by split; constructor | done |].
  split; [done |]. intros f Hf.
  rewrite Forall_forall in Hgood. destruct (Hgood f Hf) as [Htasks Hright].
  split; [done |]. intros task rows Htask.
  rewrite Forall_forall in Hright. by apply Hright.
Qed.

(** After such a session the workbook of a file, and the notices of its
    export, are those of the file with no preview kept: what is
    downloaded is computed from the text and the rules as they are. *)
Theorem export_after_a_session_is_fresh (actions : list Action) (f : ProcessedFile) :
  all_allowed actions [] →
  f ∈ session actions [] →
  Excel.generateAndDownloadExcel sheet_name_ok write_ok f
  = Excel.generateAndDownloadExcel sheet_name_ok write_ok (without_previews f).
Proof.
  intros Hallowed Hf. symmetry. apply export_without_previews.
  eapply valid_good; [| exact Hf].
  apply session_valid; [by split; constructor | done].
Qed.

End SessionFacts.
Lemma previews_are_never_stale_witness :
  all_allowed (prims := ascii_prims) sample_session []
  ∧ NoDup (map file_id (session (prims := ascii_prims) sample_session [])).
Proof.
  assert (H : all_allowed (prims := ascii_prims) sample_session [])
    by (apply (bool_decide_unpack _); vm_compute; exact I).
  split; [exact H |].
  exact (proj1 (previews_are_never_stale (prims := ascii_prims) sample_session H)).
Defined.

Lemma export_after_a_session_is_fresh_witness :
  (all_allowed (prims := ascii_prims) sample_session []
   ∧ sample_files !! 0 = Some sample_result)
  ∧ Excel.generateAndDownloadExcel (prims := ascii_prims)
      Excel.any_name Excel.any_sheet sample_result
    = Excel.generateAndDownloadExcel (prims := ascii_prims)
        Excel.any_name Excel.any_sheet
        (without_previews sample_result).
Proof.
  assert (H1 : all_allowed (prims := ascii_prims) sample_session [])
    by (apply (bool_decide_unpack _); vm_compute; exact I).
  assert (H2 : sample_files !! 0 = Some sample_result)
    by (vm_compute; reflexivity).
  split; [exact (conj H1 H2) |].
  exact (export_after_a_session_is_fresh (prims := ascii_prims)
           Excel.any_name Excel.any_sheet sample_session sample_result H1
           (list_elem_of_lookup_2 _ _ _ H2)).
Defined.

End SessionFacts.

Module HandlersFacts.
Import Pipeline Handlers Suggest.

Lemma pages_up_to_spec (n p : nat) : p ∈ pages_up_to n ↔ 1 ≤ p ≤ n.
Proof.
  induction n as [|n IH]; simpl.
  - rewrite elem_of_empty. lia.
  - rewrite elem_of_union, elem_of_singleton, IH. lia.
Qed.

Lemma seq_sorted (start len : nat) : Sorted (≤) (seq start len).
Proof.
  revert start. induction len as [|len IH]; intros start; simpl; [constructor |].
  constructor; [apply IH |]. destruct len; simpl; constructor. lia.
Qed.

Lemma pagesToProcess_all (f : ProcessedFile) (n : nat) :
  selectedPages f = pages_up_to n → pagesToProcess f = seq 1 n.
Proof.
  intros Hsel. unfold pagesToProcess. rewrite Hsel.
  apply (Sorted_unique (≤)).
  - apply Sorted_merge_sort. apply _.
  - apply seq_sorted.
  - rewrite merge_sort_Permutation. apply NoDup_Permutation.
    + apply NoDup_elements.
    + apply NoDup_seq.
    + intros p. rewrite elem_of_elements, pages_up_to_spec, elem_of_seq. lia.
Qed.

Lemma filter_all {A} (P : A → Prop) `{∀ x, Decision (P x)} (l : list A) :
  Forall P l → filter P l = l.
Proof.
  induction 1 as [|x l Hx Hl IH]; [done |].
  by rewrite filter_cons_True, IH.
Qed.

Lemma on_file_lookup (fileId : string) g (files : list ProcessedFile) (i : nat) f :
  files !! i = Some f →
  on_file fileId g files !! i
  = Some (if bool_decide (file_id f = fileId) then g f else f).
Proof. intros Hi. unfold on_file. by rewrite list_lookup_fmap, Hi. Qed.

(** Ticking 'select all' on a file with [n] pages selects exactly the
    pages 1 to [n], and a run of the file then takes each of them once, in
    this order; the other files are as they were. *)
Theorem select_all_selects_every_page (fileId : string)
    (files : list ProcessedFile) (i n : nat) (f : ProcessedFile) :
  files !! i = Some f → totalPages f = Some n → 0 < n →
  ∃ f', handleSelectAllPages fileId true files !! i = Some f'
        ∧ (file_id f = fileId →
           (∀ p, p ∈ selectedPages f' ↔ 1 ≤ p ≤ n)
           ∧ pagesToProcess f' = seq 1 n)
        ∧ (file_id f ≠ fileId → f' = f).
Proof.
  intros Hi Hn Hpos. unfold handleSelectAllPages.
  rewrite list_lookup_fmap, Hi. simpl. rewrite Hn.
  destruct n as [|k]; [lia |].
  case_bool_decide as Hid; eexists; split_and!; try done.
  intros _. split.
  - intros p. apply (pages_up_to_spec (S k)).
  - by apply (pagesToProcess_all _ (S k)).
Qed.

Section HandlersFacts.
Context {prims : StringPrims}.

(** After a page of a file was edited, the text of that page is the text
    that was typed, whatever was recognized or typed before, the text of
    every other page is as before, the pages that were extracted are the
    same, and no task of the file keeps a preview.  The other files are as
    they were. *)
Theorem edited_text_replaces_page_text (fileId : string) (page' : nat)
    (newText : string) (files : list ProcessedFile) (i : nat) (f : ProcessedFile) :
  files !! i = Some f →
  ∃ f', handleTextChange fileId page' newText files !! i = Some f'
        ∧ (file_id f = fileId →
           (∀ pageData,
              Structuring.page_text (manuallyEditedPages f') pageData
              = if bool_decide (page pageData = page') then newText
                else Structuring.page_text (manuallyEditedPages f) pageData)
           ∧ extractedData f' = extractedData f
           ∧ map task_id (extractionTasks f') = map task_id (extractionTasks f)
           ∧ Forall (λ task, structuredDataPreview task = None) (extractionTasks f'))
        ∧ (file_id f ≠ fileId → f' = f).
Proof.
  intros Hi. unfold handleTextChange. rewrite (on_file_lookup _ _ _ _ _ Hi).
  case_bool_decide as Hid; eexists; split_and!; try done.
  intros _. simpl. split_and!; try done.
  - intros pageData. unfold Structuring.page_text.
    case_bool_decide as Hp.
    + by rewrite Hp, lookup_insert_eq.
    + rewrite lookup_insert_ne by done.
      destruct (manuallyEditedPages f); simpl; [done |]. by rewrite lookup_empty.
  - rewrite <- list_fmap_compose. by apply list_fmap_ext.
  - apply Forall_fmap, Forall_forall. by intros task _.
Qed.

(** Removing a task that was just added gives the files back, when no
    task of the file had the id of the new task. *)
Theorem remove_undoes_add (now fileId : string) (files : list ProcessedFile) :
  Forall (λ f, file_id f = fileId →
               ("task-" +:+ now) ∉ map task_id (extractionTasks f)) files →
  handleRemoveTask fileId ("task-" +:+ now) (handleAddTask now fileId files) = files.
Proof.
  intros Hfresh. unfold handleRemoveTask, handleAddTask, on_file.
  rewrite <- list_fmap_compose.
  rewrite <- (list_fmap_id files) at 2.
  apply list_fmap_ext. intros i f Hi. simpl.
  destruct (decide (file_id f = fileId)) as [Hid | Hid].
  2: { by rewrite !bool_decide_false by (by rewrite ?bool_decide_false). }
  rewrite (bool_decide_true (file_id f = fileId)) by done.
  rewrite bool_decide_true by done. unfold with_tasks. simpl.
  rewrite Forall_forall in Hfresh.
  pose proof (Hfresh f (list_elem_of_lookup_2 _ _ _ Hi) Hid) as Hnotin.
  rewrite filter_app, filter_cons_False, filter_nil, app_nil_r by (simpl; tauto).
  replace (filter _ (extractionTasks f)) with (extractionTasks f); [by destruct f |].
  symmetry. apply filter_all, Forall_forall. intros task Htask Heq.
  apply Hnotin. rewrite <- Heq. by apply list_elem_of_fmap_2.
Qed.


End HandlersFacts.
Lemma select_all_selects_every_page_witness :
  (totalPages five_page_file = Some 5 ∧ 0 < 5)
  ∧ ∃ f', handleSelectAllPages "list.pdf-0-5" true [five_page_file] !! 0 = Some f'
          ∧ pagesToProcess f' = [1; 2; 3; 4; 5].
Proof.
  assert (H1 : totalPages five_page_file = Some 5) by reflexivity.
  assert (H2 : 0 < 5) by lia.
  split; [exact (conj H1 H2) |].
  destruct (select_all_selects_every_page "list.pdf-0-5" [five_page_file] 0 5
              five_page_file eq_refl H1 H2) as (f' & Hf' & Hall & _).
  exists f'. split; [exact Hf' |]. exact (proj2 (Hall eq_refl)).
Defined.

Lemma edited_text_replaces_page_text_witness :
  [Structuring.sample_file] !! 0 = Some Structuring.sample_file
  ∧ ∃ f', handleTextChange "roll.pdf-0-1" 1 "John 26" [Structuring.sample_file] !! 0
          = Some f'
          ∧ Structuring.page_text (manuallyEditedPages f')
              {| page := 1; tsv := Structuring.sample_text |}
            = "John 26".
Proof.
  split; [reflexivity |].
  destruct (edited_text_replaces_page_text "roll.pdf-0-1" 1 "John 26"
              [Structuring.sample_file] 0 Structuring.sample_file eq_refl)
    as (f' & Hf' & Hedited & _).
  exists f'. split; [exact Hf' |].
  exact (proj1 (Hedited eq_refl) {| page := 1; tsv := Structuring.sample_text |}).
Defined.

Lemma remove_undoes_add_witness :
  Forall (λ f, file_id f = "roll.pdf-0-1" →
               ("task-" +:+ "2") ∉ map task_id (extractionTasks f))
         [Excel.headerless_file]
  ∧ handleRemoveTask "roll.pdf-0-1" ("task-" +:+ "2")
      (handleAddTask "2" "roll.pdf-0-1" [Excel.headerless_file])
    = [Excel.headerless_file].
Proof.
  assert (H : Forall (λ f, file_id f = "roll.pdf-0-1" →
                           ("task-" +:+ "2") ∉ map task_id (extractionTasks f))
                     [Excel.headerless_file])
    by (apply (bool_decide_unpack _); vm_compute; exact I).
  split; [exact H |].
  exact (remove_undoes_add "2" "roll.pdf-0-1" [Excel.headerless_file] H).
Defined.


End HandlersFacts.

Module RunFacts.
Import Pipeline Session.

Lemma bind_inr {A B} (m : M A) (k : A → M B) (st st' : St) (b : B) :
  bind m k st = (inr b, st') →
  ∃ a st1, m st = (inr a, st1) ∧ k a st1 = (inr b, st').
Proof.
  unfold bind. destruct (m st) as [[e | a] st1]; [done |]. eauto.
Qed.

Lemma sublist_StronglySorted {A} (R : relation A) (l1 l2 : list A) :
  l1 `sublist_of` l2 → StronglySorted R l2 → StronglySorted R l1.
Proof.
  induction 1 as [|x l1 l2 Hsub IH|x l1 l2 Hsub IH]; intros Hsorted.
  - constructor.
  - apply StronglySorted_inv in Hsorted as [Hl2 Hx]. constructor; [by apply IH |].
    rewrite Forall_forall in Hx |- *. intros y Hy. apply Hx.
    by eapply elem_of_sublist.
  - apply StronglySorted_inv in Hsorted as [Hl2 _]. by apply IH.
Qed.

Lemma array_set_same {A} (i : nat) (v : A) (arr : list (option A)) :
  array_set i v arr !! i = Some (Some v).
Proof.
  unfold array_set. destruct (i <? length arr) eqn:Hi.
  - apply Nat.ltb_lt in Hi. by apply list_lookup_insert_eq.
  - apply Nat.ltb_ge in Hi.
    rewrite lookup_app_r by done.
    rewrite lookup_app_r by (rewrite length_replicate; lia).
    rewrite length_replicate. by replace (i - length arr - (i - length arr)) with 0 by lia.
Qed.

Lemma array_set_keeps {A} (i j : nat) (v a : A) (arr : list (option A)) :
  arr !! i = Some (Some a) → ∃ a', array_set j v arr !! i = Some (Some a').
Proof.
  intros Hi. destruct (decide (i = j)) as [-> | Hij].
  - exists v. apply array_set_same.
  - exists a. unfold array_set. destruct (j <? length arr).
    + by rewrite list_lookup_insert_ne.
    + by rewrite lookup_app_l by (by eapply lookup_lt_Some).
Qed.

Lemma has_page_set_page {A} (p q : nat) (v : A) (arr : list (option A)) :
  has_page p arr → has_page p (set_page q v arr).
Proof.
  destruct p as [|i]; [done |]. intros [a Ha].
  destruct q as [|j]; simpl; [by exists a |]. by eapply array_set_keeps.
Qed.

Lemma has_page_set_page_same {A} (p : nat) (v : A) (arr : list (option A)) :
  has_page p (set_page p v arr).
Proof.
  destruct p as [|i]; [done |]. exists v. apply array_set_same.
Qed.

Section RunFacts.
Context {prims : StringPrims}.
Context (settings : Settings) (env : Env).

Lemma image_to_recognize_returns engine pageNumber r st :
  ∃ image st1, image_to_recognize settings env engine pageNumber r st = (inr image, st1).
Proof.
  unfold image_to_recognize.
  destruct engine; try (by eexists _, _).
  destruct (JS.truthy _); [| by eexists _, _].
  unfold bind, emit. simpl. destruct (preprocess _ _ _ _); by eexists _, _.
Qed.

(** What a text engine adds for a page it recognized. *)
Lemma recognize_page_stores pf langs engine pageNumber r image acc acc' st st' :
  engine ≠ textract →
  recognize_page settings env pf langs engine pageNumber r image acc st
  = (inr acc', st') →
  map page (newExtractedDataForFile acc')
  = map page (newExtractedDataForFile acc) ++ [pageNumber].
Proof.
  intros Hengine. unfold recognize_page.
  destruct engine; [| done | |]; intros Hrun.
  - apply bind_inr in Hrun as (lines & st1 & _ & [= <- _]).
    simpl. by rewrite fmap_app.
  - apply bind_inr in Hrun as (text & st1 & _ & [= <- _]).
    simpl. by rewrite fmap_app.
  - apply bind_inr in Hrun as ([] & st1 & _ & Hrun).
    apply bind_inr in Hrun as (text & st2 & _ & [= <- _]).
    simpl. by rewrite fmap_app.
Qed.

Lemma recognize_page_is_store pf langs engine pageNumber r image acc acc' st st' :
  engine ≠ textract →
  recognize_page settings env pf langs engine pageNumber r image acc st
  = (inr acc', st') →
  ∃ pageText, acc' = store_page acc pageNumber pageText r.
Proof.
  intros Hengine. unfold recognize_page.
  destruct engine; [| done | |]; intros Hrun.
  - apply bind_inr in Hrun as (lines & st1 & _ & [= <- _]). eauto.
  - apply bind_inr in Hrun as (text & st1 & _ & [= <- _]). eauto.
  - apply bind_inr in Hrun as ([] & st1 & _ & Hrun).
    apply bind_inr in Hrun as (text & st2 & _ & [= <- _]). eauto.
Qed.

(** The pages of the results of a loop that ends have their dimensions
    stored, if those of the results it started with have. *)
Lemma pages_loop_dimensions pf langs engine numPages pages acc acc' st st' :
  engine ≠ textract →
  pages_loop settings env pf langs engine numPages pages acc st = (inr acc', st') →
  (∀ p, p ∈ map page (newExtractedDataForFile acc) →
        has_page p (newPageImageDimensionsForFile acc)) →
  ∀ p, p ∈ map page (newExtractedDataForFile acc') →
       has_page p (newPageImageDimensionsForFile acc').
Proof.
  intros Hengine. revert acc st.
  induction pages as [|pageNumber rest IH]; intros acc st; simpl.
  - by intros [= <- _].
  - intros Hrun Hacc. apply bind_inr in Hrun as (rendered & st1 & _ & Hrun).
    destruct rendered as [r |]; [| by eapply IH].
    apply bind_inr in Hrun as (image & st2 & _ & Hrun).
    apply bind_inr in Hrun as (acc1 & st3 & Hrec & Hrun).
    apply bind_inr in Hrun as ([] & st4 & _ & Hrun).
    apply recognize_page_is_store in Hrec as [pageText ->]; [| done].
    eapply IH; [exact Hrun |]. simpl.
    intros p Hp. rewrite fmap_app in Hp. apply elem_of_app in Hp as [Hp | Hp].
    + by apply has_page_set_page, Hacc.
    + apply list_elem_of_singleton in Hp as ->. apply has_page_set_page_same.
Qed.

(** The pages a loop that ends has results for: the pages that were
    rendered, in the order of the loop. *)
Lemma pages_loop_pages pf langs engine numPages pages acc acc' st st' :
  engine ≠ textract →
  pages_loop settings env pf langs engine numPages pages acc st = (inr acc', st') →
  ∃ visited,
    visited `sublist_of` pages
    ∧ map page (newExtractedDataForFile acc')
      = map page (newExtractedDataForFile acc) ++ visited
    ∧ ((∀ p b, render env p b ≠ inr None) → visited = pages).
Proof.
  intros Hengine. revert acc st.
  induction pages as [|pageNumber rest IH]; intros acc st; simpl.
  - intros [= <- _]. exists []. by rewrite app_nil_r.
  - intros Hrun. apply bind_inr in Hrun as (rendered & st1 & Hrender & Hrun).
    destruct rendered as [r |].
    + apply bind_inr in Hrun as (image & st2 & _ & Hrun).
      apply bind_inr in Hrun as (acc1 & st3 & Hrec & Hrun).
      apply bind_inr in Hrun as ([] & st4 & _ & Hrun).
      apply IH in Hrun as (visited & Hsub & Hpages & Hall).
      apply recognize_page_stores in Hrec; [| done].
      exists (pageNumber :: visited). split_and!.
      * by apply sublist_skip.
      * rewrite Hpages. simpl. rewrite Hrec. by rewrite <- app_assoc.
      * intros Hrendered. by rewrite Hall.
    + apply IH in Hrun as (visited & Hsub & Hpages & Hall).
      exists visited. split_and!; [by apply sublist_cons | done |].
      intros Hrendered. injection Hrender as Hrender.
      by destruct (Hrendered _ _ Hrender).
Qed.

Lemma sort_pages_sorted_pages (l : list PageData) :
  Sorted (≤) (map page (Structuring.sort_pages l)).
Proof.
  pose proof (RowsFacts.sort_pages_sorted l) as Hsorted.
  induction Hsorted as [|x l' Hl IH Hx]; simpl; [constructor |].
  constructor; [done |]. destruct l'; simpl; constructor.
  by apply Forall_cons in Hx as [Hx _].
Qed.

(** A run with a text engine that reaches the end of its [try] block
    leaves the file completed, with progress 100, with one result for each
    page that was rendered, in ascending order of the pages and for
    selected pages only (for every selected page when each page is
    rendered), and with at least one task, none with a preview. *)
Theorem successful_run_completes (pf : ProcessedFile) (langs : list string)
    (engine : OcrEngine) (st st' : St) :
  engine ≠ textract →
  run_body settings env pf langs engine (run_start pf langs engine st).2
  = (inr (), st') →
  ∀ f', f' ∈ files st' → file_id f' = file_id pf →
    status f' = completed ∧ progress f' = 100%Z
    ∧ (∃ data, extractedData f' = Some data
               ∧ map page data `sublist_of` pagesToProcess pf
               ∧ ((∀ p b, render env p b ≠ inr None) →
                  map page data = pagesToProcess pf))
    ∧ extractionTasks f' ≠ []
    ∧ Forall (λ task, structuredDataPreview task = None) (extractionTasks f').
Proof.
  intros Hengine Hrun f' Hf' Hid.
  unfold run_body in Hrun.
  apply bind_inr in Hrun as ([] & st1 & _ & Hrun).
  apply bind_inr in Hrun as (dataUri & st2 & _ & Hrun).
  apply bind_inr in Hrun as ([] & st3 & _ & Hrun).
  apply bind_inr in Hrun as (worker & st4 & _ & Hrun).
  apply bind_inr in Hrun as (acc & st5 & Hloop & Hrun).
  apply bind_inr in Hrun as ([] & st6 & _ & Hrun).
  apply bind_inr in Hrun as ([] & st7 & _ & Hrun).
  injection Hrun as <-. simpl in Hf'.
  apply list_elem_of_fmap in Hf' as (f & -> & _).
  apply pages_loop_pages in Hloop as (visited & Hsub & Hpages & Hall); [| done].
  simpl in Hpages.
  assert (Hsorted : map page (Structuring.sort_pages (newExtractedDataForFile acc))
                    = visited).
  { apply (Sorted_unique (≤)).
    - apply sort_pages_sorted_pages.
    - apply StronglySorted_Sorted.
      eapply sublist_StronglySorted; [exact Hsub |].
      apply StronglySorted_merge_sort; apply _.
    - rewrite <- Hpages. apply fmap_Permutation, StructuringFacts.sort_pages_perm. }
  unfold finish_entry in *.
  case_bool_decide as Hother; [done |].
  destruct engine; [| done | |].
  all: simpl; split_and!; try done.
  all: try (eexists; split_and!; [done | by rewrite Hsorted |];
            intros Hrendered; by rewrite Hsorted, Hall).
  all: try (destruct (extractionTasks f); by simpl).
  all: destruct (0 <? _); [| by repeat constructor];
       apply Forall_fmap, Forall_forall; by intros task _.
Qed.

(** The rows a Textract loop that ends has collected: the rows of the
    tables of the rendered pages, in the order of the loop. *)
Lemma pages_loop_rows pf langs numPages pages acc acc' st st' :
  pages_loop settings env pf langs textract numPages pages acc st = (inr acc', st') →
  allStructuredData acc'
  = allStructuredData acc
    ++ concat (map (λ p, match render env p false with
                         | inr (Some r) =>
                             match extractTableWithTextract env (imageDataUri r) with
                             | inr rows => rows
                             | inl _ => []
                             end
                         | _ => []
                         end) pages).
Proof.
  revert acc st. induction pages as [|pageNumber rest IH]; intros acc st; simpl.
  - intros [= <- _]. by rewrite app_nil_r.
  - intros Hrun. apply bind_inr in Hrun as (rendered & st1 & Hrender & Hrun).
    injection Hrender as Hrender _. rewrite Hrender.
    destruct rendered as [r |]; [| by apply IH in Hrun].
    apply bind_inr in Hrun as (image & st2 & Himage & Hrun).
    injection Himage as <- _.
    apply bind_inr in Hrun as (acc1 & st3 & Hrec & Hrun).
    apply bind_inr in Hrun as ([] & st4 & _ & Hrun).
    apply bind_inr in Hrec as (rows & st5 & Hrows & Hrec).
    injection Hrows as Hrows _. injection Hrec as <- _.
    rewrite Hrows. apply IH in Hrun. rewrite Hrun. simpl.
    by rewrite <- app_assoc.
Qed.

(** The pages of a run are the selected pages in ascending order,
    whatever the order in which they were ticked, and the loop visits
    them in this order: a run with the Textract engine that reaches the
    end of its [try] block stores, as the rows of the file, the rows of
    the tables of the rendered pages one page after the other, the lower
    page first. *)
Theorem pages_visited_in_ascending_order (pf : ProcessedFile)
    (langs : list string) (st st' : St) :
  run_body settings env pf langs textract st = (inr (), st') →
  let pages := pagesToProcess pf in
  let rows_of p :=
    match render env p false with
    | inr (Some r) =>
        match extractTableWithTextract env (imageDataUri r) with
        | inr rows => rows
        | inl _ => []
        end
    | _ => []
    end in
  Sorted (≤) pages ∧ NoDup pages
  ∧ (∀ p, p ∈ pages ↔ p ∈ selectedPages pf)
  ∧ (∀ f', f' ∈ files st' → file_id f' = file_id pf →
       file_structuredDataPreview f' = Some (concat (map rows_of pages))).
Proof.
  intros Hrun pages rows_of.
  assert (Hperm : pages ≡ₚ elements (selectedPages pf)).
  { unfold pages, pagesToProcess. apply merge_sort_Permutation. }
  split_and!.
  - unfold pages, pagesToProcess. apply Sorted_merge_sort. apply _.
  - rewrite Hperm. apply NoDup_elements.
  - intros p. rewrite Hperm. apply elem_of_elements.
  - intros f' Hf' Hid. unfold run_body in Hrun.
    apply bind_inr in Hrun as ([] & st1 & _ & Hrun).
    apply bind_inr in Hrun as (dataUri & st2 & _ & Hrun).
    apply bind_inr in Hrun as ([] & st3 & _ & Hrun).
    apply bind_inr in Hrun as (worker & st4 & _ & Hrun).
    apply bind_inr in Hrun as (acc & st5 & Hloop & Hrun).
    apply bind_inr in Hrun as ([] & st6 & _ & Hrun).
    apply bind_inr in Hrun as ([] & st7 & _ & Hrun).
    injection Hrun as <-. simpl in Hf'.
    apply list_elem_of_fmap in Hf' as (f & -> & _).
    apply pages_loop_rows in Hloop. simpl in Hloop.
    unfold finish_entry in *. case_bool_decide as Hother; [done |].
    simpl. by rewrite Hloop.
Qed.

(** After a run with a text engine that reaches the end of its [try]
    block, the dimensions of every page with a result are stored, page 0
    apart: on such a page a drag that is not too small is not ignored, it
    adds a rectangle to those of the file. *)
Theorem recognized_pages_accept_rectangles (pf : ProcessedFile)
    (langs : list string) (engine : OcrEngine) (st st' : St)
    (f' : ProcessedFile) (data : list PageData) (pageData : PageData)
    (ds : Geometry.DrawingState) (mp : Geometry.MousePosition)
    (img : Geometry.ImageEl) :
  engine ≠ textract →
  run_body settings env pf langs engine (run_start pf langs engine st).2
  = (inr (), st') →
  f' ∈ files st' → file_id f' = file_id pf →
  extractedData f' = Some data → pageData ∈ data → page pageData ≠ 0 →
  Geometry.too_small (Geometry.drawnRect ds mp) = false →
  ∃ original,
    Geometry.originalDimensions f' (page pageData) = Some original
    ∧ Geometry.handleMouseUp (Some ds) (Some mp) (Some img) f' (page pageData)
      = Geometry.Added
          (default [] (selectionRectangles f')
           ++ [Geometry.scaledRect (Geometry.drawnRect ds mp)
                 (Geometry.clientWidth img) (Geometry.clientHeight img) original]).
Proof.
  intros Hengine Hrun Hf' Hid Hdata Hpage Hnonzero Hsize.
  unfold run_body in Hrun.
  apply bind_inr in Hrun as ([] & st1 & _ & Hrun).
  apply bind_inr in Hrun as (dataUri & st2 & _ & Hrun).
  apply bind_inr in Hrun as ([] & st3 & _ & Hrun).
  apply bind_inr in Hrun as (worker & st4 & _ & Hrun).
  apply bind_inr in Hrun as (acc & st5 & Hloop & Hrun).
  apply bind_inr in Hrun as ([] & st6 & _ & Hrun).
  apply bind_inr in Hrun as ([] & st7 & _ & Hrun).
  injection Hrun as <-. simpl in Hf'.
  apply list_elem_of_fmap in Hf' as (f & -> & _).
  pose proof (pages_loop_dimensions _ _ _ _ _ _ _ _ _ Hengine Hloop) as Hdims.
  simpl in Hdims.
  assert (Hhas : has_page (page pageData) (newPageImageDimensionsForFile acc)
                 ∧ pageImageDimensions (finish_entry env pf engine acc f)
                   = Some (newPageImageDimensionsForFile acc)).
  { assert (Hin : ∀ l, pageData ∈ Structuring.sort_pages l → page pageData ∈ map page l).
    { intros l Hl. apply list_elem_of_fmap. exists pageData. split; [done |].
      by rewrite <- StructuringFacts.sort_pages_perm. }
    assert (Hnone : ∀ p, p ∈ map page ([] : list PageData) →
              has_page p (default [] (pageImageDimensions pf))).
    { intros p Hp. by apply elem_of_nil in Hp. }
    unfold finish_entry in *. case_bool_decide as Hother; [done |].
    destruct engine; [| done | |]; simpl in Hdata; injection Hdata as <-;
      (split; [| done]); by apply Hdims, Hin. }
  destruct Hhas as [Hhas Hstored].
  destruct (page pageData) as [|i] eqn:Hp; [done |].
  destruct Hhas as [original Horiginal].
  exists original.
  assert (Hdim : Geometry.originalDimensions (finish_entry env pf engine acc f) (S i)
                 = Some original).
  { unfold Geometry.originalDimensions. rewrite Hstored. simpl.
    by rewrite Horiginal. }
  split; [exact Hdim |].
  unfold Geometry.handleMouseUp. by rewrite Hsize, Hdim.
Qed.

End RunFacts.
Lemma successful_run_completes_witness :
  (run_body (prims := ascii_prims) fresh_settings working_env waiting_file ["eng"]
     tesseract (run_start waiting_file ["eng"] tesseract waiting).2
   = (inr (), successful_run)
   ∧ files successful_run !! 0
     = Some (default waiting_file (head (files successful_run))))
  ∧ status (default waiting_file (head (files successful_run))) = completed.
Proof.
  assert (H1 : run_body (prims := ascii_prims) fresh_settings working_env
                 waiting_file ["eng"] tesseract
                 (run_start waiting_file ["eng"] tesseract waiting).2
               = (inr (), successful_run))
    by (vm_compute; reflexivity).
  assert (H2 : files successful_run !! 0
               = Some (default waiting_file (head (files successful_run))))
    by (vm_compute; reflexivity).
  assert (H3 : tesseract ≠ textract) by discriminate.
  assert (H4 : file_id (default waiting_file (head (files successful_run)))
               = file_id waiting_file)
    by (vm_compute; reflexivity).
  split; [exact (conj H1 H2) |].
  exact (proj1 (successful_run_completes (prims := ascii_prims) fresh_settings
                  working_env waiting_file ["eng"] tesseract waiting successful_run
                  H3 H1 _ (list_elem_of_lookup_2 _ _ _ H2) H4)).
Defined.

(** Of five pages with pages 4 and 2 ticked, the rows of the Textract
    run are the row of page 2 and then the row of page 4. *)
Lemma pages_visited_in_ascending_order_witness :
  run_body (prims := ascii_prims) fresh_settings paging_env five_page_file ["eng"]
    textract {| files := [five_page_file]; log := [] |}
  = (inr (), paged_run)
  ∧ files paged_run !! 0 = Some (default five_page_file (head (files paged_run)))
  ∧ file_structuredDataPreview (default five_page_file (head (files paged_run)))
    = Some [ {[ "Image" := "page-2" ]}; {[ "Image" := "page-4" ]} ].
Proof.
  assert (H1 : run_body (prims := ascii_prims) fresh_settings paging_env
                 five_page_file ["eng"] textract
                 {| files := [five_page_file]; log := [] |}
               = (inr (), paged_run))
    by (vm_compute; reflexivity).
  assert (H2 : files paged_run !! 0
               = Some (default five_page_file (head (files paged_run))))
    by (vm_compute; reflexivity).
  assert (H3 : file_id (default five_page_file (head (files paged_run)))
               = file_id five_page_file)
    by (vm_compute; reflexivity).
  split; [exact H1 |]. split; [exact H2 |].
  destruct (pages_visited_in_ascending_order (prims := ascii_prims) fresh_settings
              paging_env five_page_file ["eng"] _ paged_run H1)
    as (_ & _ & _ & Hrows).
  etransitivity; [exact (Hrows _ (list_elem_of_lookup_2 _ _ _ H2) H3) |].
  vm_compute. reflexivity.
Defined.

Lemma recognized_pages_accept_rectangles_witness :
  (run_body (prims := ascii_prims) fresh_settings working_env waiting_file ["eng"]
     tesseract (run_start waiting_file ["eng"] tesseract waiting).2
   = (inr (), successful_run)
   ∧ extractedData (default waiting_file (head (files successful_run)))
     = Some [{| page := 1; tsv := "John 25" |}]
   ∧ Geometry.too_small
       (Geometry.drawnRect Geometry.sample_drag.1 Geometry.sample_drag.2) = false)
  ∧ ∃ original,
      Geometry.originalDimensions (default waiting_file (head (files successful_run))) 1
      = Some original.
Proof.
  assert (H1 : run_body (prims := ascii_prims) fresh_settings working_env
                 waiting_file ["eng"] tesseract
                 (run_start waiting_file ["eng"] tesseract waiting).2
               = (inr (), successful_run))
    by (vm_compute; reflexivity).
  assert (H2 : files successful_run !! 0
               = Some (default waiting_file (head (files successful_run))))
    by (vm_compute; reflexivity).
  assert (H3 : tesseract ≠ textract) by discriminate.
  assert (H4 : file_id (default waiting_file (head (files successful_run)))
               = file_id waiting_file)
    by (vm_compute; reflexivity).
  assert (H5 : extractedData (default waiting_file (head (files successful_run)))
               = Some [{| page := 1; tsv := "John 25" |}])
    by (vm_compute; reflexivity).
  assert (H6 : {| page := 1; tsv := "John 25" |} ∈ [{| page := 1; tsv := "John 25" |}])
    by apply list_elem_of_here.
  assert (H7 : page {| page := 1; tsv := "John 25" |} ≠ 0) by discriminate.
  assert (H8 : Geometry.too_small
                 (Geometry.drawnRect Geometry.sample_drag.1 Geometry.sample_drag.2)
               = false)
    by (vm_compute; reflexivity).
  split; [exact (conj H1 (conj H5 H8)) |].
  destruct (recognized_pages_accept_rectangles (prims := ascii_prims) fresh_settings
              working_env waiting_file ["eng"] tesseract waiting successful_run
              _ _ _ Geometry.sample_drag.1 Geometry.sample_drag.2
              Geometry.sample_image H3 H1 (list_elem_of_lookup_2 _ _ _ H2) H4 H5 H6
              H7 H8)
    as (original & Horiginal & _).
  exists original. exact Horiginal.
Defined.

End RunFacts.

Module BackendFacts.
Import Backend.

Lemma base64Data_payload (head payload : string) :
  JS.free_of comma head → JS.free_of comma payload → payload ≠ "" →
  base64Data (head +:+ "," +:+ payload) = Some payload.
Proof.
  intros Hhead Hpayload Hne. unfold base64Data.
  change (JS.split "," (head +:+ "," +:+ payload))
    with (JS.split_go (String comma "") 0 (head +:+ String comma payload)).
  rewrite (JSFacts.split_char_cons comma head payload Hhead).
  rewrite (JSFacts.split_char_line comma payload Hpayload). simpl.
  by destruct payload.
Qed.

Lemma base64Data_no_comma (uri : string) :
  JS.free_of comma uri → base64Data uri = None.
Proof.
  intros Hfree. unfold base64Data.
  change (JS.split "," uri) with (JS.split_go (String comma "") 0 uri).
  by rewrite (JSFacts.split_char_line comma uri Hfree).
Qed.

Lemma base64Data_png (payload : string) :
  JS.free_of comma payload → payload ≠ "" →
  base64Data (png_data_uri payload) = Some payload.
Proof.
  intros Hfree Hne. unfold png_data_uri.
  change "data:image/png;base64," with ("data:image/png;base64" +:+ ",").
  rewrite JSFacts.append_assoc.
  apply base64Data_payload; [| done | done].
  simpl. repeat split; by intros [=].
Qed.

Section BackendFacts.
Context {prims : StringPrims}.

(** For the image of a canvas, with a payload that is not empty and has
    no comma (base 64 has none), both flows send the payload, all of it
    and once, and give what they make of the answer: the rows of
    [structure_blocks] for Textract, the text for Vision. *)
Theorem flows_send_the_payload (env : ProcessEnv) (construct : Caught + unit)
    (send : string → Caught + option (list Textract.Block))
    (detect : string → Caught + option string) (payload : string) :
  JS.free_of comma payload → payload ≠ "" →
  (∀ blocks, send payload = inr blocks →
     textractTableFlow true env construct send (png_data_uri payload)
     = (inr (Textract.structure_blocks blocks), [Send payload]))
  ∧ (∀ text, detect payload = inr (Some text) → text ≠ "" →
     googleVisionOcrFlow true env construct detect (png_data_uri payload)
     = (inr text, [Send payload])).
Proof.
  intros Hfree Hne. split.
  - intros blocks Hsend. unfold textractTableFlow. simpl.
    rewrite (base64Data_png payload Hfree Hne). simpl. by rewrite Hsend.
  - intros text Hdetect Htext. unfold googleVisionOcrFlow. simpl.
    rewrite (base64Data_png payload Hfree Hne). simpl. rewrite Hdetect. simpl.
    by destruct text.
Qed.

(** An image address without a comma is refused by both flows before
    anything is sent, whatever the service would answer: the flows throw
    an error whose message ends with "Invalid image data URI.". *)
Theorem flows_refuse_an_address_without_payload (env : ProcessEnv)
    (construct : Caught + unit)
    (send : string → Caught + option (list Textract.Block))
    (detect : string → Caught + option string) (imageDataUri : string) :
  JS.free_of comma imageDataUri →
  textractTableFlow true env construct send imageDataUri
  = (inl (AnError (new_Error ("An error occurred while processing with Amazon Textract: "
                              +:+ "Invalid image data URI."))),
     [ConsoleError])
  ∧ googleVisionOcrFlow true env construct detect imageDataUri
    = (inl (AnError (new_Error ("An error occurred while processing with "
                                +:+ "Google Cloud Vision: Invalid image data URI."))),
       [ConsoleError]).
Proof.
  intros Hfree. unfold textractTableFlow, googleVisionOcrFlow. simpl.
  by rewrite (base64Data_no_comma imageDataUri Hfree).
Qed.

Lemma ocr_space_missing_key
    (fetch : string → string → string → Caught + Response)
    (join_of_non_array : JsError) (imageDataUri apiKey : string)
    (language : option string) :
  apiKey = "" ∨ trim apiKey = "" →
  ocrSpaceFlow fetch join_of_non_array imageDataUri apiKey language
  = (inl (AnError (new_Error
            "OCR.space API key is missing. Please provide a valid API key.")), []).
Proof.
  unfold ocrSpaceFlow. intros [-> | Hblank]; [done |].
  rewrite (bool_decide_true _ Hblank). by rewrite orb_true_r.
Qed.

(** With a key that is empty or blank the OCR.space flow throws before
    it sets its timer or sends anything.  With another key it sets the
    timer, sends one request, with the image, the key and the language it
    was given (the text [undefined] when it was given none), and clears
    the timer on every path, after anything else; what it throws is a new
    error. *)
Theorem ocr_space_flow_clears_its_timer
    (fetch : string → string → string → Caught + Response)
    (join_of_non_array : JsError) (imageDataUri apiKey : string)
    (language : option string) :
  let out := ocrSpaceFlow fetch join_of_non_array imageDataUri apiKey language in
  (apiKey = "" ∨ trim apiKey = "" →
   out = (inl (AnError (new_Error
             "OCR.space API key is missing. Please provide a valid API key.")), []))
  ∧ (apiKey ≠ "" → trim apiKey ≠ "" →
     (∃ middle,
        out.2 = SetTimeout :: Fetch imageDataUri apiKey (default "undefined" language)
                :: middle ++ [ClearTimeout]
        ∧ Forall (λ ev, ev = ConsoleError) middle)
     ∧ (∀ thrown, out.1 = inl thrown → ∃ message, thrown = AnError (new_Error message))).
Proof.
  intros out. subst out. unfold ocrSpaceFlow. split.
  - apply ocr_space_missing_key.
  - intros Hkey Hblank. rewrite (bool_decide_false _ Hblank).
    destruct apiKey as [|c key]; [done |]. simpl.
    unfold ocrSpace_try, ocrSpace_catch, request, then_, catch, finally, throw,
      pure, event.
    repeat first
      [ case_bool_decide
      | match goal with
        | |- context [match ?x with _ => _ end] =>
            first [is_var x | match x with _ _ => idtac end]; destruct x
        end ];
      simpl.
    all: split;
      [ first [ by (exists []; repeat constructor)
              | by (exists [ConsoleError]; repeat constructor)
              | by (exists [ConsoleError; ConsoleError]; repeat constructor) ]
      | intros ? [= <-]; eauto ].
Qed.

(** A run with the OCR.space engine and an empty or blank key, on a file
    with a selected page: the flow refuses the first page, no request is
    sent, and the run ends with the file in error, with the message the
    caller receives for "OCR.space API key is missing. Please provide a
    valid API key."; the other files are as they were. *)
Theorem blank_key_fails_the_run (settings : Pipeline.Settings) (env : Pipeline.Env)
    (relay : Caught → Pipeline.Thrown)
    (fetch : string → string → string → Caught + Response)
    (join_of_non_array : JsError) (pf : ProcessedFile) (langs : list string)
    (st : Pipeline.St) (dataUri : string) :
  Pipeline.ocrSpaceApiKey settings = "" ∨ trim (Pipeline.ocrSpaceApiKey settings) = "" →
  (∀ image key language,
     Pipeline.ocrWithOcrSpace env image key language
     = received relay (ocrSpaceFlow fetch join_of_non_array image key (Some language))) →
  Pipeline.readFile env = inr dataUri →
  Pipeline.getDocument env dataUri = inr () →
  (∀ p b, ∃ r, Pipeline.render env p b = inr (Some r)) →
  selectedPages pf ≠ ∅ →
  Pipeline.files (Pipeline.processFile settings env pf langs ocrspace st).2
  = map (λ f, if bool_decide (file_id f = file_id pf)
              then Pipeline.error_entry pf
                     (Pipeline.errorMessage
                        (relay (AnError (new_Error
                           "OCR.space API key is missing. Please provide a valid API key."))))
              else f)
        (Pipeline.files st).
Proof.
  intros Hkey Hflow Hread Hdoc Hrender Hsel.
  assert (Hrefused : ∀ image language,
            Pipeline.ocrWithOcrSpace env image (Pipeline.ocrSpaceApiKey settings) language
            = inl (relay (AnError (new_Error
                "OCR.space API key is missing. Please provide a valid API key.")))).
  { intros image language. rewrite Hflow.
    pose proof (ocr_space_missing_key fetch join_of_non_array image
                  (Pipeline.ocrSpaceApiKey settings) (Some language) Hkey) as Hout.
    unfold received. by rewrite Hout. }
  destruct (Pipeline.pagesToProcess pf) as [|p rest] eqn:Hpages.
  { exfalso. apply Hsel. apply leibniz_equiv, elements_empty_iff, Permutation_nil_r.
    rewrite <- (merge_sort_Permutation (≤)). unfold Pipeline.pagesToProcess in Hpages.
    by rewrite Hpages. }
  destruct (Hrender p false) as [r Hr].
  unfold Pipeline.processFile, Pipeline.run_start, Pipeline.run_body,
    Pipeline.run_catch, Pipeline.try_catch, Pipeline.bind, Pipeline.setFiles,
    Pipeline.emit, Pipeline.call, Pipeline.ret.
  simpl. rewrite Hread, Hdoc, Hpages. simpl.
  unfold Pipeline.bind, Pipeline.call. rewrite Hr. simpl.
  unfold Pipeline.bind, Pipeline.emit, Pipeline.call, Pipeline.ret. simpl.
  rewrite Hrefused. simpl.
  rewrite <- list_fmap_compose. apply list_fmap_ext. intros i f _. simpl.
  unfold Pipeline.start_entry. by repeat case_bool_decide.
Qed.

End BackendFacts.
Lemma flows_send_the_payload_witness :
  (JS.free_of comma "AAAA" ∧ "AAAA" ≠ "")
  ∧ textractTableFlow (prims := ascii_prims) true no_variables (inr ())
      (λ _, inr None) (png_data_uri "AAAA")
    = (inr [], [Send "AAAA"]).
Proof.
  assert (H1 : JS.free_of comma "AAAA") by (simpl; repeat split; discriminate).
  assert (H2 : "AAAA" ≠ "") by discriminate.
  split; [exact (conj H1 H2) |].
  exact (proj1 (flows_send_the_payload (prims := ascii_prims) no_variables (inr ())
                  (λ _, inr None) (λ _, inr None) "AAAA" H1 H2) None eq_refl).
Defined.

Lemma flows_refuse_an_address_without_payload_witness :
  JS.free_of comma "AAAA"
  ∧ textractTableFlow (prims := ascii_prims) true no_variables (inr ())
      (λ _, inr None) "AAAA"
    = (inl (AnError (new_Error ("An error occurred while processing with Amazon Textract: "
                                +:+ "Invalid image data URI."))),
       [ConsoleError]).
Proof.
  assert (H : JS.free_of comma "AAAA") by (simpl; repeat split; discriminate).
  split; [exact H |].
  exact (proj1 (flows_refuse_an_address_without_payload (prims := ascii_prims)
                  no_variables (inr ()) (λ _, inr None) (λ _, inr None) "AAAA" H)).
Defined.

Lemma blank_key_fails_the_run_witness :
  (Pipeline.ocrSpaceApiKey Pipeline.fresh_settings = ""
   ∧ selectedPages Pipeline.waiting_file ≠ ∅)
  ∧ map (λ f, (status f, error f))
        (Pipeline.files
           (Pipeline.processFile (prims := ascii_prims) Pipeline.fresh_settings
              flow_env Pipeline.waiting_file ["eng"] ocrspace Pipeline.waiting).2)
    = [(error_status,
        Some "OCR.space API key is missing. Please provide a valid API key.")].
Proof.
  assert (H1 : Pipeline.ocrSpaceApiKey Pipeline.fresh_settings = "") by reflexivity.
  assert (H2 : selectedPages Pipeline.waiting_file ≠ ∅)
    by (apply (bool_decide_unpack _); vm_compute; exact I).
  split; [exact (conj H1 H2) |].
  rewrite (blank_key_fails_the_run (prims := ascii_prims) Pipeline.fresh_settings
             flow_env message_relay network_down (new_Error "")
             Pipeline.waiting_file ["eng"] Pipeline.waiting
             "data:application/pdf;base64,AAAA"
             (or_introl H1) (λ _ _ _, eq_refl) eq_refl eq_refl
             (λ _ _, ex_intro _ _ eq_refl) H2).
  reflexivity.
Defined.

End BackendFacts.

Module UploadFacts.
Import Previews.

Lemma existsb_id (files : list ProcessedFile) (id : string) :
  existsb (λ existing, bool_decide (file_id existing = id)) files = false
  ↔ id ∉ map file_id files.
Proof.
  induction files as [|f files IH]; simpl.
  - split; [intros _; apply not_elem_of_nil | done].
  - rewrite not_elem_of_cons, orb_false_iff, IH, bool_decide_eq_false.
    split; intros [Hne Hnotin]; split; congruence.
Qed.

Lemma fresh_ids (files news : list ProcessedFile) :
  map file_id
    (filter (λ new, existsb (λ existing, bool_decide (file_id existing = file_id new))
                            files = false) news)
  = filter (λ id, id ∉ map file_id files) (map file_id news).
Proof.
  induction news as [|new news IH]; [done |]. simpl.
  rewrite !filter_cons.
  destruct (decide (existsb _ files = false)) as [Hfresh | Hold];
    destruct (decide (file_id new ∉ map file_id files)) as [Hnotin | Hin].
  - simpl. by rewrite IH.
  - by apply existsb_id in Hfresh.
  - by apply existsb_id in Hnotin.
  - exact IH.
Qed.

Section UploadFacts.
Context {prims : StringPrims}.

(** The files of a drop reach the list when one of them is a PDF file:
    whatever languages were ticked and unticked before, a language is
    selected, and unless the engine is OCR.space without a key the PDF
    files that are not in the list by their name, date and size are added
    at its end, in the order of the drop, as pending files without tasks
    or selected pages.  The files already there stay as they are, and the
    ids stay different when the PDF files of the drop differ in name, date
    or size. *)
Theorem upload_adds_each_new_pdf_once (requests : list Languages.Request)
    (engine : OcrEngine) (ocrSpaceApiKey : string) (dropped accepted : list File)
    (files : list ProcessedFile) :
  handleDrop dropped = HandedOn accepted →
  (engine = ocrspace → trim ocrSpaceApiKey ≠ "") →
  ∃ uniqueNewFiles,
    onFilesAdded engine (Languages.langs (Languages.run requests)) ocrSpaceApiKey
      accepted files
    = Accepted (files ++ uniqueNewFiles) uniqueNewFiles
    ∧ map file_id uniqueNewFiles
      = filter (λ id, id ∉ map file_id files)
               (map file_key
                  (filter (λ file, file_type file = "application/pdf") dropped))
    ∧ Forall (λ f, status f = pending ∧ extractionTasks f = []
                   ∧ selectedPages f = ∅ ∧ extractedData f = None)
             uniqueNewFiles
    ∧ (NoDup (map file_id files) → NoDup (map file_key accepted) →
       NoDup (map file_id (files ++ uniqueNewFiles))).
Proof.
  intros Hdrop Hkey.
  assert (accepted = acceptedFiles dropped) as ->.
  { unfold handleDrop in Hdrop. repeat case_match; congruence. }
  assert (Hlangs : (length (Languages.langs (Languages.run requests)) =? 0) = false).
  { apply Nat.eqb_neq. intros Hlen. apply length_zero_iff_nil in Hlen.
    revert Hlen. by apply LanguagesFacts.fold_step_nonempty. }
  unfold onFilesAdded. rewrite Hlangs, andb_false_r.
  assert (bool_decide (engine = ocrspace) && negb (JS.truthy (trim ocrSpaceApiKey))
          = false) as ->.
  { case_bool_decide as Hengine; [| done]. simpl.
    specialize (Hkey Hengine). by destruct (trim ocrSpaceApiKey). }
  assert (Hids : map file_id
                   (filter (λ new, existsb (λ existing,
                                      bool_decide (file_id existing = file_id new))
                                    files = false)
                      (map (λ file, newFile (file_key file) (file_name file))
                           (acceptedFiles dropped)))
                 = filter (λ id, id ∉ map file_id files)
                     (map file_key (acceptedFiles dropped))).
  { rewrite fresh_ids. by rewrite <- list_fmap_compose. }
  set (uniqueNewFiles :=
         filter (λ new, existsb (λ existing,
                           bool_decide (file_id existing = file_id new))
                         files = false)
           (map (λ file, newFile (file_key file) (file_name file))
                (acceptedFiles dropped))) in *.
  exists uniqueNewFiles. split; [reflexivity |]. split_and!.
  - exact Hids.
  - apply Forall_forall. intros f Hf.
    apply list_elem_of_filter in Hf as [_ Hf].
    apply list_elem_of_fmap in Hf as (file & -> & _). done.
  - intros Hfiles Haccepted. rewrite List.map_app, Hids.
    apply NoDup_app. split_and!; [done | | by apply NoDup_filter].
    intros id Hold Hnew. by apply list_elem_of_filter in Hnew as [Hfresh _].
Qed.

End UploadFacts.

Lemma upload_adds_each_new_pdf_once_witness :
  handleDrop [Session.sample_upload] = HandedOn [Session.sample_upload]
  ∧ ∃ uniqueNewFiles,
      onFilesAdded (prims := ascii_prims) tesseract
        (Languages.langs (Languages.run [Languages.ChangeLanguage "eng" false]))
        "" [Session.sample_upload] []
      = Accepted ([] ++ uniqueNewFiles) uniqueNewFiles
      ∧ map file_id uniqueNewFiles = ["roll.pdf-0-1"].
Proof.
  assert (H : handleDrop [Session.sample_upload] = HandedOn [Session.sample_upload])
    by reflexivity.
  split; [exact H |].
  destruct (upload_adds_each_new_pdf_once (prims := ascii_prims)
              [Languages.ChangeLanguage "eng" false] tesseract ""
              [Session.sample_upload] [Session.sample_upload] [] H
              (λ Hengine, ltac:(discriminate)))
    as (uniqueNewFiles & Hadded & Hids & _).
  exists uniqueNewFiles. split; [exact Hadded | exact Hids].
Defined.

End UploadFacts.

Module PreviewFacts.
Import Pipeline Handlers Previews Session.

(** An update of the entries of an id that forgets the progress gives
    the same files after updates of the progress of this id. *)
Lemma on_file_after_progress (fileId : string) (h : ProcessedFile → ProcessedFile)
    (p : Z) (files : list ProcessedFile) :
  (∀ f q, h (with_progress f q) = h f) →
  on_file fileId h (on_file fileId (λ f, with_progress f p) files)
  = on_file fileId h files.
Proof.
  intros Hh. unfold on_file. rewrite <- list_fmap_compose.
  apply list_fmap_ext. intros i f _. simpl.
  destruct (decide (file_id f = fileId)) as [Hid | Hid].
  - rewrite (bool_decide_true (file_id f = fileId)) by done. simpl.
    by rewrite bool_decide_true, Hh.
  - rewrite (bool_decide_false (file_id f = fileId)) by done.
    by rewrite bool_decide_false.
Qed.

(** The loop over the pages of the previews: the files after it, the
    events, and what it has collected when it ends. *)
Lemma previews_loop_spec (penv : PreviewEnv) (fileId : string)
    (h : ProcessedFile → ProcessedFile) (numPages remaining i : nat)
    (previews : list (nat * string)) (dimensions : list (option Dimensions))
    (st : St) :
  (∀ f q, h (with_progress f q) = h f) →
  let out := previews_loop penv fileId numPages remaining i previews dimensions st in
  on_file fileId h (files out.2) = on_file fileId h (files st)
  ∧ log out.2 = log st
  ∧ ∀ result, out.1 = inr result →
      length result.2 = length dimensions + remaining
      ∧ ∃ more, result.1 = previews ++ more
                ∧ more.*1 `sublist_of` seq i remaining
                ∧ ((∀ j, i ≤ j < i + remaining →
                      ∃ d image, preview_page penv j = inr (d, Some image)) →
                   more.*1 = seq i remaining).
Proof.
  intros Hh. revert i previews dimensions st.
  induction remaining as [|remaining IH]; intros i previews dimensions st; simpl.
  - split_and!; [done | done |]. intros result [= <-]. simpl.
    split; [lia |]. exists []. by rewrite app_nil_r.
  - unfold bind at 1, call at 1.
    destruct (preview_page penv i) as [e | [d image]] eqn:Hpage; simpl.
    { split_and!; [done | done | by intros result [=]]. }
    unfold bind at 1, setFiles at 1. simpl.
    match goal with
    | |- context [previews_loop penv fileId numPages remaining (S i) ?pv ?dm ?s] =>
        specialize (IH (S i) pv dm s)
    end.
    cbv zeta in IH. destruct IH as (Hfiles & Hlog & Hresult).
    split_and!.
    + etransitivity; [exact Hfiles |]. simpl. by apply on_file_after_progress.
    + exact Hlog.
    + intros result Hout. destruct (Hresult result Hout) as (Hlen & more & Hmore & Hsub & Hall).
      split; [rewrite Hlen, length_app; simpl; lia |].
      destruct image as [imageUri |].
      * exists ((i, imageUri) :: more). split_and!.
        -- by rewrite Hmore, <- app_assoc.
        -- simpl. by apply sublist_skip.
        -- intros Hevery. simpl. f_equal. apply Hall.
           intros j Hj. apply Hevery. lia.
      * exists more. split_and!.
        -- by rewrite Hmore.
        -- by apply sublist_cons.
        -- intros Hevery. destruct (Hevery i) as (d' & image' & Himage); [lia |].
           congruence.
Qed.

(** [generatePagePreviews] by cases on what its collaborators do. *)
Lemma generatePagePreviews_cases (penv : PreviewEnv) (fileId : string) (st : St) :
  generatePagePreviews penv fileId st
  = let failed (e : Thrown) (st1 : St) : (Thrown + ()) * St :=
        (inr (),
         {| files := on_file fileId
                       (λ f, preview_error_entry f
                               match e with
                               | ErrorObject message => message
                               | NotAnError => "Could not read PDF for preview."
                               end)
                       (files st1);
            log := log st1 ++ [ConsoleError; Toast "Preview Failed"] |}) in
    match preview_readFile penv with
    | inl e => failed e st
    | inr dataUri =>
        match preview_getDocument penv dataUri with
        | inl e => failed e st
        | inr numPages =>
            match previews_loop penv fileId numPages numPages 1 [] [] st with
            | (inl e, st1) => failed e st1
            | (inr result, st1) =>
                (inr (),
                 {| files := on_file fileId
                               (λ f, previewed_entry f numPages result.1 result.2)
                               (files st1);
                    log := log st1 |})
            end
        end
    end.
Proof.
  unfold generatePagePreviews, try_catch, bind, call, setFiles, emit. simpl.
  destruct (preview_readFile penv) as [e | dataUri]; simpl;
    [by rewrite <- app_assoc |].
  destruct (preview_getDocument penv dataUri) as [e | numPages]; simpl;
    [by rewrite <- app_assoc |].
  destruct (previews_loop penv fileId numPages numPages 1 [] [] st)
    as [[e | result] st1]; simpl; [by rewrite <- app_assoc | done].
Qed.

(** The two shapes of the files after [generatePagePreviews]. *)
Lemma generatePagePreviews_files (penv : PreviewEnv) (fileId : string) (st : St) :
  (∃ numPages previews dimensions,
     files (generatePagePreviews penv fileId st).2
     = on_file fileId (λ f, previewed_entry f numPages previews dimensions) (files st))
  ∨ (∃ message,
       files (generatePagePreviews penv fileId st).2
       = on_file fileId (λ f, preview_error_entry f message) (files st)).
Proof.
  rewrite generatePagePreviews_cases. cbv zeta.
  destruct (preview_readFile penv) as [e | dataUri]; [right; by eexists |].
  destruct (preview_getDocument penv dataUri) as [e | numPages];
    [right; by eexists |].
  destruct (previews_loop penv fileId numPages numPages 1 [] [] st)
    as [[e | result] st1] eqn:Hloop.
  - right. eexists. simpl.
    pose proof (previews_loop_spec penv fileId
                  (λ f, preview_error_entry f
                          match e with
                          | ErrorObject message => message
                          | NotAnError => "Could not read PDF for preview."
                          end)
                  numPages numPages 1 [] [] st (λ _ _, eq_refl)) as Hspec.
    cbv zeta in Hspec. rewrite Hloop in Hspec. by destruct Hspec as (Hfiles & _).
  - left. exists numPages, result.1, result.2. simpl.
    pose proof (previews_loop_spec penv fileId
                  (λ f, previewed_entry f numPages result.1 result.2)
                  numPages numPages 1 [] [] st (λ _ _, eq_refl)) as Hspec.
    cbv zeta in Hspec. rewrite Hloop in Hspec. by destruct Hspec as (Hfiles & _).
Qed.

(** The loop over pages that all answer: what it has collected. *)
Lemma previews_loop_succeeds (penv : PreviewEnv) (fileId : string)
    (rendered : nat → Dimensions * option string) (numPages remaining i : nat)
    (previews : list (nat * string)) (dimensions : list (option Dimensions))
    (st : St) :
  (∀ j, i ≤ j < i + remaining → preview_page penv j = inr (rendered j)) →
  (previews_loop penv fileId numPages remaining i previews dimensions st).1
  = inr (previews
         ++ omap (λ j, match (rendered j).2 with
                       | Some imageUri => Some (j, imageUri)
                       | None => None
                       end) (seq i remaining),
         dimensions ++ map (λ j, Some (rendered j).1) (seq i remaining)).
Proof.
  revert i previews dimensions st.
  induction remaining as [|remaining IH]; intros i previews dimensions st Hpages.
  - simpl. by rewrite !app_nil_r.
  - cbn [previews_loop]. unfold bind at 1, call at 1.
    rewrite (Hpages i) by lia. simpl.
    unfold bind at 1, setFiles at 1. simpl.
    rewrite IH by (intros j Hj; apply Hpages; lia).
    destruct ((rendered i).2) as [imageUri |]; simpl; by rewrite <- !app_assoc.
Qed.

(** The loop throws what the first page that does not answer throws. *)
Lemma previews_loop_fails (penv : PreviewEnv) (fileId : string)
    (numPages remaining i j : nat) (e : Thrown)
    (previews : list (nat * string)) (dimensions : list (option Dimensions))
    (st : St) :
  i ≤ j < i + remaining →
  preview_page penv j = inl e →
  (∀ k, i ≤ k < j → ∃ r, preview_page penv k = inr r) →
  (previews_loop penv fileId numPages remaining i previews dimensions st).1 = inl e.
Proof.
  revert i previews dimensions st.
  induction remaining as [|remaining IH]; intros i previews dimensions st Hj He Hbefore.
  - lia.
  - cbn [previews_loop]. unfold bind at 1, call at 1.
    destruct (decide (i = j)) as [-> | Hij].
    + by rewrite He.
    + destruct (Hbefore i) as [r Hr]; [lia |]. rewrite Hr. simpl.
      unfold bind at 1, setFiles at 1. simpl.
      apply IH; [lia | done |]. intros k Hk. apply Hbefore. lia.
Qed.

(** How [generatePagePreviews] ends, by what its collaborators do.  When
    reading the file throws, when opening the document throws, or when a
    page throws and the pages before it answered: the entries of the
    file are in error, with progress 0 and the message of what was thrown
    (a fixed text for what is not an [Error]), and the notice that the
    preview failed is shown.  When the document opens with [numPages]
    pages that all answer: the entries are awaiting selection, with
    progress 0, [numPages] as [totalPages], the dimensions of pages 1 to
    [numPages] in order as [pageImageDimensions], and as previews the
    images of the pages that gave one, in ascending order; nothing is
    shown.  In each case the other fields, and the other files, are as
    they were. *)
Theorem previews_end_ready_or_in_error (penv : PreviewEnv) (fileId : string)
    (st : St) :
  let st' := (generatePagePreviews penv fileId st).2 in
  let message_of (e : Thrown) :=
    match e with
    | ErrorObject message => message
    | NotAnError => "Could not read PDF for preview."
    end in
  let failed (e : Thrown) :=
    files st' = on_file fileId (λ f, preview_error_entry f (message_of e)) (files st)
    ∧ log st' = log st ++ [ConsoleError; Toast "Preview Failed"] in
  (∀ e, preview_readFile penv = inl e → failed e)
  ∧ (∀ dataUri e,
       preview_readFile penv = inr dataUri →
       preview_getDocument penv dataUri = inl e → failed e)
  ∧ (∀ dataUri numPages j e,
       preview_readFile penv = inr dataUri →
       preview_getDocument penv dataUri = inr numPages →
       1 ≤ j ≤ numPages →
       preview_page penv j = inl e →
       (∀ k, 1 ≤ k < j → ∃ r, preview_page penv k = inr r) →
       failed e)
  ∧ (∀ dataUri numPages (rendered : nat → Dimensions * option string),
       preview_readFile penv = inr dataUri →
       preview_getDocument penv dataUri = inr numPages →
       (∀ j, 1 ≤ j ≤ numPages → preview_page penv j = inr (rendered j)) →
       files st'
       = on_file fileId
           (λ f, previewed_entry f numPages
                   (omap (λ j, match (rendered j).2 with
                               | Some imageUri => Some (j, imageUri)
                               | None => None
                               end) (seq 1 numPages))
                   (map (λ j, Some (rendered j).1) (seq 1 numPages)))
           (files st)
       ∧ log st' = log st).
Proof.
  intros st' message_of failed. subst st' failed.
  rewrite generatePagePreviews_cases. cbv zeta.
  split_and!.
  - intros e ->. simpl. done.
  - intros dataUri e -> ->. simpl. done.
  - intros dataUri numPages j e -> -> Hj He Hbefore.
    pose proof (previews_loop_fails penv fileId numPages numPages 1 j e [] [] st)
      as Hfails.
    pose proof (previews_loop_spec penv fileId
                  (λ f, preview_error_entry f (message_of e))
                  numPages numPages 1 [] [] st (λ _ _, eq_refl)) as Hspec.
    cbv zeta in Hspec.
    destruct (previews_loop penv fileId numPages numPages 1 [] [] st)
      as [r st1].
    simpl in Hfails. rewrite Hfails by (done || lia). simpl.
    simpl in Hspec. destruct Hspec as (Hfiles & Hlog & _).
    split; [exact Hfiles | by rewrite Hlog].
  - intros dataUri numPages rendered -> -> Hpages.
    pose proof (previews_loop_succeeds penv fileId rendered numPages numPages 1 [] [] st)
      as Hsucceeds.
    set (previews := omap _ (seq 1 numPages)) in *.
    set (dimensions := map _ (seq 1 numPages)) in *.
    pose proof (previews_loop_spec penv fileId
                  (λ f, previewed_entry f numPages previews dimensions)
                  numPages numPages 1 [] [] st (λ _ _, eq_refl)) as Hspec.
    cbv zeta in Hspec.
    destruct (previews_loop penv fileId numPages numPages 1 [] [] st)
      as [r st1].
    simpl in Hsucceeds. rewrite Hsucceeds by (intros j Hj; apply Hpages; lia).
    simpl. simpl in Hspec. destruct Hspec as (Hfiles & Hlog & _).
    split; [exact Hfiles | exact Hlog].
Qed.

(** [handleReprocess] of a file of the list leaves each entry of its id
    with the tasks of the file, in their order and with their rules, none
    with a preview, with no page selected, no recognized or edited text
    and no rectangle, and awaiting selection or in error.  The other files
    are as they were. *)
Theorem reprocess_keeps_the_rules (penv : PreviewEnv) (fileId : string)
    (st : St) (pf : ProcessedFile) :
  List.find (λ f, bool_decide (file_id f = fileId)) (files st) = Some pf →
  Forall2 (λ f f',
             if bool_decide (file_id f = fileId) then
               file_id f' = fileId
               ∧ extractionTasks f' = map clear_preview (extractionTasks pf)
               ∧ selectedPages f' = ∅ ∧ extractedData f' = None
               ∧ manuallyEditedPages f' = Some ∅ ∧ selectionRectangles f' = None
               ∧ (status f' = awaiting_selection ∨ status f' = error_status)
               ∧ progress f' = 0%Z
             else f' = f)
          (files st) (files (handleReprocess penv fileId st).2).
Proof.
  intros Hfind. unfold handleReprocess. rewrite Hfind.
  apply SessionFacts.find_id_elem in Hfind as [_ Hid].
  unfold bind at 1, setFiles at 1. simpl.
  match goal with
  | |- context [generatePagePreviews penv (file_id pf) ?s] =>
      pose proof (generatePagePreviews_files penv (file_id pf) s) as Hend
  end.
  simpl in Hend.
  destruct Hend as [(numPages & previews & dimensions & ->) | (message & ->)].
  all: unfold on_file; rewrite <- list_fmap_compose.
  all: apply Forall2_fmap_r, Forall_Forall2_diag, Forall_forall; intros f _; simpl.
  all: destruct (decide (file_id f = fileId)) as [Hf | Hf].
  all: try (rewrite !(bool_decide_false (file_id f = fileId)) by done;
            rewrite bool_decide_false by congruence; done).
  all: rewrite !(bool_decide_true (file_id f = fileId)) by done; simpl.
  all: rewrite bool_decide_true by done; simpl.
  all: split_and!; auto.
Qed.

Lemma reprocess_keeps_the_rules_witness :
  List.find (λ f, bool_decide (file_id f = "roll.pdf-0-1")) [Excel.headerless_file]
  = Some Excel.headerless_file
  ∧ Forall2 (λ f f',
               if bool_decide (file_id f = "roll.pdf-0-1") then
                 file_id f' = "roll.pdf-0-1"
                 ∧ extractionTasks f'
                   = map clear_preview (extractionTasks Excel.headerless_file)
                 ∧ selectedPages f' = ∅ ∧ extractedData f' = None
                 ∧ manuallyEditedPages f' = Some ∅ ∧ selectionRectangles f' = None
                 ∧ (status f' = awaiting_selection ∨ status f' = error_status)
                 ∧ progress f' = 0%Z
               else f' = f)
            [Excel.headerless_file]
            (files (handleReprocess sample_previews "roll.pdf-0-1"
                      {| files := [Excel.headerless_file]; log := [] |}).2).
Proof.
  assert (H : List.find (λ f, bool_decide (file_id f = "roll.pdf-0-1"))
                [Excel.headerless_file]
              = Some Excel.headerless_file) by reflexivity.
  split; [exact H |].
  exact (reprocess_keeps_the_rules sample_previews "roll.pdf-0-1"
           {| files := [Excel.headerless_file]; log := [] |}
           Excel.headerless_file H).
Defined.

End PreviewFacts.
